(** * NixIO: mapping Neo object trees onto a NIX file

    A shallow embedding of [neonix/io/nixio.py] (class [NixIO]).  The Neo
    objects handed to the writer are plain records; the NIX file, which the
    Python code mutates through handles, is an explicit store threaded
    through a state-and-exception monad.  Python list objects used as
    paths live in their own heap, so that aliasing of a path between a
    caller and its callee is visible. *)

From Stdlib Require Import QArith.
From stdpp Require Import base option list strings gmap pretty.

Close Scope Q_scope.

(** ** Python values shared by both object models *)

(** [id(obj)]: the identity key the writer uses for its cross-reference table. *)
Abbreviation pyid := nat (only parsing).

(** [nix.Value(...)]: a scalar stored in a metadata property. *)
Inductive Value :=
| VString (s : string)
| VNumber (q : Q)
| VInteger (z : Z).

(** Truth value of an optional string ([None] and the empty string are false). *)
Definition truthy_str (s : option string) : bool :=
  match s with
  | Some s => negb (String.eqb s "")
  | None => false
  end.

(** [str.format] of a possibly missing string prints [None] for [None]. *)
Definition str_or_none (s : option string) : string := default "None" s.

(** ** The Neo side: the objects that are read *)

Module Neo.

Record Quantity := { magnitude : Q; units : string }.

(** A one-dimensional quantity array (times, durations). *)
Record QuantityArray := { magnitudes : list Q; array_units : string }.

(** A two-dimensional array of shape [(nrows, ncols)], stored row by row. *)
Record Array2 := { nrows : nat; ncols : nat; cells : list (list Q) }.

(** [a.transpose()], iterated: one list of samples per column. *)
Definition transpose (a : Array2) : list (list Q) :=
  (λ j, (λ row, nth j row 0%Q) <$> cells a) <$> seq 0 (ncols a).

(** Truth value of an optional scalar quantity: a zero magnitude is false. *)
Definition truthy_quantity (q : option Quantity) : bool :=
  match q with
  | Some q => negb (Qeq_bool (magnitude q) 0)
  | None => false
  end.

(** [datetime.timetuple()], the part of it that matters. *)
Record datetime :=
  { year : Z; month : Z; day : Z; hour : Z; minute : Z; second : Z }.

(** Attributes every Neo object carries. *)
Record Base := {
  obj_id : pyid;
  name : option string;
  description : option string;
  file_origin : option string;
  annotations : list (string * Value);
}.

Record AnalogSignal := {
  asig_base : Base;
  asig_signal : Array2;
  asig_units : string;
  asig_sampling_period : Quantity;
  asig_t_start : Quantity;
}.

Record IrregularlySampledSignal := {
  isig_base : Base;
  isig_signal : Array2;
  isig_units : string;
  isig_times : QuantityArray;
}.

Record Epoch := {
  ep_base : Base;
  ep_times : QuantityArray;
  ep_durations : QuantityArray;
  ep_labels : list string;
}.

Record Event := {
  ev_base : Base;
  ev_times : QuantityArray;
  ev_labels : list string;
}.

Record Waveforms := { wf_magnitudes : list (list (list Q)); wf_units : string }.

Record SpikeTrain := {
  sptr_base : Base;
  sptr_times : QuantityArray;
  sptr_t_start : option Quantity;
  sptr_t_stop : Quantity;
  sptr_waveforms : option Waveforms;
  sptr_sampling_period : Quantity;
  sptr_left_sweep : option Quantity;
}.

(** A Unit holds its spike trains by reference: the same object (same
    [obj_id]) may also sit in a Segment. *)
Record Unit := {
  ut_base : Base;
  ut_spiketrains : list SpikeTrain;
}.

Record RecordingChannelGroup := {
  rcg_base : Base;
  channel_indexes : list Z;
  channel_names : list string;
  coordinates : option (list (list Quantity));
  rcg_units : list Unit;
  rcg_analogsignals : list AnalogSignal;
  rcg_irregularlysampledsignals : list IrregularlySampledSignal;
}.

Record Segment := {
  seg_base : Base;
  seg_rec_datetime : option datetime;
  seg_file_datetime : option datetime;
  analogsignals : list AnalogSignal;
  irregularlysampledsignals : list IrregularlySampledSignal;
  epochs : list Epoch;
  events : list Event;
  spiketrains : list SpikeTrain;
}.

Record Block := {
  blk_base : Base;
  blk_rec_datetime : option datetime;
  blk_file_datetime : option datetime;
  segments : list Segment;
  recordingchannelgroups : list RecordingChannelGroup;
}.

End Neo.

Coercion Neo.asig_base : Neo.AnalogSignal >-> Neo.Base.
Coercion Neo.isig_base : Neo.IrregularlySampledSignal >-> Neo.Base.
Coercion Neo.ep_base : Neo.Epoch >-> Neo.Base.
Coercion Neo.ev_base : Neo.Event >-> Neo.Base.
Coercion Neo.sptr_base : Neo.SpikeTrain >-> Neo.Base.
Coercion Neo.ut_base : Neo.Unit >-> Neo.Base.
Coercion Neo.rcg_base : Neo.RecordingChannelGroup >-> Neo.Base.
Coercion Neo.seg_base : Neo.Segment >-> Neo.Base.
Coercion Neo.blk_base : Neo.Block >-> Neo.Base.

(** ** The NIX side: the objects that are created *)

Module Nix.

(** Handles into the two heaps of the file. *)
Abbreviation handle := nat (only parsing).
Abbreviation sec_handle := nat (only parsing).

Inductive Kind := Block | Group | Source | DataArray | MultiTag | Feature.

Inductive Dimension :=
| SampledDimension (sampling_interval : Q) (unit label : option string)
                   (offset : option Q)
| RangeDimension (ticks : list Q) (unit label : option string)
| SetDimension (labels : list string).

Inductive Data :=
| NoData
| Data1 (l : list Q)
| Data3 (l : list (list (list Q))).

Inductive LinkType := Tagged | Untagged | Indexed.

(** One record for every kind of entity; a kind only exposes the
    attributes NIX gives it (see the accessors of the writer below).
    [sources] is the list of child sources of a Block or Source and the
    list of linked sources of a DataArray or MultiTag; [data_arrays] and
    [multi_tags] are owned by a Block and linked by a Group. *)
Record Entity := mkEntity {
  kind : Kind;
  name : string;
  type : string;
  definition : option string;
  da_unit : option string;
  created_at : option Z;
  metadata : option sec_handle;
  data : Data;
  dimensions : list Dimension;
  groups : list handle;
  sources : list handle;
  data_arrays : list handle;
  multi_tags : list handle;
  references : list handle;
  positions : option handle;
  extents : option handle;
  features : list handle;
  link_type : option LinkType;
}.

Definition new_entity (k : Kind) (nm ty : string) : Entity :=
  mkEntity k nm ty None None None None NoData [] [] [] [] [] [] None None [] None.

Definition set_definition (v : option string) (e : Entity) : Entity :=
  mkEntity (kind e) (name e) (type e) v (da_unit e) (created_at e)
    (metadata e) (data e) (dimensions e) (groups e) (sources e)
    (data_arrays e) (multi_tags e) (references e) (positions e) (extents e)
    (features e) (link_type e).
Definition set_unit (v : option string) (e : Entity) : Entity :=
  mkEntity (kind e) (name e) (type e) (definition e) v (created_at e)
    (metadata e) (data e) (dimensions e) (groups e) (sources e)
    (data_arrays e) (multi_tags e) (references e) (positions e) (extents e)
    (features e) (link_type e).
Definition set_created_at (v : option Z) (e : Entity) : Entity :=
  mkEntity (kind e) (name e) (type e) (definition e) (da_unit e) v
    (metadata e) (data e) (dimensions e) (groups e) (sources e)
    (data_arrays e) (multi_tags e) (references e) (positions e) (extents e)
    (features e) (link_type e).
Definition set_metadata (v : option sec_handle) (e : Entity) : Entity :=
  mkEntity (kind e) (name e) (type e) (definition e) (da_unit e)
    (created_at e) v (data e) (dimensions e) (groups e) (sources e)
    (data_arrays e) (multi_tags e) (references e) (positions e) (extents e)
    (features e) (link_type e).
Definition set_dimensions (v : list Dimension) (e : Entity) : Entity :=
  mkEntity (kind e) (name e) (type e) (definition e) (da_unit e)
    (created_at e) (metadata e) (data e) v (groups e) (sources e)
    (data_arrays e) (multi_tags e) (references e) (positions e) (extents e)
    (features e) (link_type e).
Definition set_groups (v : list handle) (e : Entity) : Entity :=
  mkEntity (kind e) (name e) (type e) (definition e) (da_unit e)
    (created_at e) (metadata e) (data e) (dimensions e) v (sources e)
    (data_arrays e) (multi_tags e) (references e) (positions e) (extents e)
    (features e) (link_type e).
Definition set_sources (v : list handle) (e : Entity) : Entity :=
  mkEntity (kind e) (name e) (type e) (definition e) (da_unit e)
    (created_at e) (metadata e) (data e) (dimensions e) (groups e) v
    (data_arrays e) (multi_tags e) (references e) (positions e) (extents e)
    (features e) (link_type e).
Definition set_data_arrays (v : list handle) (e : Entity) : Entity :=
  mkEntity (kind e) (name e) (type e) (definition e) (da_unit e)
    (created_at e) (metadata e) (data e) (dimensions e) (groups e)
    (sources e) v (multi_tags e) (references e) (positions e) (extents e)
    (features e) (link_type e).
Definition set_multi_tags (v : list handle) (e : Entity) : Entity :=
  mkEntity (kind e) (name e) (type e) (definition e) (da_unit e)
    (created_at e) (metadata e) (data e) (dimensions e) (groups e)
    (sources e) (data_arrays e) v (references e) (positions e) (extents e)
    (features e) (link_type e).
Definition set_references (v : list handle) (e : Entity) : Entity :=
  mkEntity (kind e) (name e) (type e) (definition e) (da_unit e)
    (created_at e) (metadata e) (data e) (dimensions e) (groups e)
    (sources e) (data_arrays e) (multi_tags e) v (positions e) (extents e)
    (features e) (link_type e).
Definition set_extents (v : option handle) (e : Entity) : Entity :=
  mkEntity (kind e) (name e) (type e) (definition e) (da_unit e)
    (created_at e) (metadata e) (data e) (dimensions e) (groups e)
    (sources e) (data_arrays e) (multi_tags e) (references e) (positions e)
    v (features e) (link_type e).
Definition set_features (v : list handle) (e : Entity) : Entity :=
  mkEntity (kind e) (name e) (type e) (definition e) (da_unit e)
    (created_at e) (metadata e) (data e) (dimensions e) (groups e)
    (sources e) (data_arrays e) (multi_tags e) (references e) (positions e)
    (extents e) v (link_type e).

(** A metadata section.  [sec_parent = None] places it directly under the
    file root.  A property holds one value or a tuple of values. *)
Record Section := mkSection {
  sec_name : string;
  sec_type : string;
  sec_parent : option sec_handle;
  props : list (string * list Value);
}.

Definition add_prop (k : string) (v : list Value) (s : Section) : Section :=
  mkSection (sec_name s) (sec_type s) (sec_parent s) (props s ++ [(k, v)]).

#[global] Instance Kind_eq_dec : EqDecision Kind.
Proof. solve_decision. Defined.

End Nix.

(** ** Paths, mapped objects and the writer's state *)

(** One step of a path: the NIX collection to look in and the name to find. *)
Abbreviation step := (string * string)%type (only parsing).
Abbreviation path := (list (string * string)) (only parsing).

(** A reference to a Python list object holding a path. *)
Abbreviation listref := nat (only parsing).

(** What a Python variable holding "a NIX object" can be bound to: the file
    itself, an entity of the file, or [None]. *)
Inductive PyObj := PFile | PEnt (h : Nix.handle) | PNone.

(** The values of [neo_nix_map]: one NIX object, or a list of DataArrays. *)
Inductive Mapped := MObj (h : Nix.handle) | MList (hs : list Nix.handle).

Inductive Error :=
| KeyError (msg : string)
| AttributeError (msg : string)
| IndexError (msg : string)
| TypeError (msg : string)
| DuplicateName (msg : string)
| RecursionError.

Inductive Result (A : Type) :=
| Ok (a : A)
| Raise (e : Error).
Arguments Ok {A} a.
Arguments Raise {A} e.

(** [self.nix_file], [self.neo_nix_map] and the heap of path lists. *)
Record State := mkState {
  entities : list Nix.Entity;
  sections : list Nix.Section;
  blocks : list Nix.handle;
  neo_nix_map : gmap pyid Mapped;
  py_lists : list path;
}.

(** The list object created once for the default argument
    [obj_path=list()] of [_get_or_init_metadata]. *)
Definition default_obj_path : listref := 0.

(** [NixIO.__init__]: an empty file (opened in overwrite mode), an empty map. *)
Definition init_state : State := mkState [] [] [] ∅ [[]].

Definition set_entities (v : list Nix.Entity) (st : State) : State :=
  mkState v (sections st) (blocks st) (neo_nix_map st) (py_lists st).
Definition set_sections (v : list Nix.Section) (st : State) : State :=
  mkState (entities st) v (blocks st) (neo_nix_map st) (py_lists st).
Definition set_blocks (v : list Nix.handle) (st : State) : State :=
  mkState (entities st) (sections st) v (neo_nix_map st) (py_lists st).
Definition set_neo_nix_map (v : gmap pyid Mapped) (st : State) : State :=
  mkState (entities st) (sections st) (blocks st) v (py_lists st).
Definition set_py_lists (v : list path) (st : State) : State :=
  mkState (entities st) (sections st) (blocks st) (neo_nix_map st) v.

(** ** The monad: state that survives an exception *)

Definition M (A : Type) : Type := State → State * Result A.

Definition ret {A} (a : A) : M A := λ st, (st, Ok a).

Definition bind {A B} (m : M A) (f : A → M B) : M B :=
  λ st, match m st with
        | (st', Ok a) => f a st'
        | (st', Raise e) => (st', Raise e)
        end.

Definition raise {A} (e : Error) : M A := λ st, (st, Raise e).

Definition gets {A} (f : State → A) : M A := λ st, (st, Ok (f st)).

Definition modify (f : State → State) : M unit := λ st, (f st, Ok tt).

#[global] Instance M_ret : MRet M := @ret.
#[global] Instance M_bind : MBind M := λ A B f m, bind m f.

(** [for x in l: body(x)] *)
Fixpoint for_each {A} (l : list A) (body : A → M unit) : M unit :=
  match l with
  | [] => ret tt
  | x :: l => body x ;; for_each l body
  end.

(** [[f(x) for x in l]] *)
Fixpoint map_m {A B} (f : A → M B) (l : list A) : M (list B) :=
  match l with
  | [] => ret []
  | x :: l => y ← f x; ys ← map_m f l; ret (y :: ys)
  end.

(** [for idx, x in enumerate(l)], counting from [i]. *)
Definition enumerate_from {A} (i : nat) (l : list A) : list (nat * A) :=
  zip (seq i (length l)) l.

(** ** The writer *)

(** What the writer takes from its libraries: [time.mktime] on a time
    tuple (it depends on the local time zone), [Quantity.rescale] and the
    simplified form of a unit, printed. *)
Class Libraries := {
  mktime : Neo.datetime → Q;
  rescale : Neo.Quantity → string → Neo.Quantity;
  simplified : string → string;
}.

Section Writer.

Context {libs : Libraries}.

(** [int(x)] on a float: truncation towards zero. *)
Definition int_of (x : Q) : Z := Z.quot (Qnum x) (Zpos (Qden x)).

Definition calculate_timestamp (dt : Neo.datetime) : Z := int_of (mktime dt).

(** *** Reading and updating the two heaps *)

Definition get_ent (h : Nix.handle) : M Nix.Entity :=
  e ← gets (λ st, entities st !! h);
  match e with
  | Some e => ret e
  | None => raise (KeyError "stale handle")
  end.

Definition upd_ent (h : Nix.handle) (f : Nix.Entity → Nix.Entity) : M unit :=
  modify (λ st, set_entities (alter f h (entities st)) st).

Definition new_ent (e : Nix.Entity) : M Nix.handle :=
  h ← gets (λ st, length (entities st));
  modify (λ st, set_entities (entities st ++ [e]) st);;
  ret h.

Definition upd_sec (s : Nix.sec_handle) (f : Nix.Section → Nix.Section) : M unit :=
  modify (λ st, set_sections (alter f s (sections st)) st).

Definition new_sec (s : Nix.Section) : M Nix.sec_handle :=
  h ← gets (λ st, length (sections st));
  modify (λ st, set_sections (sections st ++ [s]) st);;
  ret h.

(** Reading a path list, and building a new list object. *)
Definition deref (r : listref) : M path :=
  p ← gets (λ st, py_lists st !! r);
  match p with
  | Some p => ret p
  | None => raise (KeyError "stale list")
  end.

Definition new_list (p : path) : M listref :=
  r ← gets (λ st, length (py_lists st));
  modify (λ st, set_py_lists (py_lists st ++ [p]) st);;
  ret r.

(** [a + b] on lists: a new list object, [a] is only read. *)
Definition list_add (a : listref) (b : path) : M listref :=
  p ← deref a; new_list (p ++ b).

(** [a[:-1]]: a new list object. *)
Definition list_init (a : listref) : M listref :=
  p ← deref a; new_list (removelast p).

(** [[a[0]]]: a new one-element list. *)
Definition list_first (a : listref) : M listref :=
  p ← deref a;
  match p with
  | s :: _ => new_list [s]
  | [] => raise (IndexError "list index out of range")
  end.

(** *** The NIX interface, as the writer uses it *)

(** The object a variable is bound to, when an attribute of an entity is
    read from it. *)
Definition the_entity (o : PyObj) (attr : string) : M (Nix.handle * Nix.Entity) :=
  match o with
  | PEnt h => e ← get_ent h; ret (h, e)
  | _ => raise (AttributeError attr)
  end.

(** Which kinds have which collection. *)
Definition has_groups (k : Nix.Kind) : bool := bool_decide (k = Nix.Block).
Definition has_sources (k : Nix.Kind) : bool :=
  bool_decide (k ∈ [Nix.Block; Nix.Source; Nix.DataArray; Nix.MultiTag]).
Definition has_data_arrays (k : Nix.Kind) : bool :=
  bool_decide (k ∈ [Nix.Block; Nix.Group]).
Definition has_multi_tags (k : Nix.Kind) : bool :=
  bool_decide (k ∈ [Nix.Block; Nix.Group]).
Definition has_tags (k : Nix.Kind) : bool :=
  bool_decide (k ∈ [Nix.Block; Nix.Group]).
Definition has_features (k : Nix.Kind) : bool := bool_decide (k = Nix.MultiTag).
Definition has_metadata (k : Nix.Kind) : bool := bool_decide (k ≠ Nix.Feature).

(** [obj.<attr>] for a collection: the handles, when the kind has it. *)
Definition collection (has : Nix.Kind → bool) (proj : Nix.Entity → list Nix.handle)
    (attr : string) (o : PyObj) : M (list Nix.handle) :=
  '(_, e) ← the_entity o attr;
  if has (Nix.kind e) then ret (proj e) else raise (AttributeError attr).

Definition groups_of := collection has_groups Nix.groups "groups".
Definition sources_of := collection has_sources Nix.sources "sources".
Definition data_arrays_of := collection has_data_arrays Nix.data_arrays "data_arrays".
Definition multi_tags_of := collection has_multi_tags Nix.multi_tags "multi_tags".
Definition tags_of := collection has_tags (λ _, []) "tags".
Definition features_of := collection has_features Nix.features "features".

(** [file.blocks] exists on the file only. *)
Definition blocks_of (o : PyObj) : M (list Nix.handle) :=
  match o with
  | PFile => gets blocks
  | _ => raise (AttributeError "blocks")
  end.

Definition name_of (o : PyObj) : M string :=
  '(_, e) ← the_entity o "name"; ret (Nix.name e).

Definition type_of (o : PyObj) : M string :=
  '(_, e) ← the_entity o "type"; ret (Nix.type e).

Definition metadata_of (o : PyObj) : M (option Nix.sec_handle) :=
  '(_, e) ← the_entity o "metadata";
  if has_metadata (Nix.kind e) then ret (Nix.metadata e)
  else raise (AttributeError "metadata").

(** The first handle of [hs] whose entity is called [nm]. *)
Definition is_named (ents : list Nix.Entity) (nm : string) (h : Nix.handle) : bool :=
  match ents !! h with
  | Some e => bool_decide (Nix.name e = nm)
  | None => false
  end.

Definition find_named (ents : list Nix.Entity) (hs : list Nix.handle)
    (nm : string) : option Nix.handle :=
  find (is_named ents nm) hs.

(** [collection[name]]: a [KeyError] when no member has the name. *)
Definition item (hs : list Nix.handle) (nm : string) : M PyObj :=
  r ← gets (λ st, find_named (entities st) hs nm);
  match r with
  | Some h => ret (PEnt h)
  | None => raise (KeyError nm)
  end.

(** NIX refuses a second object of the same name in one collection. *)
Definition check_unused (hs : list Nix.handle) (nm : string) : M unit :=
  r ← gets (λ st, find_named (entities st) hs nm);
  match r with
  | Some _ => raise (DuplicateName nm)
  | None => ret tt
  end.

Definition create_block (nm ty : string) : M Nix.handle :=
  bs ← gets blocks;
  check_unused bs nm;;
  h ← new_ent (Nix.new_entity Nix.Block nm ty);
  modify (λ st, set_blocks (blocks st ++ [h]) st);;
  ret h.

Definition create_group (parent : PyObj) (nm ty : string) : M Nix.handle :=
  gs ← groups_of parent;
  '(ph, _) ← the_entity parent "create_group";
  check_unused gs nm;;
  h ← new_ent (Nix.new_entity Nix.Group nm ty);
  upd_ent ph (λ e, Nix.set_groups (Nix.groups e ++ [h]) e);;
  ret h.

(** [create_source] exists on a Block and on a Source. *)
Definition create_source (parent : PyObj) (nm ty : string) : M Nix.handle :=
  '(ph, pe) ← the_entity parent "create_source";
  if bool_decide (Nix.kind pe ∈ [Nix.Block; Nix.Source]) then
    check_unused (Nix.sources pe) nm;;
    h ← new_ent (Nix.new_entity Nix.Source nm ty);
    upd_ent ph (λ e, Nix.set_sources (Nix.sources e ++ [h]) e);;
    ret h
  else raise (AttributeError "create_source").

Definition new_data_array (nm ty : string) (d : Nix.Data) : Nix.Entity :=
  Nix.mkEntity Nix.DataArray nm ty None None None None d [] [] [] [] [] []
    None None [] None.

Definition create_data_array (parent : PyObj) (nm ty : string) (d : Nix.Data)
    : M Nix.handle :=
  das ← data_arrays_of parent;
  '(ph, pe) ← the_entity parent "create_data_array";
  if bool_decide (Nix.kind pe = Nix.Block) then
    check_unused das nm;;
    h ← new_ent (new_data_array nm ty d);
    upd_ent ph (λ e, Nix.set_data_arrays (Nix.data_arrays e ++ [h]) e);;
    ret h
  else raise (AttributeError "create_data_array").

Definition new_multi_tag (nm ty : string) (pos : Nix.handle) : Nix.Entity :=
  Nix.mkEntity Nix.MultiTag nm ty None None None None Nix.NoData [] [] [] [] []
    [] (Some pos) None [] None.

Definition create_multi_tag (parent : PyObj) (nm ty : string) (pos : Nix.handle)
    : M Nix.handle :=
  mts ← multi_tags_of parent;
  '(ph, pe) ← the_entity parent "create_multi_tag";
  if bool_decide (Nix.kind pe = Nix.Block) then
    check_unused mts nm;;
    h ← new_ent (new_multi_tag nm ty pos);
    upd_ent ph (λ e, Nix.set_multi_tags (Nix.multi_tags e ++ [h]) e);;
    ret h
  else raise (AttributeError "create_multi_tag").

(** A Feature has no name; it keeps the array it links in [data_arrays]. *)
Definition new_feature (da : Nix.handle) (lt : Nix.LinkType) : Nix.Entity :=
  Nix.mkEntity Nix.Feature "" "" None None None None Nix.NoData [] [] [] [da] []
    [] None None [] (Some lt).

Definition create_feature (mtag da : Nix.handle) (lt : Nix.LinkType)
    : M Nix.handle :=
  _ ← features_of (PEnt mtag);
  h ← new_ent (new_feature da lt);
  upd_ent mtag (λ e, Nix.set_features (Nix.features e ++ [h]) e);;
  ret h.

(** [parent.create_section(name, type)]; [parent = None] is the file.
    Sibling sections carry distinct names. *)
Definition sibling_named (secs : list Nix.Section) (parent : option Nix.sec_handle)
    (nm : string) : bool :=
  bool_decide (Exists (λ s, Nix.sec_parent s = parent ∧ Nix.sec_name s = nm) secs).

Definition create_section (parent : option Nix.sec_handle) (nm ty : string)
    : M Nix.sec_handle :=
  dup ← gets (λ st, sibling_named (sections st) parent nm);
  if dup : bool then raise (DuplicateName nm)
  else new_sec (Nix.mkSection nm ty parent []).

(** [section.create_property(key, values)]: a key is used once. *)
Definition create_property (s : Nix.sec_handle) (k : string) (v : list Value)
    : M unit :=
  sec ← gets (λ st, sections st !! s);
  match sec with
  | None => raise (KeyError "stale section")
  | Some sec =>
      if bool_decide (k ∈ (fst <$> Nix.props sec)) then raise (DuplicateName k)
      else upd_sec s (Nix.add_prop k v)
  end.

(** [da.append_..._dimension(...)]: the new descriptor goes last; its
    attributes are then set through its position. *)
Definition append_dimension (da : Nix.handle) (d : Nix.Dimension) : M nat :=
  e ← get_ent da;
  upd_ent da (λ e, Nix.set_dimensions (Nix.dimensions e ++ [d]) e);;
  ret (length (Nix.dimensions e)).

Definition upd_dimension (da : Nix.handle) (i : nat)
    (f : Nix.Dimension → Nix.Dimension) : M unit :=
  upd_ent da (λ e, Nix.set_dimensions (alter f i (Nix.dimensions e)) e).

Definition dim_set_unit (u : string) (d : Nix.Dimension) : Nix.Dimension :=
  match d with
  | Nix.SampledDimension i _ l o => Nix.SampledDimension i (Some u) l o
  | Nix.RangeDimension t _ l => Nix.RangeDimension t (Some u) l
  | Nix.SetDimension ls => Nix.SetDimension ls
  end.

Definition dim_set_label (lb : string) (d : Nix.Dimension) : Nix.Dimension :=
  match d with
  | Nix.SampledDimension i u _ o => Nix.SampledDimension i u (Some lb) o
  | Nix.RangeDimension t u _ => Nix.RangeDimension t u (Some lb)
  | Nix.SetDimension ls => Nix.SetDimension ls
  end.

Definition dim_set_offset (off : Q) (d : Nix.Dimension) : Nix.Dimension :=
  match d with
  | Nix.SampledDimension i u l _ => Nix.SampledDimension i u l (Some off)
  | d => d
  end.

Definition dim_set_labels (ls : list string) (d : Nix.Dimension) : Nix.Dimension :=
  match d with
  | Nix.SetDimension _ => Nix.SetDimension ls
  | d => d
  end.

(** [obj.<collection>.append(x)] on a link collection. *)
Definition data_arrays_append (o : PyObj) (da : Nix.handle) : M unit :=
  _ ← data_arrays_of o;
  '(h, _) ← the_entity o "data_arrays";
  upd_ent h (λ e, Nix.set_data_arrays (Nix.data_arrays e ++ [da]) e).

Definition multi_tags_append (o : PyObj) (mt : Nix.handle) : M unit :=
  _ ← multi_tags_of o;
  '(h, _) ← the_entity o "multi_tags";
  upd_ent h (λ e, Nix.set_multi_tags (Nix.multi_tags e ++ [mt]) e).

Definition sources_append (o : PyObj) (src : Nix.handle) : M unit :=
  _ ← sources_of o;
  '(h, _) ← the_entity o "sources";
  upd_ent h (λ e, Nix.set_sources (Nix.sources e ++ [src]) e).

Definition references_extend (mt : Nix.handle) (das : list Nix.handle) : M unit :=
  e ← get_ent mt;
  if bool_decide (Nix.kind e = Nix.MultiTag) then
    upd_ent mt (λ e, Nix.set_references (Nix.references e ++ das) e)
  else raise (AttributeError "references").

(** [isinstance(obj, nix.Group)] and the like. *)
Definition isinstance (o : PyObj) (k : Nix.Kind) : M bool :=
  match o with
  | PEnt h => e ← get_ent h; ret (bool_decide (Nix.kind e = k))
  | _ => ret false
  end.

(** [obj.<attribute> = value] on a variable bound to a NIX object. *)
Definition setattr (o : PyObj) (attr : string) (f : Nix.Entity → Nix.Entity)
    : M unit :=
  '(h, _) ← the_entity o attr; upd_ent h f.

(** A NIX object passed where NIX expects an entity. *)
Definition as_entity (o : PyObj) : M Nix.handle :=
  match o with
  | PEnt h => ret h
  | _ => raise (TypeError "not a NIX entity")
  end.

(** [self.neo_nix_map[id(obj)] = value] *)
Definition map_set (k : pyid) (v : Mapped) : M unit :=
  modify (λ st, set_neo_nix_map (<[k := v]> (neo_nix_map st)) st).

(** [nix_name = obj.name; if not nix_name: nix_name = <synth>] *)
Definition name_or (nm : option string) (synth : M string) : M string :=
  if truthy_str nm then ret (default "" nm) else synth.

(** [if cond: body] *)
Definition when (c : bool) (body : M unit) : M unit :=
  if c then body else ret tt.

(** *** [_get_object_at] *)

Fixpoint walk (obj : PyObj) (p : path) : M PyObj :=
  match p with
  | [] => ret obj
  | (obj_type, obj_name) :: p =>
      if bool_decide (obj_type = "block") then
        c ← blocks_of obj; obj ← item c obj_name; walk obj p
      else if bool_decide (obj_type = "group") then
        c ← groups_of obj; obj ← item c obj_name; walk obj p
      else if bool_decide (obj_type = "source") then
        c ← sources_of obj; obj ← item c obj_name; walk obj p
      else if bool_decide (obj_type = "data_array") then
        c ← data_arrays_of obj; obj ← item c obj_name; walk obj p
      else if bool_decide (obj_type = "tag") then
        c ← tags_of obj; obj ← item c obj_name; walk obj p
      else if bool_decide (obj_type = "multi_tag") then
        c ← multi_tags_of obj; obj ← item c obj_name; walk obj p
      else if bool_decide (obj_type = "feature") then
        c ← features_of obj; obj ← item c obj_name; walk obj p
      else ret PNone
  end.

Definition _get_object_at (path : listref) : M PyObj :=
  p ← deref path; walk PFile p.

(** *** [_get_or_init_metadata]

    The recursion of the source follows [obj_path[:-1]]; here it is
    counted down by [fuel], which the entry point sets to the length of
    the path (see [get_or_init_metadata_rec_fuel] for why that is enough). *)

Fixpoint _get_or_init_metadata_rec (fuel : nat) (nix_obj : PyObj)
    (obj_path : listref) : M Nix.sec_handle :=
  md ← metadata_of nix_obj;
  match md with
  | Some s => ret s
  | None =>
      p ← deref obj_path;
      parent_metadata ←
        (if bool_decide (length p ≤ 1) then ret None
         else match fuel with
              | 0 => raise RecursionError
              | S fuel =>
                  r ← list_init obj_path;
                  obj_parent ← _get_object_at r;
                  r' ← list_init obj_path;
                  s ← _get_or_init_metadata_rec fuel obj_parent r';
                  ret (Some s)
              end);
      nm ← name_of nix_obj;
      ty ← type_of nix_obj;
      s ← create_section parent_metadata nm (ty +:+ ".metadata");
      setattr nix_obj "metadata" (Nix.set_metadata (Some s));;
      md ← metadata_of nix_obj;
      match md with
      | Some s => ret s
      | None => raise (AttributeError "metadata")
      end
  end.

Definition _get_or_init_metadata (nix_obj : PyObj) (obj_path : listref)
    : M Nix.sec_handle :=
  fuel ← gets (λ st, length (default [] (py_lists st !! obj_path)));
  _get_or_init_metadata_rec fuel nix_obj obj_path.

(** *** Annotations *)

Definition _add_annotations (annotations : list (string * Value))
    (metadata : Nix.sec_handle) : M unit :=
  for_each annotations (λ '(k, v), create_property metadata k [v]).

Definition _copy_annotations (neo_object : Neo.Base) (nix_object : PyObj)
    (object_path : listref) : M unit :=
  when (bool_decide (Neo.annotations neo_object ≠ []))
    (metadata ← _get_or_init_metadata nix_object object_path;
     _add_annotations (Neo.annotations neo_object) metadata).

(** *** Cross references *)

Definition unmapped_message : string :=
  "Attempting to get reference to NIX equivalent object before writing. This can occur if a signal or spiketrain object is referenced only by a RecordingChannelGroup or Unit and is not part of a Segment.".

Definition _get_mapped_object (neo_object : Neo.Base) : M Mapped :=
  r ← gets (λ st, neo_nix_map st !! Neo.obj_id neo_object);
  match r with
  | Some v => ret v
  | None => raise (KeyError unmapped_message)
  end.

Definition _get_mapped_objects (neo_object_list : list Neo.Base)
    : M (list Mapped) :=
  map_m _get_mapped_object neo_object_list.

Definition is_signal_type (ty : string) : bool :=
  bool_decide (ty ∈ ["neo.analogsignal"; "neo.irregularlysampledsignal"]).

Definition is_contained_signal (ents : list Nix.Entity) (da : Nix.handle) : bool :=
  match ents !! da with
  | Some e => is_signal_type (Nix.type e)
  | None => false
  end.

Definition _get_contained_signals (obj : PyObj) : M (list Nix.handle) :=
  das ← data_arrays_of obj;
  gets (λ st, filter (λ da, is_contained_signal (entities st) da) das).

(** *** Signals *)

Definition write_analogsignal (anasig : Neo.AnalogSignal) (parent_path : listref)
    : M (list Nix.handle) :=
  parent_group ← _get_object_at parent_path;
  r0 ← list_first parent_path;
  parent_block ← _get_object_at r0;
  nix_name ← name_or (Neo.name anasig)
    (das ← data_arrays_of parent_block;
     pname ← name_of parent_block;
     ret (pname +:+ ".AnalogSignal" +:+ pretty (length das)));
  let nix_type := "neo.analogsignal" in
  let nix_definition := Neo.description anasig in
  parent_metadata ← _get_or_init_metadata parent_group parent_path;
  anasig_group_segment ←
    create_section (Some parent_metadata) nix_name (nix_type +:+ ".metadata");
  when (truthy_str (Neo.file_origin anasig))
    (create_property anasig_group_segment "file_origin"
       [VString (default "" (Neo.file_origin anasig))]);;
  when (bool_decide (Neo.annotations anasig ≠ []))
    (_add_annotations (Neo.annotations anasig) anasig_group_segment);;
  let data_units := Neo.asig_units anasig in
  let time_units := simplified (Neo.units (Neo.asig_sampling_period anasig)) in
  let offset := Neo.magnitude (rescale (Neo.asig_t_start anasig) time_units) in
  let sampling_interval :=
    Neo.magnitude (rescale (Neo.asig_sampling_period anasig) time_units) in
  nix_data_arrays ← map_m (λ '(idx, sig),
      nix_data_array ← create_data_array parent_block
        (nix_name +:+ "." +:+ pretty idx) nix_type (Nix.Data1 sig);
      upd_ent nix_data_array (Nix.set_definition nix_definition);;
      upd_ent nix_data_array (Nix.set_unit (Some data_units));;
      timedim ← append_dimension nix_data_array
        (Nix.SampledDimension sampling_interval None None None);
      upd_dimension nix_data_array timedim (dim_set_unit time_units);;
      upd_dimension nix_data_array timedim (dim_set_label "time");;
      upd_dimension nix_data_array timedim (dim_set_offset offset);;
      chandim ← append_dimension nix_data_array (Nix.SetDimension []);
      data_arrays_append parent_group nix_data_array;;
      upd_ent nix_data_array (Nix.set_metadata (Some anasig_group_segment));;
      ret nix_data_array)
    (enumerate_from 0 (Neo.transpose (Neo.asig_signal anasig)));
  map_set (Neo.obj_id anasig) (MList nix_data_arrays);;
  ret nix_data_arrays.

Definition write_irregularlysampledsignal (irsig : Neo.IrregularlySampledSignal)
    (parent_path : listref) : M (list Nix.handle) :=
  parent_group ← _get_object_at parent_path;
  r0 ← list_first parent_path;
  parent_block ← _get_object_at r0;
  nix_name ← name_or (Neo.name irsig)
    (das ← data_arrays_of parent_block;
     pname ← name_of parent_block;
     ret (pname +:+ ".IrregularlySampledSignal" +:+ pretty (length das)));
  let nix_type := "neo.irregularlysampledsignal" in
  let nix_definition := Neo.description irsig in
  parent_metadata ← _get_or_init_metadata parent_group parent_path;
  irsig_group_segment ←
    create_section (Some parent_metadata) nix_name (nix_type +:+ ".metadata");
  when (truthy_str (Neo.file_origin irsig))
    (create_property irsig_group_segment "file_origin"
       [VString (default "" (Neo.file_origin irsig))]);;
  when (bool_decide (Neo.annotations irsig ≠ []))
    (_add_annotations (Neo.annotations irsig) irsig_group_segment);;
  let data_units := Neo.isig_units irsig in
  let time_units := Neo.array_units (Neo.isig_times irsig) in
  let times := Neo.magnitudes (Neo.isig_times irsig) in
  nix_data_arrays ← map_m (λ '(idx, sig),
      nix_data_array ← create_data_array parent_block
        (nix_name +:+ "." +:+ pretty idx) nix_type (Nix.Data1 sig);
      upd_ent nix_data_array (Nix.set_definition nix_definition);;
      upd_ent nix_data_array (Nix.set_unit (Some data_units));;
      timedim ← append_dimension nix_data_array
        (Nix.RangeDimension times None None);
      upd_dimension nix_data_array timedim (dim_set_unit time_units);;
      upd_dimension nix_data_array timedim (dim_set_label "time");;
      chandim ← append_dimension nix_data_array (Nix.SetDimension []);
      data_arrays_append parent_group nix_data_array;;
      upd_ent nix_data_array (Nix.set_metadata (Some irsig_group_segment));;
      ret nix_data_array)
    (enumerate_from 0 (Neo.transpose (Neo.isig_signal irsig)));
  map_set (Neo.obj_id irsig) (MList nix_data_arrays);;
  ret nix_data_arrays.

(** *** Epochs and events *)

Definition write_epoch (ep : Neo.Epoch) (parent_path : listref) : M Nix.handle :=
  parent_group ← _get_object_at parent_path;
  r0 ← list_first parent_path;
  parent_block ← _get_object_at r0;
  nix_name ← name_or (Neo.name ep)
    (mts ← multi_tags_of parent_group;
     pname ← name_of parent_group;
     ret (pname +:+ ".Epoch" +:+ pretty (length mts)));
  let nix_type := "neo.epoch" in
  let nix_definition := Neo.description ep in
  let times := Neo.magnitudes (Neo.ep_times ep) in
  let time_units := Neo.array_units (Neo.ep_times ep) in
  times_da ← create_data_array parent_block (nix_name +:+ ".times")
    "neo.epoch.times" (Nix.Data1 times);
  upd_ent times_da (Nix.set_unit (Some time_units));;
  let durations := Neo.magnitudes (Neo.ep_durations ep) in
  let duration_units := Neo.array_units (Neo.ep_durations ep) in
  durations_da ← create_data_array parent_block (nix_name +:+ ".durations")
    "neo.epoch.durations" (Nix.Data1 durations);
  upd_ent durations_da (Nix.set_unit (Some duration_units));;
  nix_multi_tag ← create_multi_tag parent_block nix_name nix_type times_da;
  label_dim ← append_dimension times_da (Nix.SetDimension []);
  upd_dimension times_da label_dim (dim_set_labels (Neo.ep_labels ep));;
  upd_ent nix_multi_tag (Nix.set_extents (Some durations_da));;
  multi_tags_append parent_group nix_multi_tag;;
  upd_ent nix_multi_tag (Nix.set_definition nix_definition);;
  object_path ← list_add parent_path [("multi_tag", nix_name)];
  map_set (Neo.obj_id ep) (MObj nix_multi_tag);;
  when (truthy_str (Neo.file_origin ep))
    (mtag_metadata ← _get_or_init_metadata (PEnt nix_multi_tag) object_path;
     create_property mtag_metadata "file_origin"
       [VString (default "" (Neo.file_origin ep))]);;
  _copy_annotations ep (PEnt nix_multi_tag) object_path;;
  sigs ← _get_contained_signals parent_group;
  references_extend nix_multi_tag sigs;;
  ret nix_multi_tag.

Definition write_event (ev : Neo.Event) (parent_path : listref) : M Nix.handle :=
  parent_group ← _get_object_at parent_path;
  r0 ← list_first parent_path;
  parent_block ← _get_object_at r0;
  nix_name ← name_or (Neo.name ev)
    (mts ← multi_tags_of parent_group;
     pname ← name_of parent_group;
     ret (pname +:+ ".Event" +:+ pretty (length mts)));
  let nix_type := "neo.event" in
  let nix_definition := Neo.description ev in
  let times := Neo.magnitudes (Neo.ev_times ev) in
  let time_units := Neo.array_units (Neo.ev_times ev) in
  times_da ← create_data_array parent_block (nix_name +:+ ".times")
    "neo.event.times" (Nix.Data1 times);
  upd_ent times_da (Nix.set_unit (Some time_units));;
  nix_multi_tag ← create_multi_tag parent_block nix_name nix_type times_da;
  label_dim ← append_dimension times_da (Nix.SetDimension []);
  upd_dimension times_da label_dim (dim_set_labels (Neo.ev_labels ev));;
  multi_tags_append parent_group nix_multi_tag;;
  upd_ent nix_multi_tag (Nix.set_definition nix_definition);;
  object_path ← list_add parent_path [("multi_tag", nix_name)];
  map_set (Neo.obj_id ev) (MObj nix_multi_tag);;
  when (truthy_str (Neo.file_origin ev))
    (mtag_metadata ← _get_or_init_metadata (PEnt nix_multi_tag) object_path;
     create_property mtag_metadata "file_origin"
       [VString (default "" (Neo.file_origin ev))]);;
  _copy_annotations ev (PEnt nix_multi_tag) object_path;;
  sigs ← _get_contained_signals parent_group;
  references_extend nix_multi_tag sigs;;
  ret nix_multi_tag.

(** *** Spike trains *)

Definition write_spiketrain (sptr : Neo.SpikeTrain) (parent_path : listref)
    : M Nix.handle :=
  parent_obj ← _get_object_at parent_path;
  r0 ← list_first parent_path;
  parent_block ← _get_object_at r0;
  nix_name ← name_or (Neo.name sptr)
    (mts ← multi_tags_of parent_block;
     pname ← name_of parent_block;
     ret (pname +:+ ".SpikeTrain" +:+ pretty (length mts)));
  let nix_type := "neo.spiketrain" in
  let nix_definition := Neo.description sptr in
  let time_units := Neo.array_units (Neo.sptr_times sptr) in
  let times := Neo.magnitudes (Neo.sptr_times sptr) in
  times_da ← create_data_array parent_block (nix_name +:+ ".times")
    "neo.epoch.times" (Nix.Data1 times);
  upd_ent times_da (Nix.set_unit (Some time_units));;
  nix_multi_tag ← create_multi_tag parent_block nix_name nix_type times_da;
  is_group ← isinstance parent_obj Nix.Group;
  (if is_group : bool then multi_tags_append parent_obj nix_multi_tag
   else
     is_source ← isinstance parent_obj Nix.Source;
     if is_source : bool then
       src ← as_entity parent_obj;
       sources_append (PEnt nix_multi_tag) src
     else ret tt);;
  upd_ent nix_multi_tag (Nix.set_definition nix_definition);;
  object_path ← list_add parent_path [("multi_tag", nix_name)];
  map_set (Neo.obj_id sptr) (MObj nix_multi_tag);;
  mtag_metadata ← _get_or_init_metadata (PEnt nix_multi_tag) object_path;
  _copy_annotations sptr (PEnt nix_multi_tag) object_path;;
  when (truthy_str (Neo.file_origin sptr))
    (create_property mtag_metadata "file_origin"
       [VString (default "" (Neo.file_origin sptr))]);;
  match Neo.sptr_t_start sptr with
  | Some q =>
      when (Neo.truthy_quantity (Some q))
        (let t_start := Neo.magnitude (rescale q time_units) in
         create_property mtag_metadata "t_start" [VNumber t_start])
  | None => ret tt
  end;;
  let t_stop := Neo.magnitude (rescale (Neo.sptr_t_stop sptr) time_units) in
  create_property mtag_metadata "t_stop" [VNumber t_stop];;
  match Neo.sptr_waveforms sptr with
  | None => ret tt
  | Some waveforms =>
      let wf_data := Neo.wf_magnitudes waveforms in
      let wf_name := nix_name +:+ ".waveforms" in
      waveforms_da ← create_data_array parent_block wf_name "neo.waveforms"
        (Nix.Data3 wf_data);
      let wf_unit := Neo.wf_units waveforms in
      upd_ent waveforms_da (Nix.set_unit (Some wf_unit));;
      create_feature nix_multi_tag waveforms_da Nix.Indexed;;
      let time_units := simplified (Neo.units (Neo.sptr_sampling_period sptr)) in
      let sampling_interval :=
        Neo.magnitude (rescale (Neo.sptr_sampling_period sptr) time_units) in
      wf_spikedim ← append_dimension waveforms_da (Nix.SetDimension []);
      wf_chandim ← append_dimension waveforms_da (Nix.SetDimension []);
      wf_timedim ← append_dimension waveforms_da
        (Nix.SampledDimension sampling_interval None None None);
      upd_dimension waveforms_da wf_timedim (dim_set_unit time_units);;
      upd_dimension waveforms_da wf_timedim (dim_set_label "time");;
      wf_path ← list_add object_path [("data_array", wf_name)];
      wf_metadata ← _get_or_init_metadata (PEnt waveforms_da) wf_path;
      upd_ent waveforms_da (Nix.set_metadata (Some wf_metadata));;
      match Neo.sptr_left_sweep sptr with
      | Some q =>
          when (Neo.truthy_quantity (Some q))
            (let left_sweep := Neo.magnitude (rescale q time_units) in
             md ← metadata_of (PEnt waveforms_da);
             match md with
             | Some md => create_property md "left_sweep" [VNumber left_sweep]
             | None => raise (AttributeError "create_property")
             end)
      | None => ret tt
      end
  end;;
  ret nix_multi_tag.

(** *** Units and channel groups *)

Definition write_unit (ut : Neo.Unit) (parent_path : listref) : M Nix.handle :=
  parent_source ← _get_object_at parent_path;
  nix_name ← name_or (Neo.name ut)
    (srcs ← sources_of parent_source;
     pname ← name_of parent_source;
     ret (pname +:+ ".Unit" +:+ pretty (length srcs)));
  let nix_type := "neo.unit" in
  let nix_definition := Neo.description ut in
  nix_source ← create_source parent_source nix_name nix_type;
  upd_ent nix_source (Nix.set_definition nix_definition);;
  object_path ← list_add parent_path [("source", nix_name)];
  map_set (Neo.obj_id ut) (MObj nix_source);;
  _copy_annotations ut (PEnt nix_source) object_path;;
  when (truthy_str (Neo.file_origin ut))
    (mtag_metadata ← _get_or_init_metadata (PEnt nix_source) object_path;
     create_property mtag_metadata "file_origin"
       [VString (default "" (Neo.file_origin ut))]);;
  nix_sts ← _get_mapped_objects (Neo.sptr_base <$> Neo.ut_spiketrains ut);
  for_each nix_sts (λ nix_st,
    match nix_st with
    | MObj nix_st =>
        src ← as_entity parent_source;
        sources_append (PEnt nix_st) src;;
        sources_append (PEnt nix_st) nix_source
    | MList _ => raise (AttributeError "sources")
    end);;
  ret nix_source.

(** The loop body of [write_recordingchannelgroup] over the channels. *)
Definition write_channel (rcg : Neo.RecordingChannelGroup) (nix_source : Nix.handle)
    (nix_name : string) (object_path : listref) (idx : nat) : M unit :=
  nix_chan_name ←
    (if bool_decide (length (Neo.channel_names rcg) ≠ 0) then
       match Neo.channel_names rcg !! idx with
       | Some n => ret n
       | None => raise (IndexError "index out of bounds")
       end
     else ret (nix_name +:+ "." +:+ pretty idx));
  let nix_chan_type := "neo.recordingchannel" in
  nix_chan ← create_source (PEnt nix_source) nix_chan_name nix_chan_type;
  upd_ent nix_chan (Nix.set_definition (Neo.description rcg));;
  chan_obj_path ← list_add object_path [("source", nix_chan_name)];
  when (truthy_str (Neo.file_origin rcg))
    (chan_metadata ← _get_or_init_metadata (PEnt nix_chan) chan_obj_path;
     create_property chan_metadata "file_origin"
       [VString (default "" (Neo.file_origin rcg))]);;
  match Neo.coordinates rcg with
  | None => ret tt
  | Some coordinates =>
      match coordinates !! idx with
      | None => raise (IndexError "list index out of range")
      | Some chan_coords =>
          chan_metadata ← _get_or_init_metadata (PEnt nix_chan) chan_obj_path;
          let nix_coord_values := (λ c, VNumber (Neo.magnitude c)) <$> chan_coords in
          let nix_coord_units := (λ c, VString (Neo.units c)) <$> chan_coords in
          create_property chan_metadata "coordinates" nix_coord_values;;
          create_property chan_metadata "coordinates.units" nix_coord_units
      end
  end.

(** [for da in mapped: da.sources.append(nix_source)] for each mapped signal. *)
Definition link_signals (mapped : list Mapped) (nix_source : Nix.handle) : M unit :=
  for_each mapped (λ nix_sigs,
    match nix_sigs with
    | MList das =>
        for_each das (λ da, sources_append (PEnt da) nix_source)
    | MObj _ => raise (TypeError "object is not iterable")
    end).

Definition write_recordingchannelgroup (rcg : Neo.RecordingChannelGroup)
    (parent_path : listref) : M Nix.handle :=
  parent_block ← _get_object_at parent_path;
  nix_name ← name_or (Neo.name rcg)
    (srcs ← sources_of parent_block;
     pname ← name_of parent_block;
     ret (pname +:+ ".RecordingChannelGroup" +:+ pretty (length srcs)));
  let nix_type := "neo.recordingchannelgroup" in
  let nix_definition := Neo.description rcg in
  nix_source ← create_source parent_block nix_name nix_type;
  upd_ent nix_source (Nix.set_definition nix_definition);;
  object_path ← list_add parent_path [("source", nix_name)];
  map_set (Neo.obj_id rcg) (MObj nix_source);;
  when (truthy_str (Neo.file_origin rcg))
    (source_metadata ← _get_or_init_metadata (PEnt nix_source) object_path;
     create_property source_metadata "file_origin"
       [VString (default "" (Neo.file_origin rcg))]);;
  _copy_annotations rcg (PEnt nix_source) object_path;;
  for_each (enumerate_from 0 (Neo.channel_indexes rcg)) (λ '(idx, channel),
    write_channel rcg nix_source nix_name object_path idx);;
  for_each (Neo.rcg_units rcg) (λ unit,
    _ ← write_unit unit object_path; ret tt);;
  nix_asigs ← _get_mapped_objects (Neo.asig_base <$> Neo.rcg_analogsignals rcg);
  link_signals nix_asigs nix_source;;
  nix_isigs ← _get_mapped_objects
    (Neo.isig_base <$> Neo.rcg_irregularlysampledsignals rcg);
  link_signals nix_isigs nix_source;;
  ret nix_source.

(** *** Segments and blocks *)

Definition write_segment (segment : Neo.Segment) (parent_path : listref)
    : M Nix.handle :=
  parent_block ← _get_object_at parent_path;
  nix_name ← name_or (Neo.name segment)
    (gs ← groups_of parent_block;
     pname ← name_of parent_block;
     ret (pname +:+ ".Segment" +:+ pretty (length gs)));
  let nix_type := "neo.segment" in
  let nix_definition := Neo.description segment in
  nix_group ← create_group parent_block nix_name nix_type;
  upd_ent nix_group (Nix.set_definition nix_definition);;
  object_path ← list_add parent_path [("group", nix_name)];
  map_set (Neo.obj_id segment) (MObj nix_group);;
  match Neo.seg_rec_datetime segment with
  | Some dt => upd_ent nix_group (Nix.set_created_at (Some (calculate_timestamp dt)))
  | None => ret tt
  end;;
  match Neo.seg_file_datetime segment with
  | Some dt =>
      group_metadata ← _get_or_init_metadata (PEnt nix_group) object_path;
      create_property group_metadata "file_datetime"
        [VInteger (calculate_timestamp dt)]
  | None => ret tt
  end;;
  when (truthy_str (Neo.file_origin segment))
    (group_metadata ← _get_or_init_metadata (PEnt nix_group) object_path;
     create_property group_metadata "file_origin"
       [VString (default "" (Neo.file_origin segment))]);;
  _copy_annotations segment (PEnt nix_group) object_path;;
  for_each (Neo.analogsignals segment) (λ anasig,
    _ ← write_analogsignal anasig object_path; ret tt);;
  for_each (Neo.irregularlysampledsignals segment) (λ irsig,
    _ ← write_irregularlysampledsignal irsig object_path; ret tt);;
  for_each (Neo.epochs segment) (λ ep,
    _ ← write_epoch ep object_path; ret tt);;
  for_each (Neo.events segment) (λ ev,
    _ ← write_event ev object_path; ret tt);;
  for_each (Neo.spiketrains segment) (λ sptr,
    _ ← write_spiketrain sptr object_path; ret tt);;
  ret nix_group.

Definition write_block (neo_block : Neo.Block) : M Nix.handle :=
  nix_name ← name_or (Neo.name neo_block)
    (nblocks ← gets (λ st, length (blocks st));
     ret ("neo.Block" +:+ pretty nblocks));
  let nix_type := "neo.block" in
  let nix_definition := Neo.description neo_block in
  nix_block ← create_block nix_name nix_type;
  upd_ent nix_block (Nix.set_definition nix_definition);;
  object_path ← new_list [("block", nix_name)];
  map_set (Neo.obj_id neo_block) (MObj nix_block);;
  match Neo.blk_rec_datetime neo_block with
  | Some dt => upd_ent nix_block (Nix.set_created_at (Some (calculate_timestamp dt)))
  | None => ret tt
  end;;
  match Neo.blk_file_datetime neo_block with
  | Some dt =>
      block_metadata ← _get_or_init_metadata (PEnt nix_block) default_obj_path;
      create_property block_metadata "file_datetime"
        [VInteger (calculate_timestamp dt)]
  | None => ret tt
  end;;
  when (truthy_str (Neo.file_origin neo_block))
    (block_metadata ← _get_or_init_metadata (PEnt nix_block) default_obj_path;
     create_property block_metadata "file_origin"
       [VString (default "" (Neo.file_origin neo_block))]);;
  _copy_annotations neo_block (PEnt nix_block) object_path;;
  for_each (Neo.segments neo_block) (λ segment,
    _ ← write_segment segment object_path; ret tt);;
  for_each (Neo.recordingchannelgroups neo_block) (λ rcg,
    _ ← write_recordingchannelgroup rcg object_path; ret tt);;
  ret nix_block.

Definition write_all_blocks (neo_blocks : list Neo.Block) : M (list Nix.handle) :=
  map_m write_block neo_blocks.

End Writer.

(** ** Vocabulary for the statements *)

(** What a run leaves behind, and what it returns. *)
Definition final {A} (m : M A) (st : State) : State := (m st).1.
Definition outcome {A} (m : M A) (st : State) : Result A := (m st).2.

(** The metadata section attached to what a variable is bound to. *)
Definition metadata_at (st : State) (o : PyObj) : option Nix.sec_handle :=
  match o with
  | PEnt h => e ← entities st !! h; Nix.metadata e
  | _ => None
  end.

(** Whatever the writer does to an entity that exists, its kind, name,
    type, data and positions stay, and its collections are only appended
    to.  Sections keep their name, type and parent and only gain
    properties. *)
Record ent_grows (e e' : Nix.Entity) : Prop := {
  eg_kind : Nix.kind e' = Nix.kind e;
  eg_name : Nix.name e' = Nix.name e;
  eg_type : Nix.type e' = Nix.type e;
  eg_data : Nix.data e' = Nix.data e;
  eg_positions : Nix.positions e' = Nix.positions e;
  eg_groups : Nix.groups e `prefix_of` Nix.groups e';
  eg_sources : Nix.sources e `prefix_of` Nix.sources e';
  eg_data_arrays : Nix.data_arrays e `prefix_of` Nix.data_arrays e';
  eg_multi_tags : Nix.multi_tags e `prefix_of` Nix.multi_tags e';
  eg_references : Nix.references e `prefix_of` Nix.references e';
  eg_features : Nix.features e `prefix_of` Nix.features e';
}.

Record sec_grows (s s' : Nix.Section) : Prop := {
  sg_name : Nix.sec_name s' = Nix.sec_name s;
  sg_type : Nix.sec_type s' = Nix.sec_type s;
  sg_parent : Nix.sec_parent s' = Nix.sec_parent s;
  sg_props : Nix.props s `prefix_of` Nix.props s';
}.

(** One step, or many, of the store: every entity that exists is related
    to its later self by [P]; sections grow; blocks and path lists are only
    added; the identity table changes at keys in [K] only. *)
Record evolves (P : Nix.Entity → Nix.Entity → Prop) (K : pyid → Prop)
    (st st' : State) : Prop := {
  ev_entities : ∀ h e, entities st !! h = Some e →
    ∃ e', entities st' !! h = Some e' ∧ P e e';
  ev_sections : ∀ s sec, sections st !! s = Some sec →
    ∃ sec', sections st' !! s = Some sec' ∧ sec_grows sec sec';
  ev_blocks : blocks st `prefix_of` blocks st';
  ev_map : ∀ k, ¬ K k → neo_nix_map st' !! k = neo_nix_map st !! k;
  ev_lists : py_lists st `prefix_of` py_lists st';
}.

Definition grows : State → State → Prop := evolves ent_grows (λ _, True).

(** An update of one entity that [P] allows. *)
Definition update_ok (P : Nix.Entity → Nix.Entity → Prop)
    (f : Nix.Entity → Nix.Entity) : Prop :=
  ∀ e, P e (f e).

(** A computation every run of which, failed or not, relates the state it
    starts from to the state it leaves. *)
Definition respects (R : State → State → Prop) {A} (m : M A) : Prop :=
  ∀ st, R st (final m st).

(** Partial correctness: what holds of the result and the final state when
    the run returns. *)
Definition wp {A} (m : M A) (Q : A → State → Prop) (st : State) : Prop :=
  match m st with
  | (st', Ok a) => Q a st'
  | (_, Raise _) => True
  end.

(** The conversion routines that take a parent path, by name. *)
Inductive routine :=
| WriteSegment (segment : Neo.Segment)
| WriteRecordingChannelGroup (rcg : Neo.RecordingChannelGroup)
| WriteAnalogSignal (anasig : Neo.AnalogSignal)
| WriteIrregularlySampledSignal (irsig : Neo.IrregularlySampledSignal)
| WriteEpoch (ep : Neo.Epoch)
| WriteEvent (ev : Neo.Event)
| WriteSpikeTrain (sptr : Neo.SpikeTrain)
| WriteUnit (ut : Neo.Unit).

Definition call {libs : Libraries} (r : routine) (parent_path : listref) : M unit :=
  match r with
  | WriteSegment x => write_segment x parent_path ;; ret tt
  | WriteRecordingChannelGroup x => write_recordingchannelgroup x parent_path ;; ret tt
  | WriteAnalogSignal x => write_analogsignal x parent_path ;; ret tt
  | WriteIrregularlySampledSignal x =>
      write_irregularlysampledsignal x parent_path ;; ret tt
  | WriteEpoch x => write_epoch x parent_path ;; ret tt
  | WriteEvent x => write_event x parent_path ;; ret tt
  | WriteSpikeTrain x => write_spiketrain x parent_path ;; ret tt
  | WriteUnit x => write_unit x parent_path ;; ret tt
  end.

(** A Unit with the same attributes and no spike trains: writing it does
    everything [write_unit] does before it wires the spike trains. *)
Definition unit_without_spiketrains (ut : Neo.Unit) : Neo.Unit :=
  Neo.Build_Unit (Neo.ut_base ut) [].


(** The entity [e] was just created, at the fresh handle [h]. *)
Definition created (e : Nix.Entity) (st : State) (h : Nix.handle) (st' : State)
    : Prop :=
  h = length (entities st) ∧
  length (entities st) < length (entities st') ∧
  entities st' !! h = Some e.


(** The MultiTag [mt] is anchored to a positions array of type
    [neo.epoch.times] called after it. *)
Definition positions_are_epoch_times (mt : Nix.handle) (st' : State) : Prop :=
  ∃ e tda te,
    entities st' !! mt = Some e ∧
    Nix.kind e = Nix.MultiTag ∧
    Nix.positions e = Some tda ∧
    entities st' !! tda = Some te ∧
    Nix.kind te = Nix.DataArray ∧
    Nix.name te = Nix.name e +:+ ".times" ∧
    Nix.type te = "neo.epoch.times".


(** Running [m'] from [ρ st] is running [m] from [st], up to [ρ]. *)
Definition commutes (ρ : State → State) {A} (m m' : M A) : Prop :=
  ∀ st, m' (ρ st) = (ρ (final m st), outcome m st).

(** The same tree at other addresses: every [id(obj)] goes through [f]. *)
Definition rename_base (f : pyid → pyid) (b : Neo.Base) : Neo.Base :=
  Neo.Build_Base (f (Neo.obj_id b)) (Neo.name b) (Neo.description b)
    (Neo.file_origin b) (Neo.annotations b).

Definition rename_analogsignal (f : pyid → pyid) (x : Neo.AnalogSignal)
    : Neo.AnalogSignal :=
  Neo.Build_AnalogSignal (rename_base f x) (Neo.asig_signal x) (Neo.asig_units x)
    (Neo.asig_sampling_period x) (Neo.asig_t_start x).

Definition rename_irregularlysampledsignal (f : pyid → pyid)
    (x : Neo.IrregularlySampledSignal) : Neo.IrregularlySampledSignal :=
  Neo.Build_IrregularlySampledSignal (rename_base f x) (Neo.isig_signal x)
    (Neo.isig_units x) (Neo.isig_times x).

Definition rename_epoch (f : pyid → pyid) (x : Neo.Epoch) : Neo.Epoch :=
  Neo.Build_Epoch (rename_base f x) (Neo.ep_times x) (Neo.ep_durations x)
    (Neo.ep_labels x).

Definition rename_event (f : pyid → pyid) (x : Neo.Event) : Neo.Event :=
  Neo.Build_Event (rename_base f x) (Neo.ev_times x) (Neo.ev_labels x).

Definition rename_spiketrain (f : pyid → pyid) (x : Neo.SpikeTrain)
    : Neo.SpikeTrain :=
  Neo.Build_SpikeTrain (rename_base f x) (Neo.sptr_times x) (Neo.sptr_t_start x)
    (Neo.sptr_t_stop x) (Neo.sptr_waveforms x) (Neo.sptr_sampling_period x)
    (Neo.sptr_left_sweep x).

Definition rename_unit (f : pyid → pyid) (x : Neo.Unit) : Neo.Unit :=
  Neo.Build_Unit (rename_base f x) (rename_spiketrain f <$> Neo.ut_spiketrains x).

Definition rename_recordingchannelgroup (f : pyid → pyid)
    (x : Neo.RecordingChannelGroup) : Neo.RecordingChannelGroup :=
  Neo.Build_RecordingChannelGroup (rename_base f x) (Neo.channel_indexes x)
    (Neo.channel_names x) (Neo.coordinates x)
    (rename_unit f <$> Neo.rcg_units x)
    (rename_analogsignal f <$> Neo.rcg_analogsignals x)
    (rename_irregularlysampledsignal f <$> Neo.rcg_irregularlysampledsignals x).

Definition rename_segment (f : pyid → pyid) (x : Neo.Segment) : Neo.Segment :=
  Neo.Build_Segment (rename_base f x) (Neo.seg_rec_datetime x)
    (Neo.seg_file_datetime x)
    (rename_analogsignal f <$> Neo.analogsignals x)
    (rename_irregularlysampledsignal f <$> Neo.irregularlysampledsignals x)
    (rename_epoch f <$> Neo.epochs x)
    (rename_event f <$> Neo.events x)
    (rename_spiketrain f <$> Neo.spiketrains x).

Definition rename_block (f : pyid → pyid) (x : Neo.Block) : Neo.Block :=
  Neo.Build_Block (rename_base f x) (Neo.blk_rec_datetime x)
    (Neo.blk_file_datetime x)
    (rename_segment f <$> Neo.segments x)
    (rename_recordingchannelgroup f <$> Neo.recordingchannelgroups x).

(** The identity table with its keys sent through [f]. *)
Definition rename_map (f : pyid → pyid) (st : State) : State :=
  set_neo_nix_map (kmap f (neo_nix_map st)) st.

(** What [_get_or_init_metadata nix_obj obj_path], started in [st], has
    done when it returns the section [s] in [st']: the object carries [s];
    if it carried a section before, that is [s] and nothing changed;
    otherwise [s] is a new section, named after the object, placed under
    the file when the path has at most one step, and else under a section
    that the object at [obj_path[:-1]] now carries. *)
Definition ensured (nix_obj : PyObj) (obj_path : listref) (st : State)
    (s : Nix.sec_handle) (st' : State) : Prop :=
  metadata_at st' nix_obj = Some s ∧
  match metadata_at st nix_obj with
  | Some s0 => s = s0 ∧ st' = st
  | None =>
      sections st !! s = None ∧
      ∃ p sec h e,
        py_lists st !! obj_path = Some p ∧
        sections st' !! s = Some sec ∧
        nix_obj = PEnt h ∧ entities st' !! h = Some e ∧
        Nix.sec_name sec = Nix.name e ∧
        Nix.sec_type sec = Nix.type e +:+ ".metadata" ∧
        if bool_decide (length p ≤ 1) then Nix.sec_parent sec = None
        else ∃ obj_parent pm,
          walk PFile (removelast p) st = (st, Ok obj_parent) ∧
          Nix.sec_parent sec = Some pm ∧
          (obj_parent ≠ nix_obj → metadata_at st' obj_parent = Some pm)
  end.

(** The two kinds of signal, whose writers differ in the time dimension
    only. *)
Inductive signal :=
| Analog (anasig : Neo.AnalogSignal)
| Irregular (irsig : Neo.IrregularlySampledSignal).

Definition write_signal {libs : Libraries} (sig : signal)
    : listref → M (list Nix.handle) :=
  match sig with
  | Analog anasig => write_analogsignal anasig
  | Irregular irsig => write_irregularlysampledsignal irsig
  end.

Definition signal_base (sig : signal) : Neo.Base :=
  match sig with
  | Analog anasig => anasig
  | Irregular irsig => irsig
  end.

Definition signal_array (sig : signal) : Neo.Array2 :=
  match sig with
  | Analog anasig => Neo.asig_signal anasig
  | Irregular irsig => Neo.isig_signal irsig
  end.

Definition signal_type (sig : signal) : string :=
  match sig with
  | Analog _ => "neo.analogsignal"
  | Irregular _ => "neo.irregularlysampledsignal"
  end.

(** An entity has grown and points to the metadata section it pointed to. *)
Definition md_same (e e' : Nix.Entity) : Prop :=
  ent_grows e e' ∧ Nix.metadata e' = Nix.metadata e.

(** No entity was created. *)
Definition same_size (st st' : State) : Prop :=
  length (entities st') = length (entities st).

Definition sized (R : State → State → Prop) (st st' : State) : Prop :=
  R st st' ∧ same_size st st'.

(** The arrays [das] are the entities created between [st] and [st'], in
    this order; the one at position [i] is a DataArray named
    [<nm>.<k+i>] of type [ty] whose metadata is the section [seg]; what
    existed in [st] has kept its metadata. *)
Definition channels_written (nm ty : string) (seg : Nix.sec_handle) (k : nat)
    (st : State) (das : list Nix.handle) (st' : State) : Prop :=
  das = seq (length (entities st)) (length das) ∧
  length (entities st') = length (entities st) + length das ∧
  evolves md_same (λ _, True) st st' ∧
  ∀ i da, das !! i = Some da →
    ∃ e, entities st' !! da = Some e ∧
      Nix.kind e = Nix.DataArray ∧
      Nix.name e = nm +:+ "." +:+ pretty (k + i) ∧
      Nix.type e = ty ∧
      Nix.metadata e = Some seg.

(** What writing a signal under the group at [parent_path] leaves: one
    new DataArray per column, and one new section, under the metadata of
    the group, that all of them point to. *)
Definition signal_written (sig : signal) (parent_path : listref) (st : State)
    (das : list Nix.handle) (st' : State) : Prop :=
  das = seq (length (entities st)) (Neo.ncols (signal_array sig)) ∧
  length (entities st') = length (entities st) + Neo.ncols (signal_array sig) ∧
  ∃ parent_group parent_metadata seg sec,
    _get_object_at parent_path st = (st, Ok parent_group) ∧
    metadata_at st' parent_group = Some parent_metadata ∧
    length (sections st) ≤ seg ∧
    sections st' !! seg = Some sec ∧
    Nix.sec_parent sec = Some parent_metadata ∧
    Nix.sec_type sec = signal_type sig +:+ ".metadata" ∧
    (truthy_str (Neo.name (signal_base sig)) = true →
       Nix.sec_name sec = default "" (Neo.name (signal_base sig))) ∧
    ∀ idx da, das !! idx = Some da →
      ∃ e, entities st' !! da = Some e ∧
        Nix.kind e = Nix.DataArray ∧
        Nix.name e = Nix.sec_name sec +:+ "." +:+ pretty idx ∧
        Nix.type e = signal_type sig ∧
        Nix.metadata e = Some seg.

(** The mapped object [v] is a MultiTag whose sources hold the parent
    source and [nix_source]. *)
Definition wired (parent_source : PyObj) (nix_source : Nix.handle) (st : State)
    (v : Mapped) : Prop :=
  ∃ mt e src, v = MObj mt ∧ parent_source = PEnt src ∧
    entities st !! mt = Some e ∧ src ∈ Nix.sources e ∧ nix_source ∈ Nix.sources e.

(** *** Names *)

(** A conversion of one entity: that of a block, or one of the routines
    that take a parent path.  It returns the sink objects made for the
    entity itself. *)
Inductive conversion :=
| OfBlock (neo_block : Neo.Block)
| Under (r : routine) (parent_path : listref).

Definition convert {libs : Libraries} (c : conversion) : M (list Nix.handle) :=
  match c with
  | OfBlock x => h ← write_block x; ret [h]
  | Under (WriteSegment x) p => h ← write_segment x p; ret [h]
  | Under (WriteRecordingChannelGroup x) p =>
      h ← write_recordingchannelgroup x p; ret [h]
  | Under (WriteAnalogSignal x) p => write_analogsignal x p
  | Under (WriteIrregularlySampledSignal x) p =>
      write_irregularlysampledsignal x p
  | Under (WriteEpoch x) p => h ← write_epoch x p; ret [h]
  | Under (WriteEvent x) p => h ← write_event x p; ret [h]
  | Under (WriteSpikeTrain x) p => h ← write_spiketrain x p; ret [h]
  | Under (WriteUnit x) p => h ← write_unit x p; ret [h]
  end.

Definition explicit_name (c : conversion) : option string :=
  match c with
  | OfBlock x => Neo.name x
  | Under (WriteSegment x) _ => Neo.name x
  | Under (WriteRecordingChannelGroup x) _ => Neo.name x
  | Under (WriteAnalogSignal x) _ => Neo.name x
  | Under (WriteIrregularlySampledSignal x) _ => Neo.name x
  | Under (WriteEpoch x) _ => Neo.name x
  | Under (WriteEvent x) _ => Neo.name x
  | Under (WriteSpikeTrain x) _ => Neo.name x
  | Under (WriteUnit x) _ => Neo.name x
  end.

(** The tag each routine puts into the name of an unnamed entity, the
    object whose name comes first, and the collection of that object
    whose length comes last. *)
Definition kind_tag (r : routine) : string :=
  match r with
  | WriteSegment _ => "Segment"
  | WriteRecordingChannelGroup _ => "RecordingChannelGroup"
  | WriteAnalogSignal _ => "AnalogSignal"
  | WriteIrregularlySampledSignal _ => "IrregularlySampledSignal"
  | WriteEpoch _ => "Epoch"
  | WriteEvent _ => "Event"
  | WriteSpikeTrain _ => "SpikeTrain"
  | WriteUnit _ => "Unit"
  end.

Inductive name_source := ParentObject | EnclosingBlock.

Definition named_after (r : routine) : name_source :=
  match r with
  | WriteSegment _ => ParentObject
  | WriteRecordingChannelGroup _ => ParentObject
  | WriteAnalogSignal _ => EnclosingBlock
  | WriteIrregularlySampledSignal _ => EnclosingBlock
  | WriteEpoch _ => ParentObject
  | WriteEvent _ => ParentObject
  | WriteSpikeTrain _ => EnclosingBlock
  | WriteUnit _ => ParentObject
  end.

Definition counted (r : routine) : Nix.Entity → list Nix.handle :=
  match r with
  | WriteSegment _ => Nix.groups
  | WriteRecordingChannelGroup _ => Nix.sources
  | WriteAnalogSignal _ => Nix.data_arrays
  | WriteIrregularlySampledSignal _ => Nix.data_arrays
  | WriteEpoch _ => Nix.multi_tags
  | WriteEvent _ => Nix.multi_tags
  | WriteSpikeTrain _ => Nix.multi_tags
  | WriteUnit _ => Nix.sources
  end.

(** The specification's wording of the rule: always the structural parent,
    the object at the parent path. *)
Definition spec_named_after (r : routine) : name_source := ParentObject.

(** [nm] is ["<name>.<KindTag><count>"], the name and the count read in
    [st] from the object that [from] designates. *)
Definition synthesized_name (from : routine → name_source) (r : routine)
    (parent_path : listref) (st : State) (nm : string) : Prop :=
  ∃ p h pe,
    py_lists st !! parent_path = Some p ∧
    walk PFile (match from r with
                | ParentObject => p
                | EnclosingBlock => take 1 p
                end) st = (st, Ok (PEnt h)) ∧
    entities st !! h = Some pe ∧
    nm = Nix.name pe +:+ "." +:+ kind_tag r +:+ pretty (length (counted r pe)).

Definition sink_name (from : routine → name_source) (c : conversion)
    (st : State) (nm : string) : Prop :=
  if truthy_str (explicit_name c) then nm = default "" (explicit_name c)
  else match c with
       | OfBlock _ => nm = "neo.Block" +:+ pretty (length (blocks st))
       | Under r parent_path => synthesized_name from r parent_path st nm
       end.

(** The objects returned carry the name [nm]; the arrays of a signal carry
    it followed by their index. *)
Definition named (h : Nix.handle) (st' : State) (nm : string) : Prop :=
  ∃ e, entities st' !! h = Some e ∧ Nix.name e = nm.

Definition result_named (c : conversion) (hs : list Nix.handle) (st' : State)
    (nm : string) : Prop :=
  match c with
  | Under (WriteAnalogSignal _) _ | Under (WriteIrregularlySampledSignal _) _ =>
      ∀ idx da, hs !! idx = Some da → named da st' (nm +:+ "." +:+ pretty idx)
  | _ => ∃ h, hs = [h] ∧ named h st' nm
  end.

(** *** The identity table *)

(** The routines that write their own entity and nothing below it. *)
Definition is_leaf (r : routine) : bool :=
  match r with
  | WriteSegment _ | WriteRecordingChannelGroup _ => false
  | _ => true
  end.

Definition entity_of (r : routine) : Neo.Base :=
  match r with
  | WriteSegment x => x
  | WriteRecordingChannelGroup x => x
  | WriteAnalogSignal x => x
  | WriteIrregularlySampledSignal x => x
  | WriteEpoch x => x
  | WriteEvent x => x
  | WriteSpikeTrain x => x
  | WriteUnit x => x
  end.

(** What the table holds for an entity whose conversion returned [hs]: the
    list of the arrays of a signal, the one object otherwise. *)
Definition recorded (r : routine) (hs : list Nix.handle) (v : Mapped) : Prop :=
  match r with
  | WriteAnalogSignal _ | WriteIrregularlySampledSignal _ => v = MList hs
  | _ => ∃ h, hs = [h] ∧ v = MObj h
  end.

(** No block was added to the file. *)
Definition blocks_kept (st st' : State) : Prop := blocks st' = blocks st.

(** The mapped object [v] is a list of arrays, each of which exists and
    counts [nix_source] among its sources. *)
Definition linked (nix_source : Nix.handle) (st : State) (v : Mapped) : Prop :=
  ∃ das, v = MList das ∧
    ∀ da, da ∈ das → ∃ e, entities st !! da = Some e ∧ nix_source ∈ Nix.sources e.

(** *** What happens to an object that exists *)

(** An entity as a conversion may leave it: it has grown, it has the
    definition, unit, time of creation, dimensions, extents and link type
    it had, and the metadata section it had, if it had one. *)
Record kept (e e' : Nix.Entity) : Prop := {
  kp_grows : ent_grows e e';
  kp_definition : Nix.definition e' = Nix.definition e;
  kp_unit : Nix.da_unit e' = Nix.da_unit e;
  kp_created_at : Nix.created_at e' = Nix.created_at e;
  kp_dimensions : Nix.dimensions e' = Nix.dimensions e;
  kp_extents : Nix.extents e' = Nix.extents e;
  kp_link_type : Nix.link_type e' = Nix.link_type e;
  kp_metadata : ∀ s, Nix.metadata e = Some s → Nix.metadata e' = Some s;
}.

Definition settled : State → State → Prop := evolves kept (λ _, True).

(** A computation that, when it returns, has left what existed settled. *)
Definition settles {A} (m : M A) : Prop :=
  ∀ st, wp m (λ _ st', settled st st') st.

(** *** What the metadata holds *)

(** The section [s] holds the property [k] with the values [v]. *)
Definition section_holds (s : Nix.sec_handle) (k : string) (v : list Value)
    (st : State) : Prop :=
  ∃ sec, sections st !! s = Some sec ∧ (k, v) ∈ Nix.props sec.

(** The metadata section of [o] holds the property [k] with the values [v]. *)
Definition holds (o : PyObj) (k : string) (v : list Value) (st : State) : Prop :=
  ∃ s, metadata_at st o = Some s ∧ section_holds s k v st.

Definition base_of (c : conversion) : Neo.Base :=
  match c with
  | OfBlock x => x
  | Under r _ => entity_of r
  end.

Definition file_datetime_of (c : conversion) : option Neo.datetime :=
  match c with
  | OfBlock x => Neo.blk_file_datetime x
  | Under (WriteSegment x) _ => Neo.seg_file_datetime x
  | _ => None
  end.

(** The attributes of the entity that go to the metadata of its sink
    object [h]: the file of origin, when there is one, every annotation,
    and the date of the file, for a Block or a Segment that has one. *)
Definition described {libs : Libraries} (c : conversion) (h : Nix.handle)
    (st' : State) : Prop :=
  (truthy_str (Neo.file_origin (base_of c)) = true →
     holds (PEnt h) "file_origin"
       [VString (default "" (Neo.file_origin (base_of c)))] st') ∧
  (∀ k v, (k, v) ∈ Neo.annotations (base_of c) → holds (PEnt h) k [v] st') ∧
  (∀ dt, file_datetime_of c = Some dt →
     holds (PEnt h) "file_datetime" [VInteger (calculate_timestamp dt)] st').

(** The bounds of a spike train in the metadata of its MultiTag [h], in the
    units of its times. *)
Definition bounds_stored {libs : Libraries} (sptr : Neo.SpikeTrain)
    (h : Nix.handle) (st' : State) : Prop :=
  let time_units := Neo.array_units (Neo.sptr_times sptr) in
  holds (PEnt h) "t_stop"
    [VNumber (Neo.magnitude (rescale (Neo.sptr_t_stop sptr) time_units))] st' ∧
  ∀ q, Neo.sptr_t_start sptr = Some q → Neo.truthy_quantity (Some q) = true →
    holds (PEnt h) "t_start"
      [VNumber (Neo.magnitude (rescale q time_units))] st'.

(** *** The objects a routine makes *)

(** The entity at [h] is [e0], but for what was appended to its
    collections since, and for a metadata section it received when [e0]
    has none. *)
Definition stands (e0 : Nix.Entity) (h : Nix.handle) (st : State) : Prop :=
  ∃ e, entities st !! h = Some e ∧ kept e0 e.

(** The kind and the type of the object each conversion returns. *)
Definition sink_kind (c : conversion) : Nix.Kind :=
  match c with
  | OfBlock _ => Nix.Block
  | Under (WriteSegment _) _ => Nix.Group
  | Under (WriteRecordingChannelGroup _) _ => Nix.Source
  | Under (WriteAnalogSignal _) _ => Nix.DataArray
  | Under (WriteIrregularlySampledSignal _) _ => Nix.DataArray
  | Under (WriteEpoch _) _ => Nix.MultiTag
  | Under (WriteEvent _) _ => Nix.MultiTag
  | Under (WriteSpikeTrain _) _ => Nix.MultiTag
  | Under (WriteUnit _) _ => Nix.Source
  end.

Definition sink_type (c : conversion) : string :=
  match c with
  | OfBlock _ => "neo.block"
  | Under (WriteSegment _) _ => "neo.segment"
  | Under (WriteRecordingChannelGroup _) _ => "neo.recordingchannelgroup"
  | Under (WriteAnalogSignal _) _ => "neo.analogsignal"
  | Under (WriteIrregularlySampledSignal _) _ => "neo.irregularlysampledsignal"
  | Under (WriteEpoch _) _ => "neo.epoch"
  | Under (WriteEvent _) _ => "neo.event"
  | Under (WriteSpikeTrain _) _ => "neo.spiketrain"
  | Under (WriteUnit _) _ => "neo.unit"
  end.

Definition rec_datetime_of (c : conversion) : option Neo.datetime :=
  match c with
  | OfBlock x => Neo.blk_rec_datetime x
  | Under (WriteSegment x) _ => Neo.seg_rec_datetime x
  | _ => None
  end.

(** The object [h] a conversion returned: its kind and type are those of
    the conversion, its definition is the description of the entity, and
    its time of creation is written only for a Block or a Segment that has
    a date of recording. *)
Definition shaped {libs : Libraries} (c : conversion) (h : Nix.handle)
    (st' : State) : Prop :=
  ∃ e, entities st' !! h = Some e ∧
    Nix.kind e = sink_kind c ∧
    Nix.type e = sink_type c ∧
    Nix.definition e = Neo.description (base_of c) ∧
    Nix.created_at e = calculate_timestamp <$> rec_datetime_of c.

(** *** The arrays of a signal *)

Definition signal_units (sig : signal) : string :=
  match sig with
  | Analog anasig => Neo.asig_units anasig
  | Irregular irsig => Neo.isig_units irsig
  end.

(** The dimension of time of the arrays of a signal: sampled, from the
    start of the signal and by its sampling period, for an AnalogSignal;
    the times themselves for an IrregularlySampledSignal. *)
Definition time_dimension {libs : Libraries} (sig : signal) : Nix.Dimension :=
  match sig with
  | Analog anasig =>
      let time_units := simplified (Neo.units (Neo.asig_sampling_period anasig)) in
      Nix.SampledDimension
        (Neo.magnitude (rescale (Neo.asig_sampling_period anasig) time_units))
        (Some time_units) (Some "time")
        (Some (Neo.magnitude (rescale (Neo.asig_t_start anasig) time_units)))
  | Irregular irsig =>
      Nix.RangeDimension (Neo.magnitudes (Neo.isig_times irsig))
        (Some (Neo.array_units (Neo.isig_times irsig))) (Some "time")
  end.

(** The DataArray [da] of the column [col] of a signal. *)
Definition column_written {libs : Libraries} (sig : signal) (col : list Q)
    (da : Nix.handle) (st' : State) : Prop :=
  ∃ e, entities st' !! da = Some e ∧
    Nix.kind e = Nix.DataArray ∧
    Nix.type e = signal_type sig ∧
    Nix.definition e = Neo.description (signal_base sig) ∧
    Nix.created_at e = None ∧
    Nix.data e = Nix.Data1 col ∧
    Nix.da_unit e = Some (signal_units sig) ∧
    Nix.dimensions e = [time_dimension sig; Nix.SetDimension []].

(** The array at position [idx] holds the column [idx] of the signal. *)
Definition array_written {libs : Libraries} (sig : signal) (idx : nat)
    (da : Nix.handle) (st' : State) : Prop :=
  ∃ col, Neo.transpose (signal_array sig) !! idx = Some col ∧
    column_written sig col da st'.

(** *** The arrays of a MultiTag *)

(** [da] is a DataArray of type [ty] that holds the magnitudes of [q], in
    the units of [q], with the dimensions [dims]. *)
Definition quantity_array (ty : string) (q : Neo.QuantityArray)
    (dims : list Nix.Dimension) (da : Nix.handle) (st' : State) : Prop :=
  ∃ e, entities st' !! da = Some e ∧
    Nix.kind e = Nix.DataArray ∧
    Nix.type e = ty ∧
    Nix.data e = Nix.Data1 (Neo.magnitudes q) ∧
    Nix.da_unit e = Some (Neo.array_units q) ∧
    Nix.dimensions e = dims.

(** The positions of the MultiTag [h] are an array of type [ty] that holds
    [times], and its extents are [ext]. *)
Definition anchored (ty : string) (times : Neo.QuantityArray)
    (dims : list Nix.Dimension) (ext : option Nix.handle) (h : Nix.handle)
    (st' : State) : Prop :=
  ∃ e tda, entities st' !! h = Some e ∧
    Nix.positions e = Some tda ∧
    Nix.extents e = ext ∧
    quantity_array ty times dims tda st'.

Definition epoch_written (ep : Neo.Epoch) (h : Nix.handle) (st' : State)
    : Prop :=
  ∃ dda,
    anchored "neo.epoch.times" (Neo.ep_times ep)
      [Nix.SetDimension (Neo.ep_labels ep)] (Some dda) h st' ∧
    quantity_array "neo.epoch.durations" (Neo.ep_durations ep) [] dda st'.

Definition event_written (ev : Neo.Event) (h : Nix.handle) (st' : State)
    : Prop :=
  anchored "neo.event.times" (Neo.ev_times ev)
    [Nix.SetDimension (Neo.ev_labels ev)] None h st'.

Definition spikes_written (sptr : Neo.SpikeTrain) (h : Nix.handle)
    (st' : State) : Prop :=
  anchored "neo.epoch.times" (Neo.sptr_times sptr) [] None h st'.

(** *** The blocks of the file *)

(** The NIX block [h] written for the Neo block [blk] when the file held
    [k] blocks: its definition is the description of [blk], and its name
    is the name of [blk] or, for a block without a name, [neo.Block]
    followed by [k]. *)
Definition block_written (blk : Neo.Block) (k : nat) (h : Nix.handle)
    (st' : State) : Prop :=
  ∃ e, entities st' !! h = Some e ∧
    Nix.kind e = Nix.Block ∧
    Nix.type e = "neo.block" ∧
    Nix.definition e = Neo.description blk ∧
    Nix.name e = if truthy_str (Neo.name blk) then default "" (Neo.name blk)
                 else "neo.Block" +:+ pretty k.

(** *** The channels of a group *)

(** The name of the channel at position [idx] of a group whose Source is
    called [nix_name]: the name listed at [idx], when the group lists
    names at all. *)
Definition channel_name (rcg : Neo.RecordingChannelGroup) (nix_name : string)
    (idx : nat) : option string :=
  if bool_decide (length (Neo.channel_names rcg) ≠ 0) then
    Neo.channel_names rcg !! idx
  else Some (nix_name +:+ "." +:+ pretty idx).

(** The Source [ch] of the channel at position [idx]. *)
Definition channel_source_written (rcg : Neo.RecordingChannelGroup)
    (nix_name : string) (idx : nat) (ch : Nix.handle) (st' : State) : Prop :=
  (∃ e, entities st' !! ch = Some e ∧
     Nix.kind e = Nix.Source ∧
     Nix.type e = "neo.recordingchannel" ∧
     Nix.definition e = Neo.description rcg ∧
     Some (Nix.name e) = channel_name rcg nix_name idx) ∧
  (truthy_str (Neo.file_origin rcg) = true →
     holds (PEnt ch) "file_origin"
       [VString (default "" (Neo.file_origin rcg))] st') ∧
  (∀ coordinates chan_coords,
     Neo.coordinates rcg = Some coordinates →
     coordinates !! idx = Some chan_coords →
     holds (PEnt ch) "coordinates"
       ((λ c, VNumber (Neo.magnitude c)) <$> chan_coords) st' ∧
     holds (PEnt ch) "coordinates.units"
       ((λ c, VString (Neo.units c)) <$> chan_coords) st').

(** [ch] is among the sources of the object [h]. *)
Definition child_source (h ch : Nix.handle) (st : State) : Prop :=
  ∃ e, entities st !! h = Some e ∧ ch ∈ Nix.sources e.

(** Every channel index of the group has its Source under the Source [h]
    of the group. *)
Definition group_channels_written (rcg : Neo.RecordingChannelGroup)
    (h : Nix.handle) (st' : State) : Prop :=
  ∃ e, entities st' !! h = Some e ∧
    ∀ idx, idx < length (Neo.channel_indexes rcg) →
      ∃ ch, ch ∈ Nix.sources e ∧ channel_source_written rcg (Nix.name e) idx ch st'.

(** *** The waveforms of a spike train *)

(** [f] is among the features of the object [h]. *)
Definition has_feature (h f : Nix.handle) (st : State) : Prop :=
  ∃ e, entities st !! h = Some e ∧ f ∈ Nix.features e.

(** The array of the waveforms has a set dimension for the spikes, one
    for the channels, and a dimension of time sampled by the sampling
    period of the train. *)
Definition waveform_dimensions {libs : Libraries} (sptr : Neo.SpikeTrain)
    : list Nix.Dimension :=
  let time_units := simplified (Neo.units (Neo.sptr_sampling_period sptr)) in
  [Nix.SetDimension []; Nix.SetDimension [];
   Nix.SampledDimension
     (Neo.magnitude (rescale (Neo.sptr_sampling_period sptr) time_units))
     (Some time_units) (Some "time") None].

(** The waveforms of the train, when it has some, are an indexed feature
    of its MultiTag [h]. *)
Definition waveforms_written {libs : Libraries} (sptr : Neo.SpikeTrain)
    (h : Nix.handle) (st' : State) : Prop :=
  ∀ wf, Neo.sptr_waveforms sptr = Some wf →
    ∃ f fe wda we,
      has_feature h f st' ∧
      entities st' !! f = Some fe ∧
      Nix.kind fe = Nix.Feature ∧
      Nix.link_type fe = Some Nix.Indexed ∧
      wda ∈ Nix.data_arrays fe ∧
      entities st' !! wda = Some we ∧
      Nix.kind we = Nix.DataArray ∧
      Nix.type we = "neo.waveforms" ∧
      Nix.data we = Nix.Data3 (Neo.wf_magnitudes wf) ∧
      Nix.da_unit we = Some (Neo.wf_units wf) ∧
      Nix.dimensions we = waveform_dimensions sptr ∧
      ∀ q, Neo.sptr_left_sweep sptr = Some q →
        Neo.truthy_quantity (Some q) = true →
        holds (PEnt wda) "left_sweep"
          [VNumber (Neo.magnitude
             (rescale q (simplified (Neo.units (Neo.sptr_sampling_period sptr)))))]
          st'.

(** *** Where the objects are attached *)

(** [h] is in the collection [proj] of the object [o]. *)
Definition member (proj : Nix.Entity → list Nix.handle) (o : PyObj)
    (h : Nix.handle) (st : State) : Prop :=
  ∃ p e, o = PEnt p ∧ entities st !! p = Some e ∧ h ∈ proj e.

(** The collections of an entity, which only grow. *)
Inductive is_collection : (Nix.Entity → list Nix.handle) → Prop :=
| groups_collection : is_collection Nix.groups
| sources_collection : is_collection Nix.sources
| data_arrays_collection : is_collection Nix.data_arrays
| multi_tags_collection : is_collection Nix.multi_tags.

(** The object [h] that a routine returned is attached to the object
    [parent] at the parent path: a Group to the groups of its Block, a
    DataArray to the arrays of its Group, and so on.  The MultiTag of a
    spike train goes to the tags of a Group; under a Source it is the
    Source that goes to the sources of the tag. *)
Definition attached (r : routine) (parent : PyObj) (h : Nix.handle)
    (st' : State) : Prop :=
  match r with
  | WriteSegment _ => member Nix.groups parent h st'
  | WriteRecordingChannelGroup _ => member Nix.sources parent h st'
  | WriteUnit _ => member Nix.sources parent h st'
  | WriteAnalogSignal _ => member Nix.data_arrays parent h st'
  | WriteIrregularlySampledSignal _ => member Nix.data_arrays parent h st'
  | WriteEpoch _ => member Nix.multi_tags parent h st'
  | WriteEvent _ => member Nix.multi_tags parent h st'
  | WriteSpikeTrain _ =>
      ∀ p pe, parent = PEnt p → entities st' !! p = Some pe →
        (Nix.kind pe = Nix.Group → h ∈ Nix.multi_tags pe) ∧
        (Nix.kind pe = Nix.Source → member Nix.sources (PEnt h) p st')
  end.

(** ** Sample trees *)

(** Stand-ins for the libraries: a quantity keeps its magnitude when it is
    rescaled, and a unit is already in its simplified form. *)
Definition sample_libs : Libraries :=
  {| mktime := λ _, 0%Q;
     rescale := λ q u, Neo.Build_Quantity (Neo.magnitude q) u;
     simplified := λ u, u |}.

Definition sample_base (i : pyid) (n : option string) : Neo.Base :=
  Neo.Build_Base i n None None [].

Definition seconds (m : Q) : Neo.Quantity := Neo.Build_Quantity m "s".

(** An unnamed spike train that starts at [0.0 s] and stops at [1.0 s]. *)
Definition sample_spiketrain : Neo.SpikeTrain :=
  Neo.Build_SpikeTrain (sample_base 5 None)
    (Neo.Build_QuantityArray [1%Q] "s") (Some (seconds 0)) (seconds 1)
    None (seconds 1) None.

(** An unnamed signal of two samples on three channels. *)
Definition sample_analogsignal : Neo.AnalogSignal :=
  Neo.Build_AnalogSignal (sample_base 3 None)
    (Neo.Build_Array2 2 3 [[1; 2; 3]; [4; 5; 6]]%Q) "mV"
    (Neo.Build_Quantity 1 "1/Hz") (seconds 0).

Definition sample_epoch : Neo.Epoch :=
  Neo.Build_Epoch (sample_base 4 None) (Neo.Build_QuantityArray [1%Q] "s")
    (Neo.Build_QuantityArray [1%Q] "ms") ["a"].


(** A unit whose spike train is [sample_spiketrain]. *)
Definition sample_unit : Neo.Unit :=
  Neo.Build_Unit (sample_base 8 None) [sample_spiketrain].

(** The block ["B"] with the empty segment ["S"] and an unnamed channel
    group of two channels. *)
Definition sample_segment : Neo.Segment :=
  Neo.Build_Segment (sample_base 2 (Some "S")) None None [] [] [] [] [].

Definition sample_rcg : Neo.RecordingChannelGroup :=
  Neo.Build_RecordingChannelGroup (sample_base 7 None) [1; 2]%Z [] None
    [] [] [].

Definition sample_block : Neo.Block :=
  Neo.Build_Block (sample_base 1 (Some "B")) None None
    [sample_segment] [sample_rcg].

(** An event that comes from a file and carries an annotation. *)
Definition sample_annotated_event : Neo.Event :=
  Neo.Build_Event
    (Neo.Build_Base 9 (Some "E") None (Some "recording.dat")
       [("mark", VString "x")])
    (Neo.Build_QuantityArray [1%Q] "s") ["a"].

(** A channel group over [sample_analogsignal]. *)
Definition sample_signal_rcg : Neo.RecordingChannelGroup :=
  Neo.Build_RecordingChannelGroup (sample_base 10 None) [] [] None []
    [sample_analogsignal] [].

(** A block without a name, a description or children. *)
Definition sample_unnamed_block : Neo.Block :=
  Neo.Build_Block (sample_base 11 None) None None [] [].

(** A channel group that names and locates its two channels. *)
Definition sample_located_rcg : Neo.RecordingChannelGroup :=
  Neo.Build_RecordingChannelGroup
    (Neo.Build_Base 12 (Some "G") (Some "probe") None [])
    [1; 2]%Z ["left"; "right"]
    (Some [[Neo.Build_Quantity 1 "mm"]; [Neo.Build_Quantity 2 "mm"]])
    [] [] [].

(** A spike train with one waveform and a left sweep. *)
Definition sample_waveform_spiketrain : Neo.SpikeTrain :=
  Neo.Build_SpikeTrain (sample_base 13 (Some "T"))
    (Neo.Build_QuantityArray [1%Q] "s") None (seconds 1)
    (Some (Neo.Build_Waveforms [[[1%Q; 2%Q]]] "mV")) (seconds 1)
    (Some (seconds 1)).

Section Samples.

Context {libs : Libraries}.

(** The file after [sample_block] was written.  Its path lists 1, 2 and 3
    lead to the block, to the group of the segment and to the source of
    the channel group; the entities 0, 1 and 2 are these three. *)
Definition sample_state : State := final (write_block sample_block) init_state.

Definition block_path : listref := 1.
Definition segment_path : listref := 2.
Definition rcg_path : listref := 3.

(** The same file once [sample_spiketrain] was written into the segment,
    and once [sample_analogsignal] was. *)
Definition spiked_state : State :=
  final (write_spiketrain sample_spiketrain segment_path) sample_state.

Definition signal_state : State :=
  final (write_analogsignal sample_analogsignal segment_path) sample_state.

End Samples.


(** ** How the store evolves *)

Section Proofs.

Context {libs : Libraries}.

Lemma ent_grows_refl e : ent_grows e e.
Proof. by constructor. Qed.

Lemma ent_grows_trans e1 e2 e3 : ent_grows e1 e2 → ent_grows e2 e3 → ent_grows e1 e3.
Proof.
  intros [] []. constructor; try congruence; etrans; eassumption.
Qed.

Lemma sec_grows_refl s : sec_grows s s.
Proof. by constructor. Qed.

Lemma sec_grows_trans s1 s2 s3 : sec_grows s1 s2 → sec_grows s2 s3 → sec_grows s1 s3.
Proof.
  intros [] []. constructor; try congruence; etrans; eassumption.
Qed.

Lemma sec_grows_add_prop k v s : sec_grows s (Nix.add_prop k v s).
Proof. constructor; simpl; try done. by apply prefix_app_r. Qed.

Section Evolves.

Variable P : Nix.Entity → Nix.Entity → Prop.
Variable K : pyid → Prop.
Hypothesis P_refl : ∀ e, P e e.
Hypothesis P_trans : ∀ a b c, P a b → P b c → P a c.

Lemma evolves_refl st : evolves P K st st.
Proof.
  constructor; try done.
  - intros h e He. eauto.
  - intros s sec Hs. eauto using sec_grows_refl.
Qed.

Lemma evolves_trans a b c : evolves P K a b → evolves P K b c → evolves P K a c.
Proof.
  intros [E1 S1 B1 M1 L1] [E2 S2 B2 M2 L2]. constructor.
  - intros h e He. destruct (E1 _ _ He) as (e1 & He1 & G1).
    destruct (E2 _ _ He1) as (e2 & He2 & G2). eauto.
  - intros s sec Hs. destruct (S1 _ _ Hs) as (s1 & Hs1 & G1).
    destruct (S2 _ _ Hs1) as (s2 & Hs2 & G2).
    eauto using sec_grows_trans.
  - by etrans.
  - intros k Hk. by rewrite M2, M1.
  - by etrans.
Qed.

Lemma evolves_upd_ent st h f :
  update_ok P f → evolves P K st (set_entities (alter f h (entities st)) st).
Proof.
  intros Hf. constructor; simpl; try done.
  - intros h' e He. destruct (decide (h = h')) as [->|Hne].
    + exists (f e). split; [|apply Hf].
      by rewrite list_lookup_alter_eq, He.
    + exists e. split; [|apply P_refl].
      by rewrite list_lookup_alter_ne.
  - intros s sec Hs. eauto using sec_grows_refl.
Qed.

Lemma evolves_new_ent st e :
  evolves P K st (set_entities (entities st ++ [e]) st).
Proof.
  constructor; simpl; try done.
  - intros h' e' He. exists e'. split; [|apply P_refl].
    by apply lookup_app_l_Some.
  - intros s sec Hs. eauto using sec_grows_refl.
Qed.

Lemma evolves_add_prop st s k v :
  evolves P K st (set_sections (alter (Nix.add_prop k v) s (sections st)) st).
Proof.
  constructor; simpl; try done.
  - intros h e He. eauto.
  - intros s' sec Hs. destruct (decide (s = s')) as [->|Hne].
    + exists (Nix.add_prop k v sec). split; [|apply sec_grows_add_prop].
      by rewrite list_lookup_alter_eq, Hs.
    + exists sec. split; [|apply sec_grows_refl].
      by rewrite list_lookup_alter_ne.
Qed.

Lemma evolves_new_sec st s :
  evolves P K st (set_sections (sections st ++ [s]) st).
Proof.
  constructor; simpl; try done.
  - intros h e He. eauto.
  - intros s' sec Hs. exists sec. split; [|apply sec_grows_refl].
    by apply lookup_app_l_Some.
Qed.

Lemma evolves_add_block st h :
  evolves P K st (set_blocks (blocks st ++ [h]) st).
Proof.
  constructor; simpl; try done.
  - intros h' e He. eauto.
  - intros s sec Hs. eauto using sec_grows_refl.
  - by apply prefix_app_r.
Qed.

Lemma evolves_new_list st p :
  evolves P K st (set_py_lists (py_lists st ++ [p]) st).
Proof.
  constructor; simpl; try done.
  - intros h' e He. eauto.
  - intros s sec Hs. eauto using sec_grows_refl.
  - by apply prefix_app_r.
Qed.

Lemma evolves_map_set st k v :
  K k → evolves P K st (set_neo_nix_map (<[k := v]> (neo_nix_map st)) st).
Proof.
  intros Hk. constructor; simpl; try done.
  - intros h' e He. eauto.
  - intros s sec Hs. eauto using sec_grows_refl.
  - intros k' Hk'. rewrite lookup_insert_ne; [done|]. by intros ->.
Qed.

End Evolves.

(** ** A relation that every step of a computation respects *)

Section Respects.

Variable R : State → State → Prop.
Variable IdOK : pyid → Prop.
Variable UpdOK : (Nix.Entity → Nix.Entity) → Prop.

Hypothesis R_refl : ∀ st, R st st.
Hypothesis R_trans : ∀ a b c, R a b → R b c → R a c.
Hypothesis R_upd_ent : ∀ st h f, UpdOK f →
  R st (set_entities (alter f h (entities st)) st).
Hypothesis UpdOK_definition : ∀ v, UpdOK (Nix.set_definition v).
Hypothesis UpdOK_unit : ∀ v, UpdOK (Nix.set_unit v).
Hypothesis UpdOK_created_at : ∀ v, UpdOK (Nix.set_created_at v).
Hypothesis UpdOK_metadata : ∀ v, UpdOK (Nix.set_metadata v).
Hypothesis UpdOK_extents : ∀ v, UpdOK (Nix.set_extents v).
Hypothesis UpdOK_dimensions_append : ∀ d,
  UpdOK (λ e, Nix.set_dimensions (Nix.dimensions e ++ [d]) e).
Hypothesis UpdOK_dimensions_alter : ∀ (f : Nix.Dimension → Nix.Dimension) (i : nat),
  UpdOK (λ e, Nix.set_dimensions (alter f i (Nix.dimensions e)) e).
Hypothesis UpdOK_groups : ∀ h,
  UpdOK (λ e, Nix.set_groups (Nix.groups e ++ [h]) e).
Hypothesis UpdOK_sources : ∀ h,
  UpdOK (λ e, Nix.set_sources (Nix.sources e ++ [h]) e).
Hypothesis UpdOK_data_arrays : ∀ h,
  UpdOK (λ e, Nix.set_data_arrays (Nix.data_arrays e ++ [h]) e).
Hypothesis UpdOK_multi_tags : ∀ h,
  UpdOK (λ e, Nix.set_multi_tags (Nix.multi_tags e ++ [h]) e).
Hypothesis UpdOK_features : ∀ h,
  UpdOK (λ e, Nix.set_features (Nix.features e ++ [h]) e).
Hypothesis UpdOK_references : ∀ hs,
  UpdOK (λ e, Nix.set_references (Nix.references e ++ hs) e).
Hypothesis R_new_ent : ∀ st e, R st (set_entities (entities st ++ [e]) st).
Hypothesis R_add_prop : ∀ st s k v,
  R st (set_sections (alter (Nix.add_prop k v) s (sections st)) st).
Hypothesis R_new_sec : ∀ st s, R st (set_sections (sections st ++ [s]) st).
Hypothesis R_add_block : ∀ st h, R st (set_blocks (blocks st ++ [h]) st).
Hypothesis R_new_list : ∀ st p, R st (set_py_lists (py_lists st ++ [p]) st).
Hypothesis R_map_set : ∀ st k v, IdOK k →
  R st (set_neo_nix_map (<[k := v]> (neo_nix_map st)) st).

Lemma respects_ret {A} (a : A) : respects R (ret a).
Proof. intros st. apply R_refl. Qed.

Lemma respects_mret {A} (a : A) : respects R (mret a).
Proof. intros st. apply R_refl. Qed.

Lemma respects_raise {A} e : respects R (raise e : M A).
Proof. intros st. apply R_refl. Qed.

Lemma respects_gets {A} (f : State → A) : respects R (gets f).
Proof. intros st. apply R_refl. Qed.

Lemma respects_bind {A B} (m : M A) (f : A → M B) :
  respects R m → (∀ a, respects R (f a)) → respects R (m ≫= f).
Proof.
  intros Hm Hf st. unfold final, mbind, M_bind, bind.
  specialize (Hm st). unfold final in Hm.
  destruct (m st) as [st1 [a|e]]; simpl in *; [|done].
  eapply R_trans; [exact Hm | apply Hf].
Qed.

Lemma respects_for_each {A} (l : list A) (body : A → M unit) :
  (∀ x, respects R (body x)) → respects R (for_each l body).
Proof.
  intros Hb. induction l as [|x l IH]; simpl.
  - apply respects_ret.
  - apply respects_bind; [apply Hb | intros _; exact IH].
Qed.

Lemma respects_map_m {A B} (f : A → M B) (l : list A) :
  (∀ x, respects R (f x)) → respects R (map_m f l).
Proof.
  intros Hf. induction l as [|x l IH]; simpl.
  - apply respects_ret.
  - apply respects_bind; [apply Hf | intros y].
    apply respects_bind; [exact IH | intros ys; apply respects_ret].
Qed.

Lemma respects_upd_ent h f : UpdOK f → respects R (upd_ent h f).
Proof. intros Hf st. by apply R_upd_ent. Qed.

Lemma respects_map_set k v : IdOK k → respects R (map_set k v).
Proof. intros Hk st. by apply R_map_set. Qed.

Create HintDb respects.
#[local] Hint Opaque write_block write_segment write_recordingchannelgroup
  write_channel link_signals write_unit write_spiketrain write_event
  write_epoch write_irregularlysampledsignal write_analogsignal
  _get_or_init_metadata _copy_annotations : respects.

Ltac respects_step :=
  lazymatch goal with
  | |- respects R (_ ≫= _) => apply respects_bind; [| intros ?]
  | |- respects R (ret _) => apply respects_ret
  | |- respects R (mret _) => apply respects_mret
  | |- respects R (raise _) => apply respects_raise
  | |- respects R (gets _) => apply respects_gets
  | |- respects R (modify _) => intros ?; unfold final, modify; simpl; auto
  | |- respects R (upd_ent _ _) => apply respects_upd_ent; auto
  | |- respects R (map_set _ _) => apply respects_map_set; auto
  | |- respects R (for_each _ _) => apply respects_for_each; intros ?
  | |- respects R (map_m _ _) => apply respects_map_m; intros ?
  | |- respects R (when _ _) => unfold when
  | |- respects R (name_or _ _) => unfold name_or
  | |- respects R (match ?x with _ => _ end) => destruct x
  | |- respects R (let _ := _ in _) => cbv zeta
  | |- respects R _ => solve [eauto with respects]
  end.

Ltac respects_go := repeat respects_step.

Lemma respects_get_ent h : respects R (get_ent h).
Proof. unfold get_ent. respects_go. Qed.

Lemma respects_new_ent e : respects R (new_ent e).
Proof. unfold new_ent. respects_go. Qed.

Lemma respects_upd_sec s k v : respects R (upd_sec s (Nix.add_prop k v)).
Proof. unfold upd_sec. respects_go. Qed.

Lemma respects_new_sec s : respects R (new_sec s).
Proof. unfold new_sec. respects_go. Qed.

Lemma respects_deref r : respects R (deref r).
Proof. unfold deref. respects_go. Qed.

Lemma respects_new_list p : respects R (new_list p).
Proof. unfold new_list. respects_go. Qed.

#[local] Hint Resolve respects_get_ent respects_new_ent respects_upd_sec
  respects_new_sec respects_deref respects_new_list : respects.

Lemma respects_list_add a b : respects R (list_add a b).
Proof. unfold list_add. respects_go. Qed.

Lemma respects_list_init a : respects R (list_init a).
Proof. unfold list_init. respects_go. Qed.

Lemma respects_list_first a : respects R (list_first a).
Proof. unfold list_first. respects_go. Qed.

Lemma respects_the_entity o attr : respects R (the_entity o attr).
Proof. unfold the_entity. respects_go. Qed.

#[local] Hint Resolve respects_list_add respects_list_init respects_list_first
  respects_the_entity : respects.

Lemma respects_collection has proj attr o : respects R (collection has proj attr o).
Proof. unfold collection. respects_go. Qed.

#[local] Hint Resolve respects_collection : respects.

Lemma respects_groups_of o : respects R (groups_of o).
Proof. apply respects_collection. Qed.
Lemma respects_sources_of o : respects R (sources_of o).
Proof. apply respects_collection. Qed.
Lemma respects_data_arrays_of o : respects R (data_arrays_of o).
Proof. apply respects_collection. Qed.
Lemma respects_multi_tags_of o : respects R (multi_tags_of o).
Proof. apply respects_collection. Qed.
Lemma respects_tags_of o : respects R (tags_of o).
Proof. apply respects_collection. Qed.
Lemma respects_features_of o : respects R (features_of o).
Proof. apply respects_collection. Qed.

Lemma respects_blocks_of o : respects R (blocks_of o).
Proof. unfold blocks_of. respects_go. Qed.

Lemma respects_name_of o : respects R (name_of o).
Proof. unfold name_of. respects_go. Qed.

Lemma respects_type_of o : respects R (type_of o).
Proof. unfold type_of. respects_go. Qed.

Lemma respects_metadata_of o : respects R (metadata_of o).
Proof. unfold metadata_of. respects_go. Qed.

Lemma respects_item hs nm : respects R (item hs nm).
Proof. unfold item. respects_go. Qed.

Lemma respects_check_unused hs nm : respects R (check_unused hs nm).
Proof. unfold check_unused. respects_go. Qed.

#[local] Hint Resolve respects_groups_of respects_sources_of
  respects_data_arrays_of respects_multi_tags_of respects_tags_of
  respects_features_of respects_blocks_of respects_name_of respects_type_of
  respects_metadata_of respects_item respects_check_unused : respects.

Lemma respects_create_block nm ty : respects R (create_block nm ty).
Proof. unfold create_block. respects_go. Qed.

Lemma respects_create_group o nm ty : respects R (create_group o nm ty).
Proof. unfold create_group. respects_go. Qed.

Lemma respects_create_source o nm ty : respects R (create_source o nm ty).
Proof. unfold create_source. respects_go. Qed.

Lemma respects_create_data_array o nm ty d : respects R (create_data_array o nm ty d).
Proof. unfold create_data_array. respects_go. Qed.

Lemma respects_create_multi_tag o nm ty pos : respects R (create_multi_tag o nm ty pos).
Proof. unfold create_multi_tag. respects_go. Qed.

Lemma respects_create_feature mt da lt : respects R (create_feature mt da lt).
Proof. unfold create_feature. respects_go. Qed.

Lemma respects_create_section parent nm ty : respects R (create_section parent nm ty).
Proof. unfold create_section. respects_go. Qed.

Lemma respects_create_property s k v : respects R (create_property s k v).
Proof. unfold create_property. respects_go. Qed.

Lemma respects_append_dimension da d : respects R (append_dimension da d).
Proof. unfold append_dimension. respects_go. Qed.

Lemma respects_upd_dimension da i f : respects R (upd_dimension da i f).
Proof. unfold upd_dimension. respects_go. Qed.

Lemma respects_data_arrays_append o da : respects R (data_arrays_append o da).
Proof. unfold data_arrays_append. respects_go. Qed.

Lemma respects_multi_tags_append o mt : respects R (multi_tags_append o mt).
Proof. unfold multi_tags_append. respects_go. Qed.

Lemma respects_sources_append o src : respects R (sources_append o src).
Proof. unfold sources_append. respects_go. Qed.

Lemma respects_references_extend mt das : respects R (references_extend mt das).
Proof. unfold references_extend. respects_go. Qed.

Lemma respects_isinstance o k : respects R (isinstance o k).
Proof. unfold isinstance. respects_go. Qed.

Lemma respects_setattr_metadata o v :
  respects R (setattr o "metadata" (Nix.set_metadata v)).
Proof. unfold setattr. respects_go. Qed.

Lemma respects_as_entity o : respects R (as_entity o).
Proof. unfold as_entity. respects_go. Qed.

#[local] Hint Resolve respects_create_block respects_create_group
  respects_create_source respects_create_data_array respects_create_multi_tag
  respects_create_feature respects_create_section respects_create_property
  respects_append_dimension respects_upd_dimension respects_data_arrays_append
  respects_multi_tags_append respects_sources_append respects_references_extend
  respects_isinstance respects_setattr_metadata respects_as_entity
  respects_map_set : respects.

Lemma respects_walk p : ∀ o, respects R (walk o p).
Proof.
  induction p as [|[obj_type obj_name] p IH]; intros o; simpl; respects_go.
Qed.

#[local] Hint Resolve respects_walk : respects.

Lemma respects_get_object_at r : respects R (_get_object_at r).
Proof. unfold _get_object_at. respects_go. Qed.

#[local] Hint Resolve respects_get_object_at : respects.

Lemma respects_get_or_init_metadata_rec fuel :
  ∀ o r, respects R (_get_or_init_metadata_rec fuel o r).
Proof.
  induction fuel as [|fuel IH]; intros o r; simpl; respects_go.
Qed.

#[local] Hint Resolve respects_get_or_init_metadata_rec : respects.

Lemma respects_get_or_init_metadata o r : respects R (_get_or_init_metadata o r).
Proof. unfold _get_or_init_metadata. respects_go. Qed.

#[local] Hint Resolve respects_get_or_init_metadata : respects.

Lemma respects_add_annotations a s : respects R (_add_annotations a s).
Proof. unfold _add_annotations. respects_go. Qed.

#[local] Hint Resolve respects_add_annotations : respects.

Lemma respects_copy_annotations b o r : respects R (_copy_annotations b o r).
Proof. unfold _copy_annotations. respects_go. Qed.

Lemma respects_get_mapped_object b : respects R (_get_mapped_object b).
Proof. unfold _get_mapped_object. respects_go. Qed.

#[local] Hint Resolve respects_copy_annotations respects_get_mapped_object
  : respects.

Lemma respects_get_mapped_objects l : respects R (_get_mapped_objects l).
Proof. unfold _get_mapped_objects. respects_go. Qed.

Lemma respects_get_contained_signals o : respects R (_get_contained_signals o).
Proof. unfold _get_contained_signals. respects_go. Qed.

#[local] Hint Resolve respects_get_mapped_objects
  respects_get_contained_signals : respects.

Lemma respects_write_analogsignal (a : Neo.AnalogSignal) r :
  IdOK (Neo.obj_id a) → respects R (write_analogsignal a r).
Proof. intros Hk. unfold write_analogsignal. respects_go. Qed.

Lemma respects_write_irregularlysampledsignal (a : Neo.IrregularlySampledSignal) r :
  IdOK (Neo.obj_id a) → respects R (write_irregularlysampledsignal a r).
Proof. intros Hk. unfold write_irregularlysampledsignal. respects_go. Qed.

Lemma respects_write_epoch (a : Neo.Epoch) r :
  IdOK (Neo.obj_id a) → respects R (write_epoch a r).
Proof. intros Hk. unfold write_epoch. respects_go. Qed.

Lemma respects_write_event (a : Neo.Event) r :
  IdOK (Neo.obj_id a) → respects R (write_event a r).
Proof. intros Hk. unfold write_event. respects_go. Qed.

Lemma respects_write_spiketrain (a : Neo.SpikeTrain) r :
  IdOK (Neo.obj_id a) → respects R (write_spiketrain a r).
Proof. intros Hk. unfold write_spiketrain. respects_go. Qed.

Lemma respects_write_unit (a : Neo.Unit) r :
  IdOK (Neo.obj_id a) → respects R (write_unit a r).
Proof. intros Hk. unfold write_unit. respects_go. Qed.

Lemma respects_write_channel rcg src nm r idx :
  respects R (write_channel rcg src nm r idx).
Proof. unfold write_channel. respects_go. Qed.

Lemma respects_link_signals l src : respects R (link_signals l src).
Proof. unfold link_signals. respects_go. Qed.

#[local] Hint Resolve respects_write_analogsignal
  respects_write_irregularlysampledsignal respects_write_epoch
  respects_write_event respects_write_spiketrain respects_write_unit
  respects_write_channel respects_link_signals : respects.

Lemma respects_write_recordingchannelgroup a r :
  (∀ k, IdOK k) → respects R (write_recordingchannelgroup a r).
Proof. intros Hk. unfold write_recordingchannelgroup. respects_go. Qed.

Lemma respects_write_segment a r :
  (∀ k, IdOK k) → respects R (write_segment a r).
Proof. intros Hk. unfold write_segment. respects_go. Qed.

#[local] Hint Resolve respects_write_recordingchannelgroup
  respects_write_segment : respects.

Lemma respects_write_block a : (∀ k, IdOK k) → respects R (write_block a).
Proof. intros Hk. unfold write_block. respects_go. Qed.

Lemma respects_write_all_blocks l : (∀ k, IdOK k) → respects R (write_all_blocks l).
Proof.
  intros Hk. unfold write_all_blocks.
  apply respects_map_m; intros b. by apply respects_write_block.
Qed.

End Respects.

Ltac solve_ent_grows :=
  intros ?; constructor; simpl;
  first [ reflexivity | by apply prefix_app_r ].

(** *** Using the lemmas above for a given relation

    [respects_with R IdOK UpdOK leaf] proves that a piece of the writer
    respects [R]; [leaf] proves the facts about [R] that are needed. *)

Ltac use_respects lem R IdOK UpdOK :=
  first [ eapply (lem R IdOK UpdOK)
        | eapply (lem R UpdOK)
        | eapply (lem R IdOK)
        | eapply (lem R) ].

Ltac head_of m :=
  lazymatch m with
  | ?f _ _ _ _ _ _ => f
  | ?f _ _ _ _ _ => f
  | ?f _ _ _ _ => f
  | ?f _ _ _ => f
  | ?f _ _ => f
  | ?f _ => f
  | ?f => f
  end.

Ltac respects_with R IdOK UpdOK leaf :=
  intros;
  lazymatch goal with
  | |- respects _ ?m =>
      lazymatch m with
      | _ ≫= _ => use_respects @respects_bind R IdOK UpdOK
      | ret _ => use_respects @respects_ret R IdOK UpdOK
      | mret _ => use_respects @respects_mret R IdOK UpdOK
      | raise _ => use_respects @respects_raise R IdOK UpdOK
      | gets _ => use_respects @respects_gets R IdOK UpdOK
      | for_each _ _ => use_respects @respects_for_each R IdOK UpdOK
      | map_m _ _ => use_respects @respects_map_m R IdOK UpdOK
      | upd_ent _ _ => use_respects respects_upd_ent R IdOK UpdOK
      | map_set _ _ => use_respects respects_map_set R IdOK UpdOK
      | setattr _ "metadata" (Nix.set_metadata _) =>
          use_respects respects_setattr_metadata R IdOK UpdOK
      | when _ _ => unfold when
      | name_or _ _ => unfold name_or
      | match ?x with _ => _ end => destruct x
      | let _ := _ in _ => cbv zeta
      | _ =>
          let f := head_of m in
          lazymatch f with
      | @get_ent => use_respects respects_get_ent R IdOK UpdOK
      | @new_ent => use_respects respects_new_ent R IdOK UpdOK
      | @upd_sec => use_respects respects_upd_sec R IdOK UpdOK
      | @new_sec => use_respects respects_new_sec R IdOK UpdOK
      | @deref => use_respects respects_deref R IdOK UpdOK
      | @new_list => use_respects respects_new_list R IdOK UpdOK
      | @list_add => use_respects respects_list_add R IdOK UpdOK
      | @list_init => use_respects respects_list_init R IdOK UpdOK
      | @list_first => use_respects respects_list_first R IdOK UpdOK
      | @the_entity => use_respects respects_the_entity R IdOK UpdOK
      | @collection => use_respects respects_collection R IdOK UpdOK
      | @groups_of => use_respects respects_groups_of R IdOK UpdOK
      | @sources_of => use_respects respects_sources_of R IdOK UpdOK
      | @data_arrays_of => use_respects respects_data_arrays_of R IdOK UpdOK
      | @multi_tags_of => use_respects respects_multi_tags_of R IdOK UpdOK
      | @tags_of => use_respects respects_tags_of R IdOK UpdOK
      | @features_of => use_respects respects_features_of R IdOK UpdOK
      | @blocks_of => use_respects respects_blocks_of R IdOK UpdOK
      | @name_of => use_respects respects_name_of R IdOK UpdOK
      | @type_of => use_respects respects_type_of R IdOK UpdOK
      | @metadata_of => use_respects respects_metadata_of R IdOK UpdOK
      | @item => use_respects respects_item R IdOK UpdOK
      | @check_unused => use_respects respects_check_unused R IdOK UpdOK
      | @create_block => use_respects respects_create_block R IdOK UpdOK
      | @create_group => use_respects respects_create_group R IdOK UpdOK
      | @create_source => use_respects respects_create_source R IdOK UpdOK
      | @create_data_array => use_respects respects_create_data_array R IdOK UpdOK
      | @create_multi_tag => use_respects respects_create_multi_tag R IdOK UpdOK
      | @create_feature => use_respects respects_create_feature R IdOK UpdOK
      | @create_section => use_respects respects_create_section R IdOK UpdOK
      | @create_property => use_respects respects_create_property R IdOK UpdOK
      | @append_dimension => use_respects respects_append_dimension R IdOK UpdOK
      | @upd_dimension => use_respects respects_upd_dimension R IdOK UpdOK
      | @data_arrays_append => use_respects respects_data_arrays_append R IdOK UpdOK
      | @multi_tags_append => use_respects respects_multi_tags_append R IdOK UpdOK
      | @sources_append => use_respects respects_sources_append R IdOK UpdOK
      | @references_extend => use_respects respects_references_extend R IdOK UpdOK
      | @isinstance => use_respects respects_isinstance R IdOK UpdOK
      | @as_entity => use_respects respects_as_entity R IdOK UpdOK
      | @walk => use_respects respects_walk R IdOK UpdOK
      | @_get_object_at => use_respects respects_get_object_at R IdOK UpdOK
      | @_get_or_init_metadata_rec => use_respects respects_get_or_init_metadata_rec R IdOK UpdOK
      | @_get_or_init_metadata => use_respects respects_get_or_init_metadata R IdOK UpdOK
      | @_add_annotations => use_respects respects_add_annotations R IdOK UpdOK
      | @_copy_annotations => use_respects respects_copy_annotations R IdOK UpdOK
      | @_get_mapped_object => use_respects respects_get_mapped_object R IdOK UpdOK
      | @_get_mapped_objects => use_respects respects_get_mapped_objects R IdOK UpdOK
      | @_get_contained_signals => use_respects respects_get_contained_signals R IdOK UpdOK
      | @write_analogsignal => use_respects respects_write_analogsignal R IdOK UpdOK
      | @write_irregularlysampledsignal => use_respects respects_write_irregularlysampledsignal R IdOK UpdOK
      | @write_epoch => use_respects respects_write_epoch R IdOK UpdOK
      | @write_event => use_respects respects_write_event R IdOK UpdOK
      | @write_spiketrain => use_respects respects_write_spiketrain R IdOK UpdOK
      | @write_unit => use_respects respects_write_unit R IdOK UpdOK
      | @write_channel => use_respects respects_write_channel R IdOK UpdOK
      | @link_signals => use_respects respects_link_signals R IdOK UpdOK
      | @write_recordingchannelgroup => use_respects respects_write_recordingchannelgroup R IdOK UpdOK
      | @write_segment => use_respects respects_write_segment R IdOK UpdOK
      | @write_block => use_respects respects_write_block R IdOK UpdOK
      | @write_all_blocks => use_respects respects_write_all_blocks R IdOK UpdOK
      end
      end;
      respects_with R IdOK UpdOK leaf
  | |- _ => leaf
  end.

(** The facts about [evolves P K]; [ptac] proves those about [P]. *)
Ltac evolves_leaf ptac :=
  intros;
  lazymatch goal with
  | |- evolves _ _ ?st ?st => apply evolves_refl; ptac
  | |- evolves _ _ _ (set_entities (alter _ _ _) _) =>
      apply evolves_upd_ent; [ptac | assumption]
  | |- evolves _ _ _ (set_entities (_ ++ _) _) => apply evolves_new_ent; ptac
  | |- evolves _ _ _ (set_sections (alter _ _ _) _) => apply evolves_add_prop; ptac
  | |- evolves _ _ _ (set_sections (_ ++ _) _) => apply evolves_new_sec; ptac
  | |- evolves _ _ _ (set_blocks _ _) => apply evolves_add_block; ptac
  | |- evolves _ _ _ (set_py_lists _ _) => apply evolves_new_list; ptac
  | |- evolves _ _ _ (set_neo_nix_map _ _) =>
      apply evolves_map_set; [ptac | assumption]
  | |- evolves _ _ _ _ => eapply evolves_trans; [ptac | eassumption..]
  | |- update_ok _ _ => ptac
  | |- _ => try done
  end.

Ltac evolves_respects P K ptac :=
  respects_with (evolves P K) K (update_ok P) ltac:(evolves_leaf ptac).

Ltac grows_ptac :=
  first [ apply ent_grows_refl
        | eapply ent_grows_trans; eassumption
        | unfold update_ok; solve_ent_grows ].

Ltac by_grows := unfold grows; evolves_respects ent_grows (λ _ : pyid, True) grows_ptac.

Lemma get_or_init_metadata_grows o r : respects grows (_get_or_init_metadata o r).
Proof. by_grows. Qed.

Lemma write_epoch_grows (a : Neo.Epoch) r : respects grows (write_epoch a r).
Proof. by_grows. Qed.

Lemma write_block_grows a : respects grows (write_block a).
Proof. by_grows. Qed.

Lemma call_grows r p : respects grows (call r p).
Proof. unfold call. by_grows. Qed.

(** ** Runs that return: a weakest precondition *)

Lemma wp_run {A} (m : M A) Q st st' a :
  wp m Q st → m st = (st', Ok a) → Q a st'.
Proof. unfold wp. intros H E. by rewrite E in H. Qed.

Lemma run_wp {A} (m : M A) (Q : A → State → Prop) st :
  (∀ st' a, m st = (st', Ok a) → Q a st') → wp m Q st.
Proof. unfold wp. destruct (m st) as [st' [a|e]]; auto. Qed.

Lemma wp_mono {A} (m : M A) (Q Q' : A → State → Prop) st :
  wp m Q st → (∀ a st', Q a st' → Q' a st') → wp m Q' st.
Proof. unfold wp. destruct (m st) as [st' [a|e]]; auto. Qed.

Lemma wp_ret {A} (a : A) (Q : A → State → Prop) st : Q a st → wp (ret a) Q st.
Proof. done. Qed.

Lemma wp_raise {A} e (Q : A → State → Prop) st : wp (raise e) Q st.
Proof. done. Qed.

Lemma wp_gets {A} (f : State → A) (Q : A → State → Prop) st :
  Q (f st) st → wp (gets f) Q st.
Proof. done. Qed.

Lemma wp_modify (f : State → State) (Q : unit → State → Prop) st :
  Q tt (f st) → wp (modify f) Q st.
Proof. done. Qed.

Lemma wp_bind {A B} (m : M A) (f : A → M B) (Q : B → State → Prop) st :
  wp m (λ a st', wp (f a) Q st') st → wp (m ≫= f) Q st.
Proof.
  unfold wp, mbind, M_bind, bind. by destruct (m st) as [st' [a|e]].
Qed.

(** A relation the computation respects may be assumed of its final state. *)
Lemma wp_frame {A} (R : State → State → Prop) (m : M A) Q st :
  respects R m → wp m (λ a st', R st st' → Q a st') st → wp m Q st.
Proof.
  intros Hm. specialize (Hm st). revert Hm.
  unfold wp, final. destruct (m st) as [st' [a|e]]; simpl; auto.
Qed.

Lemma wp_for_each {A} (I : list A → State → Prop) (body : A → M unit) :
  ∀ (l done : list A) st,
    I done st →
    (∀ done x st, I done st → wp (body x) (λ _ st', I (done ++ [x]) st') st) →
    wp (for_each l body) (λ _ st', I (done ++ l) st') st.
Proof.
  induction l as [|x l IH]; intros done st HI Hbody; simpl.
  - apply wp_ret. by rewrite app_nil_r.
  - apply wp_bind. eapply wp_mono; [by apply Hbody|].
    intros [] st' HI'. cbv beta.
    replace (done ++ x :: l) with ((done ++ [x]) ++ l) by by rewrite <- app_assoc.
    by apply IH.
Qed.

Ltac state_simpl :=
  cbn [entities sections blocks neo_nix_map py_lists set_entities set_sections
       set_blocks set_neo_nix_map set_py_lists fst snd] in *.

Ltac wp_step :=
  lazymatch goal with
  | |- wp (?m ≫= _) _ _ =>
      lazymatch m with
      | ret _ => apply wp_bind
      | mret _ => apply wp_bind
      | raise _ => apply wp_bind
      | gets _ => apply wp_bind
      | modify _ => apply wp_bind
      | _ ≫= _ => apply wp_bind
      | when _ _ => apply wp_bind
      | name_or _ _ => apply wp_bind
      | match _ with _ => _ end => apply wp_bind
      end
  | |- wp (ret _) _ _ => apply wp_ret
  | |- wp (mret _) _ _ => apply wp_ret
  | |- wp (raise _) _ _ => apply wp_raise
  | |- wp (gets _) _ _ => apply wp_gets
  | |- wp (modify _) _ _ => apply wp_modify
  | |- wp (when _ _) _ _ => unfold when
  | |- wp (name_or _ _) _ _ => unfold name_or
  | |- wp (let _ := _ in _) _ _ => cbv zeta
  | |- wp (match ?x with _ => _ end) _ _ =>
      first [ match goal with H : x = _ |- _ => rewrite H end
            | destruct x eqn:? ]
  end; cbv beta; state_simpl.

Ltac wp_go := repeat wp_step.

Ltac wp_unfold :=
  unfold create_block, create_group, create_source, create_data_array,
    create_multi_tag, create_feature, create_section, create_property,
    append_dimension, upd_dimension, data_arrays_append, multi_tags_append,
    sources_append, references_extend, isinstance, setattr, as_entity, map_set,
    groups_of, sources_of, data_arrays_of, multi_tags_of, tags_of, features_of,
    collection, blocks_of, name_of, type_of, metadata_of, item, check_unused,
    _get_contained_signals, list_add, list_init, list_first,
    the_entity, get_ent, upd_ent, new_ent, upd_sec, new_sec, deref, new_list.


(** ** Equations of runs *)

Lemma bind_run {A B} (m : M A) (f : A → M B) st :
  (m ≫= f) st =
  match m st with
  | (st', Ok a) => f a st'
  | (st', Raise e) => (st', Raise e)
  end.
Proof. reflexivity. Qed.

Lemma bind_run_ok {A B} (m : M A) (f : A → M B) st st' a :
  m st = (st', Ok a) → (m ≫= f) st = f a st'.
Proof. intros E. by rewrite bind_run, E. Qed.

Lemma bind_run_raise {A B} (m : M A) (f : A → M B) st st' e :
  m st = (st', Raise e) → (m ≫= f) st = (st', Raise e).
Proof. intros E. by rewrite bind_run, E. Qed.

Lemma final_run {A} (m : M A) st st' r : m st = (st', r) → final m st = st'.
Proof. unfold final. by intros ->. Qed.

(** ** Unresolved references *)

Lemma get_mapped_object_mapped (o : Neo.Base) st v :
  neo_nix_map st !! Neo.obj_id o = Some v →
  _get_mapped_object o st = (st, Ok v).
Proof.
  intros Hv. unfold _get_mapped_object. rewrite bind_run. simpl.
  unfold gets. by rewrite Hv.
Qed.

Lemma get_mapped_object_unmapped (o : Neo.Base) st :
  neo_nix_map st !! Neo.obj_id o = None →
  _get_mapped_object o st = (st, Raise (KeyError unmapped_message)).
Proof.
  intros Hv. unfold _get_mapped_object. rewrite bind_run. simpl.
  unfold gets. by rewrite Hv.
Qed.

Lemma get_mapped_objects_unmapped (l : list Neo.Base) (o : Neo.Base) st :
  o ∈ l →
  neo_nix_map st !! Neo.obj_id o = None →
  _get_mapped_objects l st = (st, Raise (KeyError unmapped_message)).
Proof.
  intros Hin Hno. unfold _get_mapped_objects.
  induction l as [|x l IH]; [by apply elem_of_nil in Hin|].
  simpl. destruct (neo_nix_map st !! Neo.obj_id x) as [v|] eqn:Hx.
  - rewrite (bind_run_ok _ _ _ _ _ (get_mapped_object_mapped x st v Hx)).
    apply elem_of_cons in Hin as [->|Hin]; [congruence|].
    by rewrite (bind_run_raise _ _ _ _ _ (IH Hin)).
  - by rewrite (bind_run_raise _ _ _ _ _ (get_mapped_object_unmapped x st Hx)).
Qed.

Lemma get_mapped_objects_mapped (l : list Neo.Base) st :
  (∀ o, o ∈ l → is_Some (neo_nix_map st !! Neo.obj_id o)) →
  ∃ vs, _get_mapped_objects l st = (st, Ok vs) ∧
        Forall2 (λ (o : Neo.Base) v, neo_nix_map st !! Neo.obj_id o = Some v) l vs.
Proof.
  unfold _get_mapped_objects. induction l as [|x l IH]; intros Hall.
  - exists []. by split.
  - destruct (Hall x) as [v Hv]; [by left|].
    destruct IH as (vs & Hvs & HF); [intros o Ho; apply Hall; by right|].
    exists (v :: vs). split; [|by constructor].
    simpl. rewrite (bind_run_ok _ _ _ _ _ (get_mapped_object_mapped x st v Hv)).
    by rewrite (bind_run_ok _ _ _ _ _ Hvs).
Qed.

(** Writing a unit touches the identity table at the unit's own key only. *)
Lemma write_unit_map_frame (ut : Neo.Unit) parent_path :
  respects (evolves (λ _ _, True) (λ k, k = Neo.obj_id ut))
    (write_unit ut parent_path).
Proof.
  evolves_respects (λ _ _ : Nix.Entity, True) (λ k, k = Neo.obj_id ut)
    ltac:(by unfold update_ok).
Qed.

(** Both runs go through the same steps until the spike trains are looked up. *)
Ltac same_prefix H :=
  repeat lazymatch goal with
  | |- (?m ≫= _) ?s = _ =>
      lazymatch m with
      | _get_mapped_objects _ => fail
      | _ =>
          rewrite (bind_run m) in H |- *;
          destruct (m s) as [? [?|?]]; [|discriminate H]
      end
  end.

(** C1: looking up a source object, signal or spike train, that was never
    mapped raises the [KeyError] with the guidance message and changes
    nothing; so [write_unit], on a Unit one of whose spike trains is not in
    the identity table, creates the Unit's Source as it would without
    spike trains and then raises that error instead of returning. *)
Theorem unmapped_reference_raises (ut : Neo.Unit) (sptr : Neo.SpikeTrain)
    (parent_path : listref) (st st1 : State) (nix_source : Nix.handle) :
  sptr ∈ Neo.ut_spiketrains ut →
  neo_nix_map st !! Neo.obj_id sptr = None →
  Neo.obj_id sptr ≠ Neo.obj_id ut →
  write_unit (unit_without_spiketrains ut) parent_path st = (st1, Ok nix_source) →
  (∀ (neo_object : Neo.Base) s,
     neo_nix_map s !! Neo.obj_id neo_object = None →
     _get_mapped_object neo_object s = (s, Raise (KeyError unmapped_message))) ∧
  write_unit ut parent_path st = (st1, Raise (KeyError unmapped_message)).
Proof.
  intros Hin Hno Hne Hrun. split; [apply get_mapped_object_unmapped|].
  assert (Hmap : neo_nix_map st1 !! Neo.obj_id sptr = None).
  { pose proof (write_unit_map_frame (unit_without_spiketrains ut) parent_path st)
      as [_ _ _ Hm _].
    rewrite (final_run _ _ _ _ Hrun) in Hm. rewrite Hm; [done|]. exact Hne. }
  revert Hrun. unfold write_unit.
  cbn [unit_without_spiketrains Neo.ut_base Neo.ut_spiketrains fmap list_fmap].
  intros Hrun. same_prefix Hrun.
  simpl in Hrun. injection Hrun as -> _.
  apply bind_run_raise.
  eapply (get_mapped_objects_unmapped _ sptr); [|done].
  apply list_elem_of_fmap. by exists sptr.
Qed.

(** ** Paths *)

(** C9: no conversion routine changes a path list that exists when it is
    called, whether it returns or raises; and [path + steps] builds a new
    list object holding the old steps followed by the new ones, leaving
    every other list as it was. *)
Theorem paths_never_mutated (r : routine) (parent_path q : listref) (l : path)
    (st : State) :
  py_lists st !! q = Some l →
  py_lists (final (call r parent_path) st) !! q = Some l ∧
  ∀ b, list_add q b st =
       (set_py_lists (py_lists st ++ [l ++ b]) st, Ok (length (py_lists st))).
Proof.
  intros Hq. split.
  - destruct (call_grows r parent_path st) as [_ _ _ _ Hl].
    by eapply prefix_lookup_Some.
  - intros b. unfold list_add, deref.
    rewrite bind_run, bind_run. unfold gets. simpl. by rewrite Hq.
Qed.


(** ** Stepping through a run *)

Lemma wp_skip {A B} (m : M A) (f : A → M B) (Q : B → State → Prop) st :
  (∀ a st', wp (f a) Q st') → wp (m ≫= f) Q st.
Proof.
  intros Hf. apply wp_bind. unfold wp at 1.
  destruct (m st) as [st' [a|e]]; auto.
Qed.

Lemma wp_bind_rel (R : State → State → Prop) (s0 : State) {A B} (m : M A)
    (f : A → M B) (Q : B → State → Prop) st :
  (∀ a b c, R a b → R b c → R a c) →
  R s0 st → respects R m →
  (∀ a st', R s0 st' → wp (f a) Q st') →
  wp (m ≫= f) Q st.
Proof.
  intros Htrans H0 Hm Hf. apply wp_bind. unfold wp at 1.
  specialize (Hm st). unfold final in Hm.
  destruct (m st) as [st' [a|e]]; simpl in *; eauto.
Qed.

Lemma wp_readonly {A} (m : M A) (Q : A → State → Prop) st :
  respects eq m → (∀ a, m st = (st, Ok a) → Q a st) → wp m Q st.
Proof.
  intros Hm HQ. unfold wp. specialize (Hm st). unfold final in Hm.
  destruct (m st) as [st' [a|e]]; simpl in *; [|done].
  subst st'. auto.
Qed.

Ltac readonly := respects_with (@eq State) (λ _ : pyid, False)
  (λ _ : Nix.Entity → Nix.Entity, False) ltac:(intros; congruence).

Lemma get_object_at_readonly r : respects eq (_get_object_at r).
Proof. readonly. Qed.

Lemma get_contained_signals_readonly o : respects eq (_get_contained_signals o).
Proof. readonly. Qed.

Lemma metadata_of_readonly o : respects eq (metadata_of o).
Proof. readonly. Qed.

Lemma wp_bind_both (R : State → State → Prop) (s0 : State) {A B} (m : M A)
    (f : A → M B) (Q1 : A → State → Prop) (Q : B → State → Prop) st :
  (∀ a b c, R a b → R b c → R a c) →
  R s0 st → respects R m → wp m Q1 st →
  (∀ a st', R s0 st' → Q1 a st' → wp (f a) Q st') →
  wp (m ≫= f) Q st.
Proof.
  intros Htrans H0 Hm H1 Hf. apply wp_bind. unfold wp at 1.
  specialize (Hm st). unfold final, wp in Hm, H1.
  destruct (m st) as [st' [a|e]]; simpl in *; eauto.
Qed.

Ltac wp_skip_to f :=
  repeat lazymatch goal with
  | |- wp (?m ≫= _) _ _ =>
      let h := head_of m in
      lazymatch h with
      | f => fail
      | _ => apply wp_skip; intros ? ?
      end
  | |- wp (let _ := _ in _) _ _ => cbv zeta
  end.

(** Carry [evolves P K s0 current], held as [HR], over the next step. *)
Ltac wp_keep P K ptac HR :=
  eapply (wp_bind_rel (evolves P K) _ _ _ _ _
            ltac:(intros ? ? ?; apply evolves_trans; ptac) HR);
  [ evolves_respects P K ptac | clear HR; intros ? ? HR ].

Ltac wp_keep_to f P K ptac HR :=
  repeat lazymatch goal with
  | |- wp (?m ≫= _) _ _ =>
      let h := head_of m in
      lazymatch h with
      | f => fail
      | _ => wp_keep P K ptac HR
      end
  | |- wp (let _ := _ in _) _ _ => cbv zeta
  end.

(** ** Facts about lookups after an update *)

Lemma lookup_created {A} (l : list A) (x : A) (f : A → A) (i : nat) (y : A) :
  l !! i = Some y → alter f i (l ++ [x]) !! length l = Some x.
Proof.
  intros Hi. rewrite list_lookup_alter_ne.
  - by apply list_lookup_middle.
  - apply lookup_lt_Some in Hi. lia.
Qed.


(** ** What the creation calls return *)

Lemma create_data_array_spec parent nm ty d st :
  wp (create_data_array parent nm ty d) (created (new_data_array nm ty d) st) st.
Proof.
  unfold create_data_array. wp_unfold. wp_go.
  split; [done|]. split; simpl.
  - rewrite length_alter, length_app. simpl. lia.
  - eapply lookup_created. eassumption.
Qed.

Lemma create_multi_tag_spec parent nm ty pos st :
  wp (create_multi_tag parent nm ty pos) (created (new_multi_tag nm ty pos) st) st.
Proof.
  unfold create_multi_tag. wp_unfold. wp_go.
  split; [done|]. split; simpl.
  - rewrite length_alter, length_app. simpl. lia.
  - eapply lookup_created. eassumption.
Qed.

Lemma create_source_spec parent nm ty st :
  wp (create_source parent nm ty)
     (created (Nix.new_entity Nix.Source nm ty) st) st.
Proof.
  unfold create_source. wp_unfold. wp_go.
  split; [done|]. split; simpl.
  - rewrite length_alter, length_app. simpl. lia.
  - eapply lookup_created. eassumption.
Qed.

Lemma create_group_spec parent nm ty st :
  wp (create_group parent nm ty)
     (created (Nix.new_entity Nix.Group nm ty) st) st.
Proof.
  unfold create_group. wp_unfold. wp_go.
  split; [done|]. split; simpl.
  - rewrite length_alter, length_app. simpl. lia.
  - eapply lookup_created. eassumption.
Qed.

Lemma create_block_spec nm ty st :
  wp (create_block nm ty) (created (Nix.new_entity Nix.Block nm ty) st) st.
Proof.
  unfold create_block. wp_unfold. wp_go.
  split; [done|]. split; simpl.
  - rewrite length_app. simpl. lia.
  - by apply list_lookup_middle.
Qed.

(** Run the next step with the specification [spec] of what it returns. *)
Ltac wp_use spec := eapply wp_mono; [apply spec | cbv beta].

Ltac wp_with spec :=
  lazymatch goal with
  | |- wp (_ ≫= _) _ _ => apply wp_bind; wp_use spec
  | |- _ => wp_use spec
  end.

(** ** Epochs, events and the signals of their segment *)











(** ** The positions array of a spike train *)

(** As [wp_keep], with what the step returns. *)
Ltac wp_keep_spec P K ptac HR spec :=
  eapply (wp_bind_both (evolves P K) _ _ _ _ _ _
            ltac:(intros ? ? ?; apply evolves_trans; ptac) HR);
  [ evolves_respects P K ptac | apply spec | clear HR; intros ? ? HR ].

Lemma get_contained_signals_spec obj st :
  wp (_get_contained_signals obj)
     (λ sigs st', st' = st ∧
        ∀ da, da ∈ sigs → is_contained_signal (entities st) da = true) st.
Proof.
  unfold _get_contained_signals. wp_unfold. wp_go.
  split; [done|].
  intros da Hda. apply list_elem_of_filter in Hda as [Hda _].
  by apply Is_true_true.
Qed.

Lemma positions_from_creation nm ty tda mt s s0 s1 s1' s2 d :
  created (new_data_array (nm +:+ ".times") "neo.epoch.times" d) s tda s0 →
  grows s0 s1 →
  created (new_multi_tag nm ty tda) s1' mt s1 →
  grows s1 s2 →
  positions_are_epoch_times mt s2.
Proof.
  intros (_ & _ & Htda) H01 (_ & _ & Hmt) H12.
  destruct (ev_entities _ _ _ _ H01 _ _ Htda) as (te1 & Hte1 & G1).
  destruct (ev_entities _ _ _ _ H12 _ _ Hte1) as (te2 & Hte2 & G2).
  destruct (ev_entities _ _ _ _ H12 _ _ Hmt) as (e2 & He2 & G3).
  exists e2, tda, te2. destruct G1, G2, G3. simpl in *.
  repeat split; try done; congruence.
Qed.

Ltac start_grows s HR :=
  assert (HR : evolves ent_grows (λ _, True) s s)
    by (apply evolves_refl; grows_ptac);
  revert HR; generalize s at 2 3; intros ? HR.

Ltac positions_array :=
  wp_skip_to @create_data_array;
  wp_with create_data_array_spec;
  let s0 := fresh "s0" in let Htda := fresh "Htda" in
  let HR := fresh "HR" in let Hmt := fresh "Hmt" in
  let HR2 := fresh "HR2" in let s1 := fresh "s1" in
  intros ? s0 Htda;
  start_grows s0 HR;
  wp_keep_to @create_multi_tag ent_grows (λ _ : pyid, True) grows_ptac HR;
  wp_keep_spec ent_grows (λ _ : pyid, True) grows_ptac HR create_multi_tag_spec;
  intros Hmt;
  lazymatch goal with
  | |- wp _ _ ?s => start_grows s HR2
  end;
  wp_keep_to @ret ent_grows (λ _ : pyid, True) grows_ptac HR2;
  apply wp_ret;
  eapply positions_from_creation; eauto.

Lemma write_spiketrain_positions (sptr : Neo.SpikeTrain) parent_path st :
  wp (write_spiketrain sptr parent_path) positions_are_epoch_times st.
Proof. unfold write_spiketrain. positions_array. Qed.

Lemma write_epoch_positions (ep : Neo.Epoch) parent_path st :
  wp (write_epoch ep parent_path) positions_are_epoch_times st.
Proof. unfold write_epoch. positions_array. Qed.

(** C10: the positions array of a spike train is created as a DataArray
    named [<name>.times] with the type [neo.epoch.times], the type
    [write_epoch] gives to the positions array of an Epoch; and whatever
    the writer does afterwards, no call of [_get_contained_signals]
    returns that array. *)
Theorem spiketrain_times_are_epoch_times (sptr : Neo.SpikeTrain)
    (parent_path : listref) (st st' : State) (mt : Nix.handle) :
  write_spiketrain sptr parent_path st = (st', Ok mt) →
  ∃ e tda te,
    entities st' !! mt = Some e ∧
    Nix.kind e = Nix.MultiTag ∧
    Nix.positions e = Some tda ∧
    entities st' !! tda = Some te ∧
    Nix.kind te = Nix.DataArray ∧
    Nix.name te = Nix.name e +:+ ".times" ∧
    Nix.type te = "neo.epoch.times" ∧
    (∀ ep p s s' mt', write_epoch ep p s = (s', Ok mt') →
       positions_are_epoch_times mt' s') ∧
    (∀ st'' obj sigs, grows st' st'' →
       _get_contained_signals obj st'' = (st'', Ok sigs) → tda ∉ sigs).
Proof.
  intros Hrun.
  destruct (wp_run _ _ _ _ _ (write_spiketrain_positions sptr parent_path st) Hrun)
    as (e & tda & te & He & Hk & Hp & Hte & Hkt & Hn & Hty).
  exists e, tda, te. repeat (split; [done|]). split.
  - intros ep p s s' mt' Hep.
    exact (wp_run _ _ _ _ _ (write_epoch_positions ep p s) Hep).
  - intros st'' obj sigs Hg Hsigs Hin.
    destruct (wp_run _ _ _ _ _ (get_contained_signals_spec obj st'') Hsigs)
      as [_ Hall].
    specialize (Hall _ Hin). unfold is_contained_signal in Hall.
    destruct (ev_entities _ _ _ _ Hg _ _ Hte) as (te' & Hte' & G).
    rewrite Hte' in Hall. rewrite (eg_type _ _ G), Hty in Hall.
    discriminate Hall.
Qed.


(** ** Spike trains of a unit *)

Lemma get_mapped_objects_spec (l : list Neo.Base) st :
  wp (_get_mapped_objects l)
     (λ vs st', st' = st ∧
        Forall2 (λ (o : Neo.Base) v, neo_nix_map st !! Neo.obj_id o = Some v) l vs) st.
Proof.
  unfold _get_mapped_objects. revert st.
  induction l as [|x l IH]; intros st; simpl.
  - apply wp_ret. by split.
  - apply wp_bind. unfold _get_mapped_object at 1. wp_go.
    wp_with IH. intros vs st' [-> HF]. wp_go.
    split; [done|]. by constructor.
Qed.

Lemma wired_grows ps ns st st' v : grows st st' → wired ps ns st v → wired ps ns st' v.
Proof.
  intros Hg (mt & e & src & -> & -> & He & H1 & H2).
  destruct (ev_entities _ _ _ _ Hg _ _ He) as (e' & He' & G).
  exists mt, e', src. repeat split; try done.
  - eapply elem_of_prefix; [exact H1 | apply G].
  - eapply elem_of_prefix; [exact H2 | apply G].
Qed.

(** The loop of [write_unit] over the mapped spike trains. *)
Lemma wire_spiketrains_spec (parent_source : PyObj) (nix_source : Nix.handle) vs st :
  wp (for_each vs (λ nix_st,
        match nix_st with
        | MObj nix_st =>
            src ← as_entity parent_source;
            sources_append (PEnt nix_st) src;;
            sources_append (PEnt nix_st) nix_source
        | MList _ => raise (AttributeError "sources")
        end))
     (λ _ st', ∀ v, v ∈ vs → wired parent_source nix_source st' v) st.
Proof.
  eapply wp_mono.
  - apply (wp_for_each (λ done st', ∀ v, v ∈ done → wired parent_source nix_source st' v)
             _ vs []).
    + intros v Hv. by apply elem_of_nil in Hv.
    + intros done x s HI.
      eapply (wp_frame grows).
      { destruct x; by_grows. }
      destruct x as [mt|hs]; [|apply wp_raise].
      wp_unfold. wp_go.
      intros Hg v Hv. apply elem_of_app in Hv as [Hv|Hv].
      * eapply wired_grows; [exact Hg | by apply HI].
      * apply list_elem_of_singleton in Hv as ->.
        eexists mt, _, _. split; [done|]. split; [done|]. simpl.
        rewrite !list_lookup_alter_eq.
        match goal with H : entities s !! mt = Some _ |- _ => rewrite H end.
        simpl. split; [done|]. simpl. set_solver.
  - intros [] st' HI. exact HI.
Qed.

Lemma write_unit_wires (ut : Neo.Unit) parent_path st :
  wp (write_unit ut parent_path)
     (λ nix_source st', ∀ sptr : Neo.SpikeTrain,
        sptr ∈ Neo.ut_spiketrains ut →
        Neo.obj_id sptr ≠ Neo.obj_id ut →
        ∃ mt e rcg_source,
          neo_nix_map st !! Neo.obj_id sptr = Some (MObj mt) ∧
          _get_object_at parent_path st = (st, Ok (PEnt rcg_source)) ∧
          entities st' !! mt = Some e ∧
          rcg_source ∈ Nix.sources e ∧ nix_source ∈ Nix.sources e) st.
Proof.
  unfold write_unit.
  apply wp_bind. apply wp_readonly; [apply get_object_at_readonly|].
  intros parent_source Hps.
  assert (HR : evolves (λ _ _, True) (λ k, k = Neo.obj_id ut) st st)
    by by apply evolves_refl.
  wp_keep_to @_get_mapped_objects (λ _ _ : Nix.Entity, True)
    (λ k, k = Neo.obj_id ut) ltac:(by unfold update_ok) HR.
  wp_with get_mapped_objects_spec. intros vs ? [-> HF].
  wp_with wire_spiketrains_spec. intros [] s' Hall.
  apply wp_ret. intros sptr Hin Hne.
  assert (Hb : Neo.sptr_base sptr ∈ Neo.sptr_base <$> Neo.ut_spiketrains ut).
  { apply list_elem_of_fmap. by exists sptr. }
  apply list_elem_of_lookup in Hb as [i Hi].
  destruct (Forall2_lookup_l _ _ _ _ _ HF Hi) as (v & Hv & Hmap).
  destruct (Hall v) as (mt & e & src & -> & -> & He & H1 & H2).
  { apply list_elem_of_lookup. by exists i. }
  exists mt, e, src. split.
  { rewrite <- Hmap. symmetry. by apply (ev_map _ _ _ _ HR). }
  done.
Qed.

(** C5: when [write_unit] returns, every spike train of the Unit was in
    the identity table, mapped to a MultiTag, and that MultiTag now counts
    among its sources both the Source at the parent path (the channel
    group's) and the Source just created for the Unit. *)
Theorem unit_spiketrains_refer_to_sources (ut : Neo.Unit) (sptr : Neo.SpikeTrain)
    (parent_path : listref) (st st' : State) (nix_source : Nix.handle) :
  write_unit ut parent_path st = (st', Ok nix_source) →
  sptr ∈ Neo.ut_spiketrains ut →
  Neo.obj_id sptr ≠ Neo.obj_id ut →
  ∃ mt e rcg_source,
    neo_nix_map st !! Neo.obj_id sptr = Some (MObj mt) ∧
    _get_object_at parent_path st = (st, Ok (PEnt rcg_source)) ∧
    entities st' !! mt = Some e ∧
    rcg_source ∈ Nix.sources e ∧ nix_source ∈ Nix.sources e.
Proof.
  intros Hrun Hin Hne.
  exact (wp_run _ _ _ _ _ (write_unit_wires ut parent_path st) Hrun sptr Hin Hne).
Qed.


(** ** Two runs side by side *)

Section Commutes.

Variable ρ : State → State.
Variable f : pyid → pyid.

Hypothesis ρ_entities : ∀ st, entities (ρ st) = entities st.
Hypothesis ρ_sections : ∀ st, sections (ρ st) = sections st.
Hypothesis ρ_blocks : ∀ st, blocks (ρ st) = blocks st.
Hypothesis ρ_py_lists : ∀ st, py_lists (ρ st) = py_lists st.
Hypothesis ρ_set_entities : ∀ v st, set_entities v (ρ st) = ρ (set_entities v st).
Hypothesis ρ_set_sections : ∀ v st, set_sections v (ρ st) = ρ (set_sections v st).
Hypothesis ρ_set_blocks : ∀ v st, set_blocks v (ρ st) = ρ (set_blocks v st).
Hypothesis ρ_set_py_lists : ∀ v st, set_py_lists v (ρ st) = ρ (set_py_lists v st).
Hypothesis ρ_lookup : ∀ st k, neo_nix_map (ρ st) !! f k = neo_nix_map st !! k.
Hypothesis ρ_insert : ∀ st k v,
  set_neo_nix_map (<[f k := v]> (neo_nix_map (ρ st))) (ρ st) =
  ρ (set_neo_nix_map (<[k := v]> (neo_nix_map st)) st).

Lemma commutes_ret {A} (a : A) : commutes ρ (ret a) (ret a).
Proof. done. Qed.

Lemma commutes_raise {A} e : commutes ρ (raise e : M A) (raise e).
Proof. done. Qed.

Lemma commutes_gets {A} (g g' : State → A) :
  (∀ st, g' (ρ st) = g st) → commutes ρ (gets g) (gets g').
Proof. intros Hg st. unfold gets, final, outcome. simpl. by rewrite Hg. Qed.

Lemma commutes_modify (h h' : State → State) :
  (∀ st, h' (ρ st) = ρ (h st)) → commutes ρ (modify h) (modify h').
Proof. intros Hh st. unfold modify, final, outcome. simpl. by rewrite Hh. Qed.

Lemma commutes_bind {A B} (m m' : M A) (k k' : A → M B) :
  commutes ρ m m' → (∀ a, commutes ρ (k a) (k' a)) →
  commutes ρ (m ≫= k) (m' ≫= k').
Proof.
  intros Hm Hk st. unfold final, outcome. rewrite !bind_run, Hm.
  unfold final, outcome. destruct (m st) as [st1 [a|e]]; simpl; [|done].
  apply Hk.
Qed.

Lemma commutes_for_each {A A'} (g : A → A') (l : list A) (body : A → M unit)
    (body' : A' → M unit) :
  (∀ x, commutes ρ (body x) (body' (g x))) →
  commutes ρ (for_each l body) (for_each (g <$> l) body').
Proof.
  intros Hb. induction l as [|x l IH]; simpl.
  - apply commutes_ret.
  - apply commutes_bind; [apply Hb | intros _; exact IH].
Qed.

Lemma commutes_for_each_same {A} (l : list A) (body body' : A → M unit) :
  (∀ x, commutes ρ (body x) (body' x)) →
  commutes ρ (for_each l body) (for_each l body').
Proof.
  intros Hb. rewrite <- (list_fmap_id l) at 2. by apply commutes_for_each.
Qed.

Lemma commutes_map_m {A A' B} (g : A → A') (l : list A) (k : A → M B)
    (k' : A' → M B) :
  (∀ x, commutes ρ (k x) (k' (g x))) →
  commutes ρ (map_m k l) (map_m k' (g <$> l)).
Proof.
  intros Hk. induction l as [|x l IH]; simpl.
  - apply commutes_ret.
  - apply commutes_bind; [apply Hk | intros y].
    apply commutes_bind; [exact IH | intros ys; apply commutes_ret].
Qed.

Lemma commutes_map_m_same {A B} (l : list A) (k k' : A → M B) :
  (∀ x, commutes ρ (k x) (k' x)) → commutes ρ (map_m k l) (map_m k' l).
Proof.
  intros Hk. rewrite <- (list_fmap_id l) at 2. by apply commutes_map_m.
Qed.

Create HintDb commutes.
#[local] Hint Opaque write_block write_segment write_recordingchannelgroup
  write_channel link_signals write_unit write_spiketrain write_event
  write_epoch write_irregularlysampledsignal write_analogsignal
  _get_or_init_metadata _copy_annotations walk _get_object_at
  _get_or_init_metadata_rec _add_annotations _get_mapped_object
  _get_mapped_objects _get_contained_signals : commutes.

Ltac ρ_rewrite :=
  intros ?; cbn [set_entities set_sections set_blocks set_py_lists];
  rewrite ?ρ_entities, ?ρ_sections, ?ρ_blocks, ?ρ_py_lists;
  rewrite <- ?ρ_set_entities, <- ?ρ_set_sections, <- ?ρ_set_blocks,
    <- ?ρ_set_py_lists;
  cbn [set_entities set_sections set_blocks set_py_lists];
  rewrite ?ρ_entities, ?ρ_sections, ?ρ_blocks, ?ρ_py_lists;
  reflexivity.

Ltac commutes_step :=
  lazymatch goal with
  | |- commutes _ (_ ≫= _) (_ ≫= _) => apply commutes_bind; [| intros ?]
  | |- commutes _ (ret _) _ => apply commutes_ret
  | |- commutes _ (mret _) _ => apply commutes_ret
  | |- commutes _ (raise _) _ => apply commutes_raise
  | |- commutes _ (gets _) _ => apply commutes_gets; ρ_rewrite
  | |- commutes _ (modify _) _ => apply commutes_modify; ρ_rewrite
  | |- commutes _ (for_each ?l _) (for_each ?l _) =>
      apply commutes_for_each_same; intros ?
  | |- commutes _ (for_each _ _) (for_each (_ <$> _) _) =>
      apply commutes_for_each; intros ?
  | |- commutes _ (map_m ?l _) (map_m ?l _) =>
      apply commutes_map_m_same; intros ?
  | |- commutes _ (map_m _ _) (map_m (_ <$> _) _) =>
      apply commutes_map_m; intros ?
  | |- commutes _ (when _ _) _ => unfold when
  | |- commutes _ (name_or _ _) _ => unfold name_or
  | |- commutes _ (match ?x with _ => _ end) _ => destruct x
  | |- commutes _ (let _ := _ in _) _ => cbv zeta
  | |- commutes _ _ _ => solve [eauto with commutes]
  end.

Ltac commutes_go := repeat commutes_step.

Lemma commutes_upd_ent h g : commutes ρ (upd_ent h g) (upd_ent h g).
Proof. unfold upd_ent. commutes_go. Qed.

Lemma commutes_upd_sec h g : commutes ρ (upd_sec h g) (upd_sec h g).
Proof. unfold upd_sec. commutes_go. Qed.

Lemma commutes_new_sec s : commutes ρ (new_sec s) (new_sec s).
Proof. unfold new_sec. commutes_go. Qed.

#[local] Hint Resolve commutes_upd_ent commutes_upd_sec commutes_new_sec : commutes.

Lemma commutes_get_ent x0 : commutes ρ (get_ent x0) (get_ent x0).
Proof. unfold get_ent. commutes_go. Qed.
#[local] Hint Resolve commutes_get_ent : commutes.

Lemma commutes_new_ent x0 : commutes ρ (new_ent x0) (new_ent x0).
Proof. unfold new_ent. commutes_go. Qed.
#[local] Hint Resolve commutes_new_ent : commutes.

Lemma commutes_deref x0 : commutes ρ (deref x0) (deref x0).
Proof. unfold deref. commutes_go. Qed.
#[local] Hint Resolve commutes_deref : commutes.

Lemma commutes_new_list x0 : commutes ρ (new_list x0) (new_list x0).
Proof. unfold new_list. commutes_go. Qed.
#[local] Hint Resolve commutes_new_list : commutes.

Lemma commutes_list_add x0 x1 : commutes ρ (list_add x0 x1) (list_add x0 x1).
Proof. unfold list_add. commutes_go. Qed.
#[local] Hint Resolve commutes_list_add : commutes.

Lemma commutes_list_init x0 : commutes ρ (list_init x0) (list_init x0).
Proof. unfold list_init. commutes_go. Qed.
#[local] Hint Resolve commutes_list_init : commutes.

Lemma commutes_list_first x0 : commutes ρ (list_first x0) (list_first x0).
Proof. unfold list_first. commutes_go. Qed.
#[local] Hint Resolve commutes_list_first : commutes.

Lemma commutes_the_entity x0 x1 : commutes ρ (the_entity x0 x1) (the_entity x0 x1).
Proof. unfold the_entity. commutes_go. Qed.
#[local] Hint Resolve commutes_the_entity : commutes.

Lemma commutes_collection x0 x1 x2 x3 : commutes ρ (collection x0 x1 x2 x3) (collection x0 x1 x2 x3).
Proof. unfold collection. commutes_go. Qed.
#[local] Hint Resolve commutes_collection : commutes.

Lemma commutes_groups_of x0 : commutes ρ (groups_of x0) (groups_of x0).
Proof. apply commutes_collection. Qed.
#[local] Hint Resolve commutes_groups_of : commutes.

Lemma commutes_sources_of x0 : commutes ρ (sources_of x0) (sources_of x0).
Proof. apply commutes_collection. Qed.
#[local] Hint Resolve commutes_sources_of : commutes.

Lemma commutes_data_arrays_of x0 : commutes ρ (data_arrays_of x0) (data_arrays_of x0).
Proof. apply commutes_collection. Qed.
#[local] Hint Resolve commutes_data_arrays_of : commutes.

Lemma commutes_multi_tags_of x0 : commutes ρ (multi_tags_of x0) (multi_tags_of x0).
Proof. apply commutes_collection. Qed.
#[local] Hint Resolve commutes_multi_tags_of : commutes.

Lemma commutes_tags_of x0 : commutes ρ (tags_of x0) (tags_of x0).
Proof. apply commutes_collection. Qed.
#[local] Hint Resolve commutes_tags_of : commutes.

Lemma commutes_features_of x0 : commutes ρ (features_of x0) (features_of x0).
Proof. apply commutes_collection. Qed.
#[local] Hint Resolve commutes_features_of : commutes.

Lemma commutes_blocks_of x0 : commutes ρ (blocks_of x0) (blocks_of x0).
Proof. unfold blocks_of. commutes_go. Qed.
#[local] Hint Resolve commutes_blocks_of : commutes.

Lemma commutes_name_of x0 : commutes ρ (name_of x0) (name_of x0).
Proof. unfold name_of. commutes_go. Qed.
#[local] Hint Resolve commutes_name_of : commutes.

Lemma commutes_type_of x0 : commutes ρ (type_of x0) (type_of x0).
Proof. unfold type_of. commutes_go. Qed.
#[local] Hint Resolve commutes_type_of : commutes.

Lemma commutes_metadata_of x0 : commutes ρ (metadata_of x0) (metadata_of x0).
Proof. unfold metadata_of. commutes_go. Qed.
#[local] Hint Resolve commutes_metadata_of : commutes.

Lemma commutes_item x0 x1 : commutes ρ (item x0 x1) (item x0 x1).
Proof. unfold item. commutes_go. Qed.
#[local] Hint Resolve commutes_item : commutes.

Lemma commutes_check_unused x0 x1 : commutes ρ (check_unused x0 x1) (check_unused x0 x1).
Proof. unfold check_unused. commutes_go. Qed.
#[local] Hint Resolve commutes_check_unused : commutes.

Lemma commutes_create_block x0 x1 : commutes ρ (create_block x0 x1) (create_block x0 x1).
Proof. unfold create_block. commutes_go. Qed.
#[local] Hint Resolve commutes_create_block : commutes.

Lemma commutes_create_group x0 x1 x2 : commutes ρ (create_group x0 x1 x2) (create_group x0 x1 x2).
Proof. unfold create_group. commutes_go. Qed.
#[local] Hint Resolve commutes_create_group : commutes.

Lemma commutes_create_source x0 x1 x2 : commutes ρ (create_source x0 x1 x2) (create_source x0 x1 x2).
Proof. unfold create_source. commutes_go. Qed.
#[local] Hint Resolve commutes_create_source : commutes.

Lemma commutes_create_data_array x0 x1 x2 x3 : commutes ρ (create_data_array x0 x1 x2 x3) (create_data_array x0 x1 x2 x3).
Proof. unfold create_data_array. commutes_go. Qed.
#[local] Hint Resolve commutes_create_data_array : commutes.

Lemma commutes_create_multi_tag x0 x1 x2 x3 : commutes ρ (create_multi_tag x0 x1 x2 x3) (create_multi_tag x0 x1 x2 x3).
Proof. unfold create_multi_tag. commutes_go. Qed.
#[local] Hint Resolve commutes_create_multi_tag : commutes.

Lemma commutes_create_feature x0 x1 x2 : commutes ρ (create_feature x0 x1 x2) (create_feature x0 x1 x2).
Proof. unfold create_feature. commutes_go. Qed.
#[local] Hint Resolve commutes_create_feature : commutes.

Lemma commutes_create_section x0 x1 x2 : commutes ρ (create_section x0 x1 x2) (create_section x0 x1 x2).
Proof. unfold create_section. commutes_go. Qed.
#[local] Hint Resolve commutes_create_section : commutes.

Lemma commutes_create_property x0 x1 x2 : commutes ρ (create_property x0 x1 x2) (create_property x0 x1 x2).
Proof. unfold create_property. commutes_go. Qed.
#[local] Hint Resolve commutes_create_property : commutes.

Lemma commutes_append_dimension x0 x1 : commutes ρ (append_dimension x0 x1) (append_dimension x0 x1).
Proof. unfold append_dimension. commutes_go. Qed.
#[local] Hint Resolve commutes_append_dimension : commutes.

Lemma commutes_upd_dimension x0 x1 x2 : commutes ρ (upd_dimension x0 x1 x2) (upd_dimension x0 x1 x2).
Proof. unfold upd_dimension. commutes_go. Qed.
#[local] Hint Resolve commutes_upd_dimension : commutes.

Lemma commutes_data_arrays_append x0 x1 : commutes ρ (data_arrays_append x0 x1) (data_arrays_append x0 x1).
Proof. unfold data_arrays_append. commutes_go. Qed.
#[local] Hint Resolve commutes_data_arrays_append : commutes.

Lemma commutes_multi_tags_append x0 x1 : commutes ρ (multi_tags_append x0 x1) (multi_tags_append x0 x1).
Proof. unfold multi_tags_append. commutes_go. Qed.
#[local] Hint Resolve commutes_multi_tags_append : commutes.

Lemma commutes_sources_append x0 x1 : commutes ρ (sources_append x0 x1) (sources_append x0 x1).
Proof. unfold sources_append. commutes_go. Qed.
#[local] Hint Resolve commutes_sources_append : commutes.

Lemma commutes_references_extend x0 x1 : commutes ρ (references_extend x0 x1) (references_extend x0 x1).
Proof. unfold references_extend. commutes_go. Qed.
#[local] Hint Resolve commutes_references_extend : commutes.

Lemma commutes_isinstance x0 x1 : commutes ρ (isinstance x0 x1) (isinstance x0 x1).
Proof. unfold isinstance. commutes_go. Qed.
#[local] Hint Resolve commutes_isinstance : commutes.

Lemma commutes_as_entity x0 : commutes ρ (as_entity x0) (as_entity x0).
Proof. unfold as_entity. commutes_go. Qed.
#[local] Hint Resolve commutes_as_entity : commutes.

Lemma commutes_setattr o a g : commutes ρ (setattr o a g) (setattr o a g).
Proof. unfold setattr. commutes_go. Qed.

#[local] Hint Resolve commutes_setattr : commutes.

Lemma commutes_walk p : ∀ o, commutes ρ (walk o p) (walk o p).
Proof.
  induction p as [|[obj_type obj_name] p IH]; intros o; simpl; commutes_go.
Qed.

#[local] Hint Resolve commutes_walk : commutes.

Lemma commutes_get_object_at r : commutes ρ (_get_object_at r) (_get_object_at r).
Proof. unfold _get_object_at. commutes_go. Qed.

#[local] Hint Resolve commutes_get_object_at : commutes.

Lemma commutes_get_or_init_metadata_rec fuel :
  ∀ o r, commutes ρ (_get_or_init_metadata_rec fuel o r)
           (_get_or_init_metadata_rec fuel o r).
Proof.
  induction fuel as [|fuel IH]; intros o r; simpl; commutes_go.
Qed.

#[local] Hint Resolve commutes_get_or_init_metadata_rec : commutes.

Lemma commutes_get_or_init_metadata o r :
  commutes ρ (_get_or_init_metadata o r) (_get_or_init_metadata o r).
Proof. unfold _get_or_init_metadata. commutes_go. Qed.

#[local] Hint Resolve commutes_get_or_init_metadata : commutes.

Lemma commutes_add_annotations a s :
  commutes ρ (_add_annotations a s) (_add_annotations a s).
Proof. unfold _add_annotations. commutes_go. Qed.

#[local] Hint Resolve commutes_add_annotations : commutes.

Lemma commutes_copy_annotations b o r :
  commutes ρ (_copy_annotations b o r) (_copy_annotations (rename_base f b) o r).
Proof. unfold _copy_annotations. simpl. commutes_go. Qed.

Lemma commutes_get_contained_signals o :
  commutes ρ (_get_contained_signals o) (_get_contained_signals o).
Proof. unfold _get_contained_signals. commutes_go. Qed.

Lemma commutes_map_set k v : commutes ρ (map_set k v) (map_set (f k) v).
Proof.
  unfold map_set. apply commutes_modify. intros st. apply ρ_insert.
Qed.

Lemma commutes_get_mapped_object b :
  commutes ρ (_get_mapped_object b) (_get_mapped_object (rename_base f b)).
Proof.
  unfold _get_mapped_object. simpl.
  apply commutes_bind; [|intros ?; commutes_go].
  apply commutes_gets. intros st. apply ρ_lookup.
Qed.

#[local] Hint Resolve commutes_copy_annotations commutes_get_contained_signals
  commutes_map_set commutes_get_mapped_object : commutes.

Lemma commutes_get_mapped_objects l :
  commutes ρ (_get_mapped_objects l) (_get_mapped_objects (rename_base f <$> l)).
Proof.
  unfold _get_mapped_objects. apply commutes_map_m. intros x.
  apply commutes_get_mapped_object.
Qed.

#[local] Hint Resolve commutes_get_mapped_objects : commutes.


Ltac rename_simpl :=
  cbn [rename_base rename_analogsignal rename_irregularlysampledsignal
       rename_epoch rename_event rename_spiketrain rename_unit
       rename_recordingchannelgroup rename_segment rename_block
       Neo.obj_id Neo.name Neo.description Neo.file_origin Neo.annotations
       Neo.asig_base Neo.asig_signal Neo.asig_units Neo.asig_sampling_period
       Neo.asig_t_start Neo.isig_base Neo.isig_signal Neo.isig_units
       Neo.isig_times Neo.ep_base Neo.ep_times Neo.ep_durations Neo.ep_labels
       Neo.ev_base Neo.ev_times Neo.ev_labels Neo.sptr_base Neo.sptr_times
       Neo.sptr_t_start Neo.sptr_t_stop Neo.sptr_waveforms
       Neo.sptr_sampling_period Neo.sptr_left_sweep Neo.ut_base
       Neo.ut_spiketrains Neo.rcg_base Neo.channel_indexes Neo.channel_names
       Neo.coordinates Neo.rcg_units Neo.rcg_analogsignals
       Neo.rcg_irregularlysampledsignals Neo.seg_base Neo.seg_rec_datetime
       Neo.seg_file_datetime Neo.analogsignals Neo.irregularlysampledsignals
       Neo.epochs Neo.events Neo.spiketrains Neo.blk_base Neo.blk_rec_datetime
       Neo.blk_file_datetime Neo.segments Neo.recordingchannelgroups].

Lemma commutes_write_analogsignal (x : Neo.AnalogSignal) r :
  commutes ρ (write_analogsignal x r) (write_analogsignal (rename_analogsignal f x) r).
Proof. unfold write_analogsignal. rename_simpl. commutes_go. Qed.

Lemma commutes_write_irregularlysampledsignal (x : Neo.IrregularlySampledSignal) r :
  commutes ρ (write_irregularlysampledsignal x r)
    (write_irregularlysampledsignal (rename_irregularlysampledsignal f x) r).
Proof. unfold write_irregularlysampledsignal. rename_simpl. commutes_go. Qed.

Lemma commutes_write_epoch (x : Neo.Epoch) r :
  commutes ρ (write_epoch x r) (write_epoch (rename_epoch f x) r).
Proof. unfold write_epoch. rename_simpl. commutes_go. Qed.

Lemma commutes_write_event (x : Neo.Event) r :
  commutes ρ (write_event x r) (write_event (rename_event f x) r).
Proof. unfold write_event. rename_simpl. commutes_go. Qed.

Lemma commutes_write_spiketrain (x : Neo.SpikeTrain) r :
  commutes ρ (write_spiketrain x r) (write_spiketrain (rename_spiketrain f x) r).
Proof. unfold write_spiketrain. rename_simpl. commutes_go. Qed.

Lemma fmap_rename_spiketrains (l : list Neo.SpikeTrain) :
  Neo.sptr_base <$> (rename_spiketrain f <$> l) = rename_base f <$> (Neo.sptr_base <$> l).
Proof. by rewrite <- !list_fmap_compose. Qed.

Lemma fmap_rename_analogsignals (l : list Neo.AnalogSignal) :
  Neo.asig_base <$> (rename_analogsignal f <$> l) = rename_base f <$> (Neo.asig_base <$> l).
Proof. by rewrite <- !list_fmap_compose. Qed.

Lemma fmap_rename_irregularlysampledsignals (l : list Neo.IrregularlySampledSignal) :
  Neo.isig_base <$> (rename_irregularlysampledsignal f <$> l) =
  rename_base f <$> (Neo.isig_base <$> l).
Proof. by rewrite <- !list_fmap_compose. Qed.

Lemma commutes_write_unit (x : Neo.Unit) r :
  commutes ρ (write_unit x r) (write_unit (rename_unit f x) r).
Proof.
  unfold write_unit. rename_simpl. rewrite fmap_rename_spiketrains.
  commutes_go.
Qed.

Lemma commutes_write_channel rcg src nm r idx :
  commutes ρ (write_channel rcg src nm r idx)
    (write_channel (rename_recordingchannelgroup f rcg) src nm r idx).
Proof. unfold write_channel. rename_simpl. commutes_go. Qed.

Lemma commutes_link_signals l src :
  commutes ρ (link_signals l src) (link_signals l src).
Proof. unfold link_signals. commutes_go. Qed.

#[local] Hint Resolve commutes_write_analogsignal
  commutes_write_irregularlysampledsignal commutes_write_epoch
  commutes_write_event commutes_write_spiketrain commutes_write_unit
  commutes_write_channel commutes_link_signals : commutes.

Lemma commutes_write_recordingchannelgroup x r :
  commutes ρ (write_recordingchannelgroup x r)
    (write_recordingchannelgroup (rename_recordingchannelgroup f x) r).
Proof.
  unfold write_recordingchannelgroup. rename_simpl.
  rewrite fmap_rename_analogsignals, fmap_rename_irregularlysampledsignals.
  commutes_go.
Qed.

Lemma commutes_write_segment x r :
  commutes ρ (write_segment x r) (write_segment (rename_segment f x) r).
Proof. unfold write_segment. rename_simpl. commutes_go. Qed.

#[local] Hint Resolve commutes_write_recordingchannelgroup
  commutes_write_segment : commutes.

Lemma commutes_write_block x :
  commutes ρ (write_block x) (write_block (rename_block f x)).
Proof. unfold write_block. rename_simpl. commutes_go. Qed.

Lemma commutes_write_all_blocks l :
  commutes ρ (write_all_blocks l) (write_all_blocks (rename_block f <$> l)).
Proof.
  unfold write_all_blocks. apply commutes_map_m. intros x.
  apply commutes_write_block.
Qed.

End Commutes.



(** ** Determinism of the names *)

Lemma rename_map_lookup f `{!Inj (=) (=) f} st k :
  neo_nix_map (rename_map f st) !! f k = neo_nix_map st !! k.
Proof. unfold rename_map. simpl. apply lookup_kmap. apply _. Qed.

Lemma rename_map_insert f `{!Inj (=) (=) f} st k v :
  set_neo_nix_map (<[f k := v]> (neo_nix_map (rename_map f st))) (rename_map f st) =
  rename_map f (set_neo_nix_map (<[k := v]> (neo_nix_map st)) st).
Proof. unfold rename_map, set_neo_nix_map. simpl. f_equal. by rewrite kmap_insert. Qed.

Lemma write_all_blocks_renamed f `{!Inj (=) (=) f} l :
  commutes (rename_map f) (write_all_blocks l) (write_all_blocks (rename_block f <$> l)).
Proof.
  apply commutes_write_all_blocks; try done.
  - intros st k. by apply rename_map_lookup.
  - intros st k v. by apply rename_map_insert.
Qed.

(** C8: mapping the same trees twice from a fresh store, the second time
    with every source object at another address (the identity keys go
    through an injection [f]), returns the same handles or raises the
    same error, and leaves the same entities, sections and blocks: in
    particular the same names, position for position.  Synthesized names
    depend on nothing but the tree. *)
Theorem synthesized_names_are_deterministic (f : pyid → pyid)
    (neo_blocks : list Neo.Block) :
  Inj (=) (=) f →
  let first_run := write_all_blocks neo_blocks in
  let second_run := write_all_blocks (rename_block f <$> neo_blocks) in
  outcome second_run init_state = outcome first_run init_state ∧
  entities (final second_run init_state) = entities (final first_run init_state) ∧
  sections (final second_run init_state) = sections (final first_run init_state) ∧
  blocks (final second_run init_state) = blocks (final first_run init_state) ∧
  Nix.name <$> entities (final second_run init_state) =
    Nix.name <$> entities (final first_run init_state) ∧
  Nix.sec_name <$> sections (final second_run init_state) =
    Nix.sec_name <$> sections (final first_run init_state).
Proof.
  intros Hf first_run second_run.
  pose proof (write_all_blocks_renamed f neo_blocks init_state) as Hc.
  assert (Hinit : rename_map f init_state = init_state).
  { unfold rename_map, init_state. simpl. by rewrite kmap_empty. }
  rewrite Hinit in Hc. unfold second_run, final, outcome. rewrite Hc. done.
Qed.


(** ** The metadata tree *)










(** Looking an object up does not depend on the path lists. *)
Lemma walk_set_py_lists p o l st :
  walk o p (set_py_lists l st) = (set_py_lists l st, outcome (walk o p) st).
Proof.
  rewrite (commutes_walk (set_py_lists l) ltac:(done) ltac:(done) p o st).
  f_equal. f_equal. symmetry.
  eapply (respects_walk eq); [done | congruence].
Qed.

Lemma walk_readonly p o : respects eq (walk o p).
Proof. readonly. Qed.


Lemma metadata_of_spec o st :
  wp (metadata_of o)
     (λ md st', st' = st ∧ md = metadata_at st o ∧
        ∃ h e, o = PEnt h ∧ entities st !! h = Some e) st.
Proof.
  unfold metadata_of, the_entity, get_ent. wp_go.
  split; [done|]. simpl.
  match goal with H : entities st !! _ = Some _ |- _ => rewrite H end.
  simpl. eauto.
Qed.

Lemma name_of_spec o st :
  wp (name_of o)
     (λ nm st', st' = st ∧ ∃ h e, o = PEnt h ∧ entities st !! h = Some e ∧
        nm = Nix.name e) st.
Proof. unfold name_of, the_entity, get_ent. wp_go. eauto 10. Qed.

Lemma type_of_spec o st :
  wp (type_of o)
     (λ ty st', st' = st ∧ ∃ h e, o = PEnt h ∧ entities st !! h = Some e ∧
        ty = Nix.type e) st.
Proof. unfold type_of, the_entity, get_ent. wp_go. eauto 10. Qed.

Lemma create_section_spec parent nm ty st :
  wp (create_section parent nm ty)
     (λ s st', s = length (sections st) ∧
        st' = set_sections (sections st ++ [Nix.mkSection nm ty parent []]) st) st.
Proof. unfold create_section, new_sec. wp_go. done. Qed.

Lemma list_init_spec r st :
  wp (list_init r)
     (λ r' st', ∃ p, py_lists st !! r = Some p ∧ r' = length (py_lists st) ∧
        st' = set_py_lists (py_lists st ++ [removelast p]) st) st.
Proof. unfold list_init, deref, new_list. wp_go. eauto. Qed.

Lemma get_object_at_spec r st :
  wp (_get_object_at r)
     (λ o st', st' = st ∧ ∃ p, py_lists st !! r = Some p ∧
        walk PFile p st = (st, Ok o)) st.
Proof.
  unfold _get_object_at, deref. wp_go.
  apply wp_readonly; [apply walk_readonly|]. intros o Ho. eauto.
Qed.

(** The last steps of [_get_or_init_metadata]: create the section, attach it. *)
Lemma attach_spec nix_obj parent_metadata st :
  wp (name_of nix_obj ≫= λ nm,
      type_of nix_obj ≫= λ ty,
      create_section parent_metadata nm (ty +:+ ".metadata") ≫= λ s,
      setattr nix_obj "metadata" (Nix.set_metadata (Some s)) ≫= λ _,
      metadata_of nix_obj ≫= λ md,
      match md with
      | Some s => ret s
      | None => raise (AttributeError "metadata")
      end)
     (λ s st', s = length (sections st) ∧
        ∃ h e, nix_obj = PEnt h ∧ entities st !! h = Some e ∧
          st' = set_entities (alter (Nix.set_metadata (Some s)) h (entities st))
                  (set_sections (sections st ++
                     [Nix.mkSection (Nix.name e) (Nix.type e +:+ ".metadata")
                        parent_metadata []]) st)) st.
Proof.
  wp_with name_of_spec. intros nm ? (-> & h & e & -> & He & ->).
  wp_with type_of_spec. intros ty ? (-> & h' & e' & [= <-] & He' & ->).
  rewrite He in He'. injection He' as <-.
  wp_with create_section_spec. intros s ? (-> & ->).
  unfold setattr, the_entity, get_ent, upd_ent. wp_go.
  wp_with metadata_of_spec. intros md ? (-> & -> & _).
  simpl. rewrite list_lookup_alter_eq, He. simpl. apply wp_ret.
  split; [done|]. eauto.
Qed.


Lemma metadata_at_other st h s o :
  o ≠ PEnt h →
  metadata_at (set_entities (alter (Nix.set_metadata (Some s)) h (entities st)) st) o =
  metadata_at st o.
Proof.
  intros Hne. destruct o as [|h'|]; simpl; try done.
  rewrite list_lookup_alter_ne; [done|]. congruence.
Qed.

Lemma ensured_attached h ec obj_path st sc p parent :
  metadata_at st (PEnt h) = None →
  py_lists st !! obj_path = Some p →
  length (sections st) ≤ length (sections sc) →
  entities sc !! h = Some ec →
  (if bool_decide (length p ≤ 1) then parent = None
   else ∃ obj_parent pm,
     walk PFile (removelast p) st = (st, Ok obj_parent) ∧
     parent = Some pm ∧ metadata_at sc obj_parent = Some pm) →
  ensured (PEnt h) obj_path st (length (sections sc))
    (set_entities
       (alter (Nix.set_metadata (Some (length (sections sc)))) h (entities sc))
       (set_sections
          (sections sc ++
             [Nix.mkSection (Nix.name ec) (Nix.type ec +:+ ".metadata") parent []])
          sc)).
Proof.
  intros Hmd Hp Hlen Hec Hparent. unfold ensured. rewrite Hmd. split.
  { simpl. by rewrite list_lookup_alter_eq, Hec. }
  split. { apply lookup_ge_None. lia. }
  eexists p, _, h, _. split; [done|]. split.
  { simpl. by apply list_lookup_middle. }
  split; [done|]. split.
  { simpl. by rewrite list_lookup_alter_eq, Hec. }
  split; [done|]. split; [done|]. simpl.
  destruct (bool_decide (length p ≤ 1)); [done|].
  destruct Hparent as (obj_parent & pm & Hwalk & -> & Hpm).
  exists obj_parent, pm. split; [done|]. split; [done|].
  intros Hne.
  rewrite <- Hpm.
  apply (metadata_at_other
    (set_sections (sections sc ++ [_]) sc) h (length (sections sc)) obj_parent Hne).
Qed.


Lemma walk_lists_irrelevant p o l st r :
  walk o p (set_py_lists l st) = (set_py_lists l st, Ok r) →
  walk o p st = (st, Ok r).
Proof.
  rewrite walk_set_py_lists. intros [= Hr].
  pose proof (walk_readonly p o st) as Hst. unfold final, outcome in *.
  destruct (walk o p st) as [st' res]; simpl in *. by subst.
Qed.

Lemma grows_sections_length st st' :
  grows st st' → length (sections st) ≤ length (sections st').
Proof.
  intros Hg. destruct (sections st) as [|x l] eqn:Hs using rev_ind; [simpl; lia|].
  clear IHl.
  destruct (ev_sections _ _ _ _ Hg (length l) x) as (x' & Hx' & _).
  { rewrite Hs. by apply list_lookup_middle. }
  apply lookup_lt_Some in Hx'. rewrite length_app. simpl. lia.
Qed.

Lemma get_or_init_metadata_rec_ensures fuel : ∀ nix_obj obj_path st,
  wp (_get_or_init_metadata_rec fuel nix_obj obj_path)
     (ensured nix_obj obj_path st) st.
Proof.
  induction fuel as [|fuel IH]; intros nix_obj obj_path st.
  - cbn [_get_or_init_metadata_rec].
    wp_with metadata_of_spec. intros md ? (-> & -> & h & e & -> & He).
    destruct (metadata_at st (PEnt h)) as [s0|] eqn:Hmd.
    { apply wp_ret. unfold ensured. by rewrite Hmd. }
    unfold deref. wp_go.
    wp_use attach_spec. intros s st' (-> & h' & e' & [= <-] & He' & ->).
    eapply ensured_attached; eauto.
    match goal with H : bool_decide _ = true |- _ => by rewrite H end.
  - cbn [_get_or_init_metadata_rec].
    wp_with metadata_of_spec. intros md ? (-> & -> & h & e & -> & He).
    destruct (metadata_at st (PEnt h)) as [s0|] eqn:Hmd.
    { apply wp_ret. unfold ensured. by rewrite Hmd. }
    unfold deref at 1. wp_go.
    + wp_use attach_spec. intros s st' (-> & h' & e' & [= <-] & He' & ->).
      eapply ensured_attached; eauto.
      match goal with H : bool_decide _ = true |- _ => by rewrite H end.
    + wp_with list_init_spec. intros r ? (p & Hp & -> & ->).
      assert (p = l) as -> by congruence.
      wp_with get_object_at_spec. intros obj_parent ? (-> & p' & Hp' & Hwalk).
      simpl in Hp'. rewrite list_lookup_middle in Hp' by done.
      injection Hp' as <-. apply walk_lists_irrelevant in Hwalk.
      wp_with list_init_spec. intros r' ? (p2 & Hp2 & -> & ->).
      apply wp_bind. eapply (wp_frame grows); [by_grows|].
      wp_use IH. intros pm sc Hens Hg. apply wp_ret.
      wp_use attach_spec. intros s st' (-> & h' & e' & [= <-] & He' & ->).
      eapply ensured_attached; eauto.
      * by apply grows_sections_length in Hg.
      * match goal with H : bool_decide _ = false |- _ => rewrite H end.
        exists obj_parent, pm. split; [done|]. split; [done|]. apply Hens.
Qed.

Lemma get_or_init_metadata_ensures nix_obj obj_path st :
  wp (_get_or_init_metadata nix_obj obj_path) (ensured nix_obj obj_path st) st.
Proof.
  unfold _get_or_init_metadata. wp_go. apply get_or_init_metadata_rec_ensures.
Qed.


(** *** The countdown never runs out *)










(** ** The arrays of a signal *)

Lemma md_same_refl e : md_same e e.
Proof. split; [apply ent_grows_refl|done]. Qed.

Lemma md_same_trans a b c : md_same a b → md_same b c → md_same a c.
Proof.
  intros [G1 M1] [G2 M2]. split; [by eapply ent_grows_trans|congruence].
Qed.

Ltac md_same_ptac :=
  first [ apply md_same_refl
        | eapply md_same_trans; eassumption
        | unfold update_ok;
          let e := fresh "e" in
          intros e; split; [revert e; solve_ent_grows|reflexivity] ].

Ltac md_same_respects :=
  evolves_respects md_same (λ _ : pyid, True) md_same_ptac.

Ltac same_size_respects :=
  respects_with same_size (λ _ : pyid, True)
    (λ _ : Nix.Entity → Nix.Entity, True)
    ltac:(intros; unfold same_size in *; simpl; rewrite ?length_alter;
          solve [done | congruence]).

Lemma sized_trans (R : State → State → Prop) :
  (∀ a b c, R a b → R b c → R a c) →
  ∀ a b c, sized R a b → sized R b c → sized R a c.
Proof.
  intros HR a b c [R1 S1] [R2 S2]. split; [by eapply HR|].
  unfold same_size in *. congruence.
Qed.

Lemma respects_sized (R : State → State → Prop) {A} (m : M A) :
  respects R m → respects same_size m → respects (sized R) m.
Proof. intros H1 H2 st. split; [apply H1|apply H2]. Qed.

Lemma create_data_array_exact parent nm ty d st :
  wp (create_data_array parent nm ty d)
     (λ da st', da = length (entities st) ∧
        length (entities st') = S (length (entities st)) ∧
        entities st' !! da = Some (new_data_array nm ty d)) st.
Proof.
  unfold create_data_array. wp_unfold. wp_go.
  split; [done|]. split; simpl.
  - rewrite length_alter, length_app. simpl. lia.
  - eapply lookup_created. eassumption.
Qed.

(** Carry [R s0 current], held as [HR], over the next step. *)
Ltac wp_carry R Htrans resp HR :=
  eapply (wp_bind_rel R _ _ _ _ _ Htrans HR);
  [ resp | clear HR; intros ? ? HR ].

Ltac steady_respects :=
  apply respects_sized; [md_same_respects|same_size_respects].

Lemma steady_trans a b c :
  sized (evolves md_same (λ _, True)) a b →
  sized (evolves md_same (λ _, True)) b c →
  sized (evolves md_same (λ _, True)) a c.
Proof.
  apply sized_trans. intros ? ? ?. apply evolves_trans; md_same_ptac.
Qed.

Lemma channel_written nm ty seg idx d st da s1 s2 :
  da = length (entities st) →
  length (entities s1) = S (length (entities st)) →
  entities s1 !! da = Some (new_data_array (nm +:+ "." +:+ pretty idx) ty d) →
  evolves md_same (λ _, True) st s1 →
  sized (evolves md_same (λ _, True)) s1 s2 →
  channels_written nm ty seg idx st [da]
    (set_entities (alter (Nix.set_metadata (Some seg)) da (entities s2)) s2).
Proof.
  intros -> Hlen Hda H01 [H12 Hsz]. unfold same_size in Hsz.
  split; [done|]. split; [simpl; rewrite length_alter; lia|]. split.
  - pose proof (evolves_trans md_same (λ _, True) md_same_trans
                  _ _ _ H01 H12) as H02.
    destruct H02 as [E S B Mp L]. constructor; simpl; try done.
    intros h e He. destruct (E _ _ He) as (e' & He' & G).
    exists e'. split; [|done].
    rewrite list_lookup_alter_ne; [done|].
    apply lookup_lt_Some in He. lia.
  - intros i da [-> <-]%list_lookup_singleton_Some.
    destruct (ev_entities _ _ _ _ H12 _ _ Hda) as (e2 & He2 & [G M]).
    exists (Nix.set_metadata (Some seg) e2).
    split; [by simpl; rewrite list_lookup_alter_eq, He2|].
    destruct G. simpl in *. rewrite Nat.add_0_r.
    repeat split; congruence.
Qed.

Lemma channels_written_cons nm ty seg k st da s1 das s2 :
  channels_written nm ty seg k st [da] s1 →
  channels_written nm ty seg (S k) s1 das s2 →
  channels_written nm ty seg k st (da :: das) s2.
Proof.
  intros (Hda & Hl1 & H01 & Hnew1) (Hdas & Hl2 & H12 & Hnew2).
  simpl in Hda, Hl1. injection Hda as ->.
  split; [|split; [|split]].
  - simpl. f_equal. rewrite Hdas at 1. f_equal. lia.
  - simpl. lia.
  - eapply evolves_trans; [apply md_same_trans|done..].
  - intros [|i] da' Hi; simpl in Hi.
    + injection Hi as <-.
      destruct (Hnew1 0 _ eq_refl) as (e & He & Hk & Hn & Ht & Hm).
      destruct (ev_entities _ _ _ _ H12 _ _ He) as (e' & He' & [G M]).
      exists e'. destruct G. repeat split; congruence.
    + destruct (Hnew2 _ _ Hi) as (e & He & Hk & Hn & Ht & Hm).
      exists e. repeat split; try done.
      rewrite Hn. do 3 f_equal. lia.
Qed.

Lemma wp_channels {A} (body : nat * A → M Nix.handle) nm ty seg :
  (∀ idx x st,
     wp (body (idx, x))
        (λ da st', channels_written nm ty seg idx st [da] st') st) →
  ∀ xs k st,
    wp (map_m body (enumerate_from k xs))
       (λ das st', length das = length xs ∧
          channels_written nm ty seg k st das st') st.
Proof.
  intros Hbody. induction xs as [|x xs IH]; intros k st.
  - apply wp_ret. split; [done|]. split; [done|]. split; [simpl; lia|].
    split; [apply evolves_refl, md_same_refl|]. by intros i da.
  - change (enumerate_from k (x :: xs))
      with ((k, x) :: enumerate_from (S k) xs).
    cbn [map_m]. wp_with Hbody. intros da s1 H1.
    wp_with IH. intros das s2 [Hl H2]. apply wp_ret.
    split; [simpl; lia|]. by eapply channels_written_cons.
Qed.

(** One turn of the loop over the columns. *)
Ltac channel_body :=
  let HR := fresh "HR" in let HS := fresh "HS" in
  intros ? ? ?; cbv beta iota;
  lazymatch goal with
  | |- wp _ _ ?st =>
      assert (HR : evolves md_same (λ _, True) st st)
        by apply evolves_refl, md_same_refl
  end;
  wp_keep_spec md_same (λ _ : pyid, True) md_same_ptac HR create_data_array_exact;
  intros (-> & ? & ?);
  lazymatch goal with
  | |- wp _ _ ?s1 =>
      assert (HS : sized (evolves md_same (λ _, True)) s1 s1)
        by (split; [apply evolves_refl, md_same_refl|done])
  end;
  repeat lazymatch goal with
  | |- wp (?m ≫= _) _ _ =>
      lazymatch m with
      | upd_ent _ (Nix.set_metadata _) => fail
      | _ => wp_carry (sized (evolves md_same (λ _ : pyid, True)))
               steady_trans steady_respects HS
      end
  end;
  unfold upd_ent; wp_go;
  eapply channel_written; eauto.

Lemma get_object_at_run r st :
  wp (_get_object_at r)
     (λ o st', st' = st ∧ _get_object_at r st = (st, Ok o)) st.
Proof. apply wp_readonly; [apply get_object_at_readonly|]. eauto. Qed.

Lemma wp_any {A} (m : M A) st : wp m (λ _ _, True) st.
Proof. unfold wp. by destruct (m st) as [? [?|?]]. Qed.

Lemma name_or_spec nm synth st :
  wp (name_or nm synth)
     (λ r _, truthy_str nm = true → r = default "" nm) st.
Proof.
  unfold name_or. destruct (truthy_str nm).
  - by apply wp_ret.
  - eapply wp_mono; [apply wp_any|]. done.
Qed.

Lemma metadata_at_evolves K a b o s :
  evolves md_same K a b → metadata_at a o = Some s → metadata_at b o = Some s.
Proof.
  intros H. destruct o as [|h|]; simpl; try done.
  destruct (entities a !! h) as [e|] eqn:He; [|done]. simpl.
  destruct (ev_entities _ _ _ _ H _ _ He) as (e' & -> & [_ M]). simpl.
  congruence.
Qed.

Lemma sized_grows_trans a b c :
  sized grows a b → sized grows b c → sized grows a c.
Proof.
  apply sized_trans. intros ? ? ?. apply evolves_trans; grows_ptac.
Qed.

Ltac sized_grows_respects :=
  apply respects_sized; [by_grows|same_size_respects].

Lemma signal_written_intro sig parent_path st parent_group nm pm s5 s7 s8 das k v :
  _get_object_at parent_path st = (st, Ok parent_group) →
  (truthy_str (Neo.name (signal_base sig)) = true →
     nm = default "" (Neo.name (signal_base sig))) →
  sized grows st s5 →
  metadata_at s5 parent_group = Some pm →
  sized (evolves md_same (λ _, True))
    (set_sections
       (sections s5 ++
          [Nix.mkSection nm (signal_type sig +:+ ".metadata") (Some pm) []]) s5)
    s7 →
  length das = length (Neo.transpose (signal_array sig)) →
  channels_written nm (signal_type sig) (length (sections s5)) 0 s7 das s8 →
  signal_written sig parent_path st das
    (set_neo_nix_map (<[k := v]> (neo_nix_map s8)) s8).
Proof.
  intros Hrun Hnm [Hg Hsz1] Hmd [H67 Hsz2] Hlen (Hdas & Hl & H78 & Hnew).
  unfold same_size in *. simpl in Hsz2.
  assert (length das = Neo.ncols (signal_array sig)) as Hc.
  { rewrite Hlen. unfold Neo.transpose. by rewrite length_fmap, length_seq. }
  pose proof (evolves_trans md_same (λ _, True) md_same_trans _ _ _ H67 H78)
    as H68.
  destruct (ev_sections _ _ _ _ H68 (length (sections s5))
              (Nix.mkSection nm (signal_type sig +:+ ".metadata") (Some pm) []))
    as (sec & Hsec & [Sn St Sp _]).
  { simpl. by apply list_lookup_middle. }
  simpl in Sn, St, Sp.
  split; [rewrite Hdas, Hc; f_equal; congruence|].
  split; [simpl; lia|].
  exists parent_group, pm, (length (sections s5)), sec.
  split; [done|]. split.
  { change (metadata_at s8 parent_group = Some pm).
    eapply metadata_at_evolves; [exact H68|]. exact Hmd. }
  split; [by apply grows_sections_length|].
  split; [done|]. split; [done|]. split; [done|].
  split; [intros Ht; rewrite Sn; auto|].
  intros idx da Hda. destruct (Hnew _ _ Hda) as (e & He & Hk & Hn & Hty & Hm).
  exists e. rewrite Sn. repeat split; done.
Qed.

Ltac signal_spec :=
  let HR := fresh "HR" in let HS := fresh "HS" in
  let Hrun := fresh "Hrun" in let Hname := fresh "Hname" in
  let Hmd := fresh "Hmd" in
  wp_with get_object_at_run; intros ? ? [-> Hrun];
  lazymatch goal with
  | |- wp _ _ ?st =>
      assert (HR : sized grows st st)
        by (split; [apply evolves_refl, ent_grows_refl|done])
  end;
  wp_carry (sized grows) sized_grows_trans sized_grows_respects HR;
  wp_carry (sized grows) sized_grows_trans sized_grows_respects HR;
  eapply (wp_bind_both (sized grows) _ _ _ _ _ _ sized_grows_trans HR);
  [ sized_grows_respects | apply name_or_spec | clear HR; intros ? ? HR Hname ];
  eapply (wp_bind_both (sized grows) _ _ _ _ _ _ sized_grows_trans HR);
  [ sized_grows_respects | apply get_or_init_metadata_ensures
  | clear HR; intros ? ? HR [Hmd _] ];
  wp_with create_section_spec; intros ? ? [-> ->];
  lazymatch goal with
  | |- wp _ _ ?s6 =>
      assert (HS : sized (evolves md_same (λ _, True)) s6 s6)
        by (split; [apply evolves_refl, md_same_refl|done])
  end;
  wp_carry (sized (evolves md_same (λ _ : pyid, True)))
    steady_trans steady_respects HS;
  wp_carry (sized (evolves md_same (λ _ : pyid, True)))
    steady_trans steady_respects HS;
  apply wp_bind; eapply wp_mono; [apply wp_channels; channel_body|];
  cbv beta; intros ? ? [? ?];
  unfold map_set; wp_go;
  eapply signal_written_intro; eauto.

Lemma write_analogsignal_spec (anasig : Neo.AnalogSignal) parent_path st :
  wp (write_analogsignal anasig parent_path)
     (signal_written (Analog anasig) parent_path st) st.
Proof. unfold write_analogsignal. signal_spec. Qed.

Lemma write_irregularlysampledsignal_spec
    (irsig : Neo.IrregularlySampledSignal) parent_path st :
  wp (write_irregularlysampledsignal irsig parent_path)
     (signal_written (Irregular irsig) parent_path st) st.
Proof. unfold write_irregularlysampledsignal. signal_spec. Qed.

(** C3: writing an AnalogSignal or an IrregularlySampledSignal whose array
    has C columns creates exactly C entities, the DataArrays returned; the
    one of column [idx] is named [<name>.<idx>], where [<name>] is the name
    of the signal when it has one; and the metadata of every one of them is
    one and the same section, created by this call under the metadata
    section of the parent Group. *)
Theorem signal_channels_share_one_section (sig : signal)
    (parent_path : listref) (st st' : State) (das : list Nix.handle) :
  write_signal sig parent_path st = (st', Ok das) →
  signal_written sig parent_path st das st'.
Proof.
  intros Hrun. destruct sig as [anasig|irsig]; simpl in Hrun.
  - exact (wp_run _ _ _ _ _ (write_analogsignal_spec anasig parent_path st) Hrun).
  - exact (wp_run _ _ _ _ _
             (write_irregularlysampledsignal_spec irsig parent_path st) Hrun).
Qed.

(** ** The times of a spike train *)

(** C7, at a spike train that starts at [0.0 s]: the spike train has a
    [t_start], the call returns its MultiTag, and the metadata section of
    the tag holds [t_stop], rescaled to the unit of the times, and nothing
    else: no [t_start] was stored. *)
Theorem zero_t_start_is_not_stored :
  Neo.sptr_t_start sample_spiketrain = Some (Neo.Build_Quantity 0 "s") ∧
  ∃ st' mt e s sec,
    write_spiketrain sample_spiketrain segment_path sample_state = (st', Ok mt) ∧
    entities st' !! mt = Some e ∧
    Nix.metadata e = Some s ∧
    sections st' !! s = Some sec ∧
    Nix.props sec =
      [("t_stop",
        [VNumber (Neo.magnitude
                    (rescale (Neo.sptr_t_stop sample_spiketrain)
                       (Neo.array_units (Neo.sptr_times sample_spiketrain))))])].
Proof.
  split; [done|].
  eexists _, _, _, _, _. split; [|split; [|split; [|split]]].
  - vm_compute. reflexivity.
  - vm_compute. reflexivity.
  - reflexivity.
  - vm_compute. reflexivity.
  - reflexivity.
Qed.

(** ** Names *)

Lemma name_or_rule explicit synth (Q : string → State → Prop) st :
  wp synth Q st →
  wp (name_or explicit synth)
     (λ nm st', if truthy_str explicit
                then nm = default "" explicit else Q nm st') st.
Proof.
  intros Hs. unfold name_or. destruct (truthy_str explicit); [|done].
  by apply wp_ret.
Qed.

Lemma list_first_spec r st :
  wp (list_first r)
     (λ r0 st', ∃ s p, py_lists st !! r = Some (s :: p) ∧
        r0 = length (py_lists st) ∧
        st' = set_py_lists (py_lists st ++ [[s]]) st) st.
Proof. unfold list_first, deref, new_list. wp_go. eauto. Qed.

Lemma named_from_creation e0 s h s0 s1 :
  created e0 s h s0 → grows s0 s1 → named h s1 (Nix.name e0).
Proof.
  intros (_ & _ & He) Hg.
  destruct (ev_entities _ _ _ _ Hg _ _ He) as (e & He' & G).
  exists e. split; [done|]. by destruct G.
Qed.

(** The synthesis of a name reads the parent and leaves the file alone. *)
Ltac synth_spec :=
  unfold groups_of, sources_of, data_arrays_of, multi_tags_of, collection,
    name_of, the_entity, get_ent;
  wp_go; eauto 10.

(** The name is [explicit], or it is read from [obj] as it is in [st]. *)
Ltac name_step st obj tag proj :=
  apply wp_bind; eapply wp_mono;
  [ apply (name_or_rule _ _ (λ nm _, ∃ h pe, obj = PEnt h ∧
       entities st !! h = Some pe ∧
       nm = Nix.name pe +:+ tag +:+ pretty (length (proj pe))));
    synth_spec
  | cbv beta ].

(** From the creation of the object to the end of the routine. *)
Ltac named_tail create_head create_spec :=
  let s0 := fresh "s0" in let Hc := fresh "Hc" in let HR := fresh "HR" in
  wp_skip_to create_head;
  wp_with create_spec; intros ? s0 Hc;
  start_grows s0 HR;
  wp_keep_to @ret ent_grows (λ _ : pyid, True) grows_ptac HR;
  apply wp_ret;
  eexists; split; [eassumption|];
  exact (named_from_creation _ _ _ _ _ Hc HR).

(** The name is that of the rule, read from the object at the parent
    path. *)
Ltac from_parent :=
  let Hnm := fresh "Hnm" in
  intros ? ? Hnm;
  lazymatch goal with
  | Hp : py_lists ?st !! ?parent_path = Some ?p |- _ =>
      lazymatch type of Hnm with
      | if truthy_str (Neo.name ?x) then ?nm = _ else _ =>
          lazymatch goal with
          | |- wp _ (λ _ _, ∃ _, sink_name _ ?c _ _ ∧ _) _ =>
              assert (sink_name named_after c st nm)
                by (unfold sink_name; simpl; destruct (truthy_str _);
                    [ exact Hnm
                    | destruct Hnm as (? & ? & -> & ? & ->);
                      eexists p, _, _; simpl;
                      split; [eassumption|]; split; [eassumption|];
                      split; [eassumption|]; reflexivity ])
          end
      end
  end.

Lemma write_segment_named (x : Neo.Segment) parent_path st :
  wp (write_segment x parent_path)
     (λ h st', ∃ nm,
        sink_name named_after (Under (WriteSegment x) parent_path) st nm ∧
        named h st' nm) st.
Proof.
  unfold write_segment.
  wp_with get_object_at_spec. intros parent ? (-> & p & Hp & Hwalk).
  name_step st parent ".Segment" Nix.groups. from_parent.
  named_tail @create_group create_group_spec.
Qed.

Lemma write_recordingchannelgroup_named (x : Neo.RecordingChannelGroup)
    parent_path st :
  wp (write_recordingchannelgroup x parent_path)
     (λ h st', ∃ nm,
        sink_name named_after
          (Under (WriteRecordingChannelGroup x) parent_path) st nm ∧
        named h st' nm) st.
Proof.
  unfold write_recordingchannelgroup.
  wp_with get_object_at_spec. intros parent ? (-> & p & Hp & Hwalk).
  name_step st parent ".RecordingChannelGroup" Nix.sources. from_parent.
  named_tail @create_source create_source_spec.
Qed.

Lemma write_unit_named (x : Neo.Unit) parent_path st :
  wp (write_unit x parent_path)
     (λ h st', ∃ nm,
        sink_name named_after (Under (WriteUnit x) parent_path) st nm ∧
        named h st' nm) st.
Proof.
  unfold write_unit.
  wp_with get_object_at_spec. intros parent ? (-> & p & Hp & Hwalk).
  name_step st parent ".Unit" Nix.sources. from_parent.
  named_tail @create_source create_source_spec.
Qed.

(** The parent and the block that encloses it, both looked up in [st]. *)
Tactic Notation "parent_and_block" ident(parent) ident(blk) :=
  let Hp := fresh "Hp" in let Hp' := fresh "Hp" in
  let Hq := fresh "Hq" in
  let Hwalk := fresh "Hwalk" in let Hblock := fresh "Hblock" in
  wp_with get_object_at_spec; intros parent ? (-> & ? & Hp & Hwalk);
  wp_with list_first_spec; intros ? ? (? & ? & Hp' & -> & ->);
  rewrite Hp in Hp'; injection Hp' as ->;
  wp_with get_object_at_spec; intros blk ? (-> & ? & Hq & Hblock);
  simpl in Hq; rewrite list_lookup_middle in Hq by done;
  injection Hq as <-; apply walk_lists_irrelevant in Hblock.

Lemma write_epoch_named (x : Neo.Epoch) parent_path st :
  wp (write_epoch x parent_path)
     (λ h st', ∃ nm,
        sink_name named_after (Under (WriteEpoch x) parent_path) st nm ∧
        named h st' nm) st.
Proof.
  unfold write_epoch. parent_and_block parent blk.
  name_step st parent ".Epoch" Nix.multi_tags. from_parent.
  named_tail @create_multi_tag create_multi_tag_spec.
Qed.

Lemma write_event_named (x : Neo.Event) parent_path st :
  wp (write_event x parent_path)
     (λ h st', ∃ nm,
        sink_name named_after (Under (WriteEvent x) parent_path) st nm ∧
        named h st' nm) st.
Proof.
  unfold write_event. parent_and_block parent blk.
  name_step st parent ".Event" Nix.multi_tags. from_parent.
  named_tail @create_multi_tag create_multi_tag_spec.
Qed.

Lemma write_spiketrain_named (x : Neo.SpikeTrain) parent_path st :
  wp (write_spiketrain x parent_path)
     (λ h st', ∃ nm,
        sink_name named_after (Under (WriteSpikeTrain x) parent_path) st nm ∧
        named h st' nm) st.
Proof.
  unfold write_spiketrain. parent_and_block parent blk.
  name_step st blk ".SpikeTrain" Nix.multi_tags. from_parent.
  named_tail @create_multi_tag create_multi_tag_spec.
Qed.

Ltac signal_named :=
  wp_skip_to @map_m;
  apply wp_bind; eapply wp_mono; [apply wp_channels; channel_body|];
  cbv beta;
  let Hnew := fresh "Hnew" in
  intros ? ? [_ (_ & _ & _ & Hnew)];
  unfold map_set; wp_go;
  eexists; split; [eassumption|];
  let Hda := fresh "Hda" in
  intros ? ? Hda;
  destruct (Hnew _ _ Hda) as (? & ? & _ & ? & _);
  eexists; split; [eassumption|done].

Lemma write_analogsignal_named (x : Neo.AnalogSignal) parent_path st :
  wp (write_analogsignal x parent_path)
     (λ das st', ∃ nm,
        sink_name named_after (Under (WriteAnalogSignal x) parent_path) st nm ∧
        ∀ idx da, das !! idx = Some da →
          named da st' (nm +:+ "." +:+ pretty idx)) st.
Proof.
  unfold write_analogsignal. parent_and_block parent blk.
  name_step st blk ".AnalogSignal" Nix.data_arrays. from_parent.
  signal_named.
Qed.

Lemma write_irregularlysampledsignal_named
    (x : Neo.IrregularlySampledSignal) parent_path st :
  wp (write_irregularlysampledsignal x parent_path)
     (λ das st', ∃ nm,
        sink_name named_after
          (Under (WriteIrregularlySampledSignal x) parent_path) st nm ∧
        ∀ idx da, das !! idx = Some da →
          named da st' (nm +:+ "." +:+ pretty idx)) st.
Proof.
  unfold write_irregularlysampledsignal. parent_and_block parent blk.
  name_step st blk ".IrregularlySampledSignal" Nix.data_arrays. from_parent.
  signal_named.
Qed.

Lemma write_block_named (x : Neo.Block) st :
  wp (write_block x)
     (λ h st', ∃ nm,
        sink_name named_after (OfBlock x) st nm ∧ named h st' nm) st.
Proof.
  unfold write_block.
  apply wp_bind. eapply wp_mono.
  { apply (name_or_rule _ _
             (λ nm _, nm = "neo.Block" +:+ pretty (length (blocks st)))).
    wp_go. done. }
  cbv beta. intros nm s Hnm.
  assert (sink_name named_after (OfBlock x) st nm)
    by (unfold sink_name; simpl; by destruct (truthy_str _)).
  named_tail @create_block create_block_spec.
Qed.

(** C4, as the writer has it: an entity with a non-empty name gives that
    name to its sink object, and a signal gives it, followed by the index,
    to each of its arrays.  The name of an unnamed entity is
    ["<name>.<KindTag><count>"], where name and count are those of the
    object at the parent path and of its groups (Segment), its sources
    (RecordingChannelGroup, Unit) or its multi tags (Epoch, Event); for a
    signal and for a SpikeTrain they are those of the enclosing Block and
    of its data arrays, respectively its multi tags; an unnamed Block is
    named ["neo.Block<count>"] after the number of blocks of the file. *)
Theorem sink_names_follow_the_routines (c : conversion) (st st' : State)
    (hs : list Nix.handle) :
  convert c st = (st', Ok hs) →
  ∃ nm, sink_name named_after c st nm ∧ result_named c hs st' nm.
Proof.
  intros Hrun.
  apply (wp_run (convert c)
           (λ hs st', ∃ nm, sink_name named_after c st nm ∧
                        result_named c hs st' nm) st st' hs); [|done].
  destruct c as [x|[x|x|x|x|x|x|x|x] p]; simpl.
  - wp_with write_block_named. intros h s (nm & ? & ?). apply wp_ret. eauto.
  - wp_with write_segment_named. intros h s (nm & ? & ?). apply wp_ret. eauto.
  - wp_with write_recordingchannelgroup_named.
    intros h s (nm & ? & ?). apply wp_ret. eauto.
  - wp_use write_analogsignal_named. done.
  - wp_use write_irregularlysampledsignal_named. done.
  - wp_with write_epoch_named. intros h s (nm & ? & ?). apply wp_ret. eauto.
  - wp_with write_event_named. intros h s (nm & ? & ?). apply wp_ret. eauto.
  - wp_with write_spiketrain_named. intros h s (nm & ? & ?). apply wp_ret. eauto.
  - wp_with write_unit_named. intros h s (nm & ? & ?). apply wp_ret. eauto.
Qed.

(** * Further properties of the writer *)

(** ** What a conversion leaves as it was *)

(** X1: a conversion routine, whether it returns or raises, only adds to
    the file: every entity keeps its kind, name, type, data and positions,
    and its collections keep their members in place; every section keeps
    its name, type, parent and properties; the blocks of the file and the
    path lists stay where they were. *)
Theorem routines_only_append (r : routine) (parent_path : listref)
    (neo_blocks : list Neo.Block) (st : State) :
  grows st (final (call r parent_path) st) ∧
  grows st (final (write_all_blocks neo_blocks) st).
Proof.
  split; [apply call_grows|].
  revert st. change (respects grows (write_all_blocks neo_blocks)).
  unfold write_all_blocks. by_grows.
Qed.

Lemma get_mapped_objects_readonly l : respects eq (_get_mapped_objects l).
Proof. readonly. Qed.

(** X2: the lookups of the writer change nothing in the file or in the
    identity table, whether they find what they are asked for or raise. *)
Theorem lookups_change_nothing (path : listref) (neo_objects : list Neo.Base)
    (obj : PyObj) (st : State) :
  final (_get_object_at path) st = st ∧
  final (_get_mapped_objects neo_objects) st = st ∧
  final (_get_contained_signals obj) st = st.
Proof.
  split; [|split]; symmetry.
  - apply get_object_at_readonly.
  - apply get_mapped_objects_readonly.
  - apply get_contained_signals_readonly.
Qed.

(** ** Metadata sections are created once *)

Lemma get_or_init_metadata_attached nix_obj obj_path st :
  wp (_get_or_init_metadata nix_obj obj_path)
     (λ s st', metadata_of nix_obj st' = (st', Ok (Some s))) st.
Proof.
  unfold _get_or_init_metadata. wp_go.
  match goal with |- wp (_ ?fuel _ _) _ _ => destruct fuel end;
    cbn [_get_or_init_metadata_rec].
  all: apply wp_bind; apply wp_readonly; [apply metadata_of_readonly|];
    intros [s|] Hmd; [by apply wp_ret|].
  all: wp_skip_to @metadata_of.
  all: apply wp_bind; apply wp_readonly; [apply metadata_of_readonly|];
    intros [s|] Hmd'; [by apply wp_ret|by apply wp_raise].
Qed.

(** ** The identity table *)

Lemma map_kept_length (s0 st : State) :
  evolves (λ _ _ : Nix.Entity, True) (λ _ : pyid, False) s0 st →
  neo_nix_map st = neo_nix_map s0.
Proof.
  intros H. apply map_eq. intros k. apply (ev_map _ _ _ _ H). tauto.
Qed.

(** Up to the assignment to the table, and from there to the end. *)
Ltac table_entry :=
  let HR := fresh "HR" in let HR2 := fresh "HR" in
  lazymatch goal with
  | |- wp _ _ ?st =>
      assert (HR : evolves (λ _ _ : Nix.Entity, True) (λ _ : pyid, False) st st)
        by (by apply evolves_refl)
  end;
  wp_keep_to map_set (λ _ _ : Nix.Entity, True) (λ _ : pyid, False)
    ltac:(by unfold update_ok) HR;
  unfold map_set at 1; apply wp_bind, wp_modify;
  lazymatch goal with
  | |- wp _ _ ?s =>
      assert (HR2 : evolves (λ _ _ : Nix.Entity, True) (λ _ : pyid, False) s s)
        by (by apply evolves_refl)
  end;
  wp_keep_to @ret (λ _ _ : Nix.Entity, True) (λ _ : pyid, False)
    ltac:(by unfold update_ok) HR2;
  apply wp_ret;
  etrans; [exact (map_kept_length _ _ HR2)|];
  simpl; f_equal; exact (map_kept_length _ _ HR).

Lemma write_spiketrain_recorded (x : Neo.SpikeTrain) parent_path st :
  wp (write_spiketrain x parent_path)
     (λ h st', neo_nix_map st' = <[Neo.obj_id x := MObj h]> (neo_nix_map st)) st.
Proof. unfold write_spiketrain. table_entry. Qed.

Lemma write_epoch_recorded (x : Neo.Epoch) parent_path st :
  wp (write_epoch x parent_path)
     (λ h st', neo_nix_map st' = <[Neo.obj_id x := MObj h]> (neo_nix_map st)) st.
Proof. unfold write_epoch. table_entry. Qed.

Lemma write_event_recorded (x : Neo.Event) parent_path st :
  wp (write_event x parent_path)
     (λ h st', neo_nix_map st' = <[Neo.obj_id x := MObj h]> (neo_nix_map st)) st.
Proof. unfold write_event. table_entry. Qed.

Lemma write_unit_recorded (x : Neo.Unit) parent_path st :
  wp (write_unit x parent_path)
     (λ h st', neo_nix_map st' = <[Neo.obj_id x := MObj h]> (neo_nix_map st)) st.
Proof. unfold write_unit. table_entry. Qed.

Lemma write_analogsignal_recorded (x : Neo.AnalogSignal) parent_path st :
  wp (write_analogsignal x parent_path)
     (λ hs st', neo_nix_map st' = <[Neo.obj_id x := MList hs]> (neo_nix_map st)) st.
Proof. unfold write_analogsignal. table_entry. Qed.

Lemma write_irregularlysampledsignal_recorded
    (x : Neo.IrregularlySampledSignal) parent_path st :
  wp (write_irregularlysampledsignal x parent_path)
     (λ hs st', neo_nix_map st' = <[Neo.obj_id x := MList hs]> (neo_nix_map st)) st.
Proof. unfold write_irregularlysampledsignal. table_entry. Qed.

(** X4: when a routine that writes a signal, an Epoch, an Event, a
    SpikeTrain or a Unit returns, the identity table is the one it found
    with one entry set: the identity of the entity now leads to what the
    routine returned, the list of arrays for a signal and the object
    otherwise; looking the entity up afterwards returns just that. *)
Theorem leaf_conversion_is_recorded (r : routine) (parent_path : listref)
    (st st' : State) (hs : list Nix.handle) :
  is_leaf r = true →
  convert (Under r parent_path) st = (st', Ok hs) →
  ∃ v, recorded r hs v ∧
    neo_nix_map st' = <[Neo.obj_id (entity_of r) := v]> (neo_nix_map st) ∧
    _get_mapped_object (entity_of r) st' = (st', Ok v).
Proof.
  intros Hleaf Hrun.
  cut (∃ v, recorded r hs v ∧
         neo_nix_map st' = <[Neo.obj_id (entity_of r) := v]> (neo_nix_map st)).
  { intros (v & Hv & Hmap). exists v. split; [done|]. split; [done|].
    apply get_mapped_object_mapped. rewrite Hmap. apply lookup_insert_eq. }
  apply (wp_run (convert (Under r parent_path))
           (λ hs st', ∃ v, recorded r hs v ∧
              neo_nix_map st' = <[Neo.obj_id (entity_of r) := v]> (neo_nix_map st))
           st st' hs); [|done].
  destruct r as [x|x|x|x|x|x|x|x]; try discriminate Hleaf; simpl.
  - wp_use write_analogsignal_recorded. eauto.
  - wp_use write_irregularlysampledsignal_recorded. eauto.
  - wp_with write_epoch_recorded. intros h s Hs. apply wp_ret. eauto.
  - wp_with write_event_recorded. intros h s Hs. apply wp_ret. eauto.
  - wp_with write_spiketrain_recorded. intros h s Hs. apply wp_ret. eauto.
  - wp_with write_unit_recorded. intros h s Hs. apply wp_ret. eauto.
Qed.

(** ** The blocks of the file *)

Lemma blocks_kept_trans a b c : blocks_kept a b → blocks_kept b c → blocks_kept a c.
Proof. unfold blocks_kept. congruence. Qed.

Ltac blocks_respects :=
  respects_with blocks_kept (λ _ : pyid, True)
    (λ _ : Nix.Entity → Nix.Entity, True)
    ltac:(intros; unfold blocks_kept in *; simpl; solve [done | congruence]).

Lemma create_block_blocks nm ty st :
  wp (create_block nm ty) (λ h st', blocks st' = blocks st ++ [h]) st.
Proof. unfold create_block. wp_unfold. wp_go. done. Qed.

Lemma write_block_blocks (x : Neo.Block) st :
  wp (write_block x) (λ h st', blocks st' = blocks st ++ [h]) st.
Proof.
  unfold write_block.
  assert (HR : blocks_kept st st) by done.
  wp_carry blocks_kept blocks_kept_trans blocks_respects HR.
  wp_with create_block_blocks. intros h s Hs.
  assert (HR2 : blocks_kept s s) by done.
  repeat lazymatch goal with
  | |- wp (_ ≫= _) _ _ =>
      wp_carry blocks_kept blocks_kept_trans blocks_respects HR2
  end.
  apply wp_ret. unfold blocks_kept in *. congruence.
Qed.

Lemma write_all_blocks_blocks (neo_blocks : list Neo.Block) : ∀ st,
  wp (write_all_blocks neo_blocks)
     (λ hs st', length hs = length neo_blocks ∧
        blocks st' = blocks st ++ hs) st.
Proof.
  unfold write_all_blocks.
  induction neo_blocks as [|x l IH]; intros st; simpl.
  - apply wp_ret. by rewrite app_nil_r.
  - wp_with write_block_blocks. intros h s Hs.
    wp_with IH. intros hs s' [Hl Hs']. apply wp_ret.
    split; [simpl; lia|]. rewrite Hs', Hs. by rewrite <- app_assoc.
Qed.

(** ** The signals of a channel group *)

Lemma linked_grows src st st' v : grows st st' → linked src st v → linked src st' v.
Proof.
  intros Hg (das & -> & Hall). exists das. split; [done|].
  intros da Hda. destruct (Hall da Hda) as (e & He & Hin).
  destruct (ev_entities _ _ _ _ Hg _ _ He) as (e' & He' & G).
  exists e'. split; [done|]. eapply elem_of_prefix; [exact Hin|apply G].
Qed.

Lemma link_arrays_spec (nix_source : Nix.handle) das st :
  wp (for_each das (λ da, sources_append (PEnt da) nix_source))
     (λ _ st', ∀ da, da ∈ das →
        ∃ e, entities st' !! da = Some e ∧ nix_source ∈ Nix.sources e) st.
Proof.
  eapply wp_mono.
  - apply (wp_for_each (λ done st', ∀ da, da ∈ done →
             ∃ e, entities st' !! da = Some e ∧ nix_source ∈ Nix.sources e)
             _ das []).
    + intros da Hda. by apply elem_of_nil in Hda.
    + intros done x s HI.
      eapply (wp_frame grows); [by_grows|].
      wp_unfold. wp_go.
      intros Hg da Hda. apply elem_of_app in Hda as [Hda|Hda].
      * destruct (HI da Hda) as (e1 & He1 & Hin).
        destruct (ev_entities _ _ _ _ Hg _ _ He1) as (e2 & He2 & G).
        exists e2. split; [done|]. eapply elem_of_prefix; [exact Hin|apply G].
      * apply list_elem_of_singleton in Hda as ->.
        eexists. simpl. rewrite list_lookup_alter_eq.
        match goal with H : entities s !! x = Some _ |- _ => rewrite H end.
        simpl. split; [done|]. simpl. set_solver.
  - intros [] st' HI. exact HI.
Qed.

Lemma link_signals_spec (nix_source : Nix.handle) vs st :
  wp (link_signals vs nix_source)
     (λ _ st', ∀ v, v ∈ vs → linked nix_source st' v) st.
Proof.
  unfold link_signals. eapply wp_mono.
  - apply (wp_for_each (λ done st', ∀ v, v ∈ done → linked nix_source st' v)
             _ vs []).
    + intros v Hv. by apply elem_of_nil in Hv.
    + intros done x s HI.
      eapply (wp_frame grows).
      { destruct x; by_grows. }
      destruct x as [mt|das]; [apply wp_raise|].
      wp_use link_arrays_spec. intros [] s' Hall Hg v Hv.
      apply elem_of_app in Hv as [Hv|Hv].
      * eapply linked_grows; [exact Hg | by apply HI].
      * apply list_elem_of_singleton in Hv as ->. by exists das.
  - intros [] st' HI. exact HI.
Qed.

Lemma linked_lookup {A} (proj : A → Neo.Base) (l : list A) vs src (m : gmap nat Mapped) st :
  Forall2 (λ (o : Neo.Base) v, m !! Neo.obj_id o = Some v) (proj <$> l) vs →
  (∀ v, v ∈ vs → linked src st v) →
  ∀ x, x ∈ l → ∃ v, m !! Neo.obj_id (proj x) = Some v ∧ linked src st v.
Proof.
  intros HF Hall x Hx.
  assert (Hb : proj x ∈ proj <$> l) by (apply list_elem_of_fmap; by exists x).
  apply list_elem_of_lookup in Hb as [i Hi].
  destruct (Forall2_lookup_l _ _ _ _ _ HF Hi) as (v & Hv & Hmap).
  exists v. split; [done|]. apply Hall. apply list_elem_of_lookup. by exists i.
Qed.

Lemma write_recordingchannelgroup_links (rcg : Neo.RecordingChannelGroup)
    parent_path st :
  wp (write_recordingchannelgroup rcg parent_path)
     (λ nix_source st',
        (∀ a : Neo.AnalogSignal, a ∈ Neo.rcg_analogsignals rcg →
           ∃ v, neo_nix_map st' !! Neo.obj_id a = Some v ∧
                linked nix_source st' v) ∧
        (∀ a : Neo.IrregularlySampledSignal,
           a ∈ Neo.rcg_irregularlysampledsignals rcg →
           ∃ v, neo_nix_map st' !! Neo.obj_id a = Some v ∧
                linked nix_source st' v)) st.
Proof.
  unfold write_recordingchannelgroup.
  wp_skip_to @_get_mapped_objects.
  wp_with get_mapped_objects_spec. intros vs1 ? [-> HF1].
  lazymatch goal with
  | |- wp _ _ ?s => revert HF1; generalize s; intros s0 HF1
  end.
  eapply (wp_frame (evolves ent_grows (λ _, False)));
    [evolves_respects ent_grows (λ _ : pyid, False) grows_ptac|].
  wp_with link_signals_spec. intros [] s1 Hl1.
  eapply (wp_frame (evolves ent_grows (λ _, False)));
    [evolves_respects ent_grows (λ _ : pyid, False) grows_ptac|].
  wp_with get_mapped_objects_spec. intros vs2 ? [-> HF2].
  wp_with link_signals_spec. intros [] s2 Hl2.
  apply wp_ret. intros H12 H02.
  assert (Hg : grows s1 s2) by (destruct H12; by constructor).
  assert (Hm0 : neo_nix_map s2 = neo_nix_map s0).
  { apply map_eq. intros k. apply (ev_map _ _ _ _ H02 k). tauto. }
  assert (Hm1 : neo_nix_map s2 = neo_nix_map s1).
  { apply map_eq. intros k. apply (ev_map _ _ _ _ H12 k). tauto. }
  split.
  - intros x Hx. rewrite Hm0.
    destruct (linked_lookup Neo.asig_base _ _ _ _ _ HF1 Hl1 x Hx) as (v & Hv & Hl).
    exists v. split; [done|]. by eapply linked_grows.
  - intros x Hx. rewrite Hm1.
    exact (linked_lookup Neo.isig_base _ _ _ _ _ HF2 Hl2 x Hx).
Qed.

(** X6: when [write_recordingchannelgroup] returns, every AnalogSignal and
    every IrregularlySampledSignal of the group was in the identity table,
    mapped to a list of DataArrays, and each of these arrays now counts the
    Source created for the group among its sources. *)
Theorem channel_group_signals_refer_to_source (rcg : Neo.RecordingChannelGroup)
    (parent_path : listref) (st st' : State) (nix_source : Nix.handle) :
  write_recordingchannelgroup rcg parent_path st = (st', Ok nix_source) →
  (∀ a : Neo.AnalogSignal, a ∈ Neo.rcg_analogsignals rcg →
     ∃ v, neo_nix_map st' !! Neo.obj_id a = Some v ∧ linked nix_source st' v) ∧
  (∀ a : Neo.IrregularlySampledSignal,
     a ∈ Neo.rcg_irregularlysampledsignals rcg →
     ∃ v, neo_nix_map st' !! Neo.obj_id a = Some v ∧ linked nix_source st' v).
Proof.
  intros Hrun.
  exact (wp_run _ _ _ _ _
           (write_recordingchannelgroup_links rcg parent_path st) Hrun).
Qed.

(** ** Objects that exist are left alone *)

Lemma kept_refl e : kept e e.
Proof. constructor; first [apply ent_grows_refl | done]. Qed.

Lemma kept_trans a b c : kept a b → kept b c → kept a c.
Proof.
  intros [] []. constructor; try congruence; [by eapply ent_grows_trans|auto].
Qed.

Ltac kept_ptac :=
  first [ apply kept_refl
        | eapply kept_trans; eassumption
        | unfold update_ok;
          let e := fresh "e" in
          intros e; constructor;
          [ revert e; solve_ent_grows | simpl; try reflexivity; by intros .. ] ].

Lemma settled_refl st : settled st st.
Proof. apply evolves_refl, kept_refl. Qed.

Lemma settled_trans a b c : settled a b → settled b c → settled a c.
Proof. apply evolves_trans, kept_trans. Qed.

Lemma settled_length s0 s : settled s0 s → length (entities s0) ≤ length (entities s).
Proof.
  intros H. destruct (entities s0) as [|x l _] eqn:Hs using rev_ind; [simpl; lia|].
  destruct (ev_entities _ _ _ _ H (length l) x) as (x' & Hx' & _).
  { rewrite Hs. by apply list_lookup_middle. }
  apply lookup_lt_Some in Hx'. rewrite length_app. simpl. lia.
Qed.

(** An update of an entity that did not exist in [s0]. *)
Lemma settled_fresh_update s0 s h f :
  settled s0 s → length (entities s0) ≤ h →
  settled s0 (set_entities (alter f h (entities s)) s).
Proof.
  intros [E S B Mp L] Hh. constructor; simpl; try done.
  intros h' e He. destruct (E _ _ He) as (e' & He' & G).
  exists e'. split; [|done].
  rewrite list_lookup_alter_ne; [done|].
  apply lookup_lt_Some in He. lia.
Qed.

Lemma settles_of_respects {A} (m : M A) : respects settled m → settles m.
Proof.
  intros H st. specialize (H st). unfold wp, final in *.
  by destruct (m st) as [st' [a|e]].
Qed.

Lemma settles_ret {A} (a : A) : settles (ret a).
Proof. intros st. apply wp_ret, settled_refl. Qed.

Lemma settles_raise {A} e : settles (raise e : M A).
Proof. intros st. apply wp_raise. Qed.

Lemma wp_settle {A B} (m : M A) (f : A → M B) (Q : B → State → Prop) s0 st :
  settled s0 st → settles m →
  (∀ a st', settled s0 st' → wp (f a) Q st') →
  wp (m ≫= f) Q st.
Proof.
  intros H0 Hm Hf. apply wp_bind. eapply wp_mono; [apply Hm|].
  intros a st' H. apply Hf. by eapply settled_trans.
Qed.

Lemma wp_settle_spec {A B} (m : M A) (f : A → M B) (Q1 : A → State → Prop)
    (Q : B → State → Prop) s0 st :
  settled s0 st → settles m → wp m Q1 st →
  (∀ a st', settled s0 st' → Q1 a st' → wp (f a) Q st') →
  wp (m ≫= f) Q st.
Proof.
  intros H0 Hm H1 Hf. apply wp_bind.
  specialize (Hm st). unfold wp in Hm, H1 |- *.
  destruct (m st) as [st' [a|e]]; [|done].
  apply Hf; [by eapply settled_trans|done].
Qed.

Lemma wp_settle_last {A} (m : M A) (Q : A → State → Prop) s0 st :
  settled s0 st → settles m →
  (∀ a st', settled s0 st' → Q a st') →
  wp m Q st.
Proof.
  intros H0 Hm Hf. eapply wp_mono; [apply Hm|].
  intros a st' H. apply Hf. by eapply settled_trans.
Qed.

Lemma settles_bind {A B} (m : M A) (f : A → M B) :
  settles m → (∀ a, settles (f a)) → settles (m ≫= f).
Proof.
  intros Hm Hf st. eapply wp_settle; [apply settled_refl|exact Hm|].
  intros a st' H. eapply wp_mono; [apply Hf|].
  intros b st'' H'. by eapply settled_trans.
Qed.

Lemma settles_for_each {A} (l : list A) (body : A → M unit) :
  (∀ x, settles (body x)) → settles (for_each l body).
Proof.
  intros Hb. induction l as [|x l IH]; simpl.
  - apply settles_ret.
  - apply settles_bind; [apply Hb|intros _; exact IH].
Qed.

Lemma settles_map_m {A B} (f : A → M B) (l : list A) :
  (∀ x, settles (f x)) → settles (map_m f l).
Proof.
  intros Hf. induction l as [|x l IH]; simpl.
  - apply settles_ret.
  - apply settles_bind; [apply Hf|intros y].
    apply settles_bind; [exact IH|intros ys; apply settles_ret].
Qed.

Lemma wp_upd_ent h f (Q : unit → State → Prop) s :
  Q tt (set_entities (alter f h (entities s)) s) → wp (upd_ent h f) Q s.
Proof. intros H. unfold upd_ent. by apply wp_modify. Qed.

Lemma wp_upd_ent_bind {B} h f (k : unit → M B) (Q : B → State → Prop) s :
  wp (k tt) Q (set_entities (alter f h (entities s)) s) →
  wp (upd_ent h f ≫= k) Q s.
Proof. intros H. apply wp_bind. by apply wp_upd_ent. Qed.

Ltac settles_generic :=
  apply settles_of_respects; unfold settled;
  evolves_respects kept (λ _ : pyid, True) kept_ptac.

(** The routines shown to settle so far, by name; extended below. *)
Ltac settles_known := fail.

(** One step of a run that starts settled: [HR] holds [settled s0 s] for
    the current state [s].  An object made on the way is new with respect
    to [s0], and may be changed at will. *)
Ltac settles_tac := fail.

Ltac settles_call :=
  lazymatch goal with
  | |- settles (for_each _ _) =>
      apply settles_for_each; intros ?; cbv beta; settles_tac
  | |- settles (map_m _ _) =>
      apply settles_map_m; intros ?; cbv beta; settles_tac
  | |- settles _ => first [ settles_known | settles_generic ]
  end.

Ltac fresh_handle HR Hc :=
  lazymatch type of Hc with
  | created _ ?s ?h _ =>
      lazymatch type of HR with
      | settled ?s0 _ =>
          let Hf := fresh "Hfresh" in
          assert (Hf : length (entities s0) ≤ h)
            by (destruct Hc as (-> & _); eassumption)
      end
  end.

Ltac settle_create HR spec :=
  let Hlen := fresh "Hlen" in let Hc := fresh "Hc" in
  pose proof (settled_length _ _ HR) as Hlen;
  eapply (wp_settle_spec _ _ _ _ _ _ HR);
  [ settles_generic | apply spec | clear HR; intros ? ? HR Hc ];
  cbv beta in Hc; fresh_handle HR Hc.

Ltac settle_fresh_update HR h f :=
  let HR' := fresh "HR" in
  pose proof (settled_fresh_update _ _ h f HR ltac:(assumption)) as HR';
  clear HR; rename HR' into HR.

Ltac settle_step HR :=
  lazymatch goal with
  | |- wp (ret _) _ _ => apply wp_ret; cbv beta
  | |- wp (mret _) _ _ => apply wp_ret; cbv beta
  | |- wp (raise _) _ _ => apply wp_raise
  | |- wp (let _ := _ in _) _ _ => cbv zeta
  | |- wp (?m ≫= _) _ _ =>
      let h := head_of m in
      lazymatch h with
      | @create_data_array => settle_create HR create_data_array_spec
      | @create_multi_tag => settle_create HR create_multi_tag_spec
      | @create_source => settle_create HR create_source_spec
      | @create_group => settle_create HR create_group_spec
      | @create_block => settle_create HR create_block_spec
      | _ =>
          first
            [ eapply (wp_settle _ _ _ _ _ HR);
              [ solve [settles_call] | clear HR; intros ? ? HR ]
            | lazymatch m with
              | upd_ent ?h ?f =>
                  apply (wp_upd_ent_bind h f); settle_fresh_update HR h f
              | upd_dimension ?h ?i ?g =>
                  let f := constr:(λ e, Nix.set_dimensions
                                          (alter g i (Nix.dimensions e)) e) in
                  apply (wp_upd_ent_bind h f); settle_fresh_update HR h f
              | append_dimension _ _ =>
                  apply wp_bind; unfold append_dimension at 1
              | when ?c _ => apply wp_bind; unfold when at 1; destruct c
              | name_or ?nm _ =>
                  apply wp_bind; unfold name_or at 1;
                  destruct (truthy_str nm)
              | match ?x with _ => _ end => apply wp_bind; destruct x
              | _ ≫= _ => apply wp_bind
              end ]
      end
  | |- wp (match ?x with _ => _ end) _ _ => destruct x
  | |- wp (when ?c _) _ _ => unfold when at 1; destruct c
  | |- wp ?m _ _ =>
      first
        [ eapply (wp_settle_last _ _ _ _ HR);
          [ solve [settles_call] | clear HR; intros ? ? HR; cbv beta ]
        | lazymatch m with
          | upd_ent ?h ?f =>
              apply (wp_upd_ent h f); settle_fresh_update HR h f
          | upd_dimension ?h ?i ?g =>
              let f := constr:(λ e, Nix.set_dimensions
                                      (alter g i (Nix.dimensions e)) e) in
              apply (wp_upd_ent h f); settle_fresh_update HR h f
          | append_dimension _ _ => unfold append_dimension at 1
          | name_or ?nm _ => unfold name_or at 1; destruct (truthy_str nm)
          end ]
  end.

Ltac settle_go HR := repeat settle_step HR.

(** A body that makes and changes objects of its own. *)
Ltac settles_by_steps :=
  let st := fresh "st" in let HR := fresh "HR" in
  intros st;
  assert (HR : settled st st) by apply settled_refl;
  cbv beta; settle_go HR; exact HR.

Ltac settles_tac ::=
  lazymatch goal with
  | |- settles (ret _) => apply settles_ret
  | |- settles (mret _) => apply settles_ret
  | |- settles (raise _) => apply settles_raise
  | |- settles (for_each _ _) =>
      apply settles_for_each; intros ?; cbv beta; settles_tac
  | |- settles (map_m _ _) =>
      apply settles_map_m; intros ?; cbv beta; settles_tac
  | |- settles (match ?x with _ => _ end) => destruct x; settles_tac
  | |- settles (when ?c _) => unfold when at 1; destruct c; settles_tac
  | |- settles (_ ≫= _) =>
      first [ settles_known | settles_generic | settles_by_steps ]
  | |- settles _ => first [ settles_known | settles_generic ]
  end.

(** *** Metadata sections *)

Lemma metadata_attach_settled st sc h v x :
  settled st sc → metadata_at st (PEnt h) = None →
  settled st (set_entities (alter (Nix.set_metadata v) h (entities sc))
                (set_sections (sections sc ++ [x]) sc)).
Proof.
  intros [E S B Mp L] Hmd. constructor; simpl; try done.
  - intros h' e He. destruct (E _ _ He) as (e' & He' & G).
    destruct (decide (h = h')) as [->|Hne].
    + exists (Nix.set_metadata v e'). split.
      { by rewrite list_lookup_alter_eq, He'. }
      simpl in Hmd. rewrite He in Hmd. simpl in Hmd.
      destruct G as [Gg ? ? ? ? ? ? Gm]. constructor; simpl; try done.
      * destruct Gg. by constructor.
      * intros s Hs. congruence.
    + exists e'. split; [|done]. by rewrite list_lookup_alter_ne.
  - intros s sec Hs. destruct (S _ _ Hs) as (sec' & Hs' & G).
    exists sec'. split; [|done]. by apply lookup_app_l_Some.
Qed.

Lemma settled_new_list st p : settled st (set_py_lists (py_lists st ++ [p]) st).
Proof. apply evolves_new_list; kept_ptac. Qed.

Lemma settles_get_or_init_metadata_rec fuel :
  ∀ nix_obj obj_path, settles (_get_or_init_metadata_rec fuel nix_obj obj_path).
Proof.
  induction fuel as [|fuel IH]; intros nix_obj obj_path st.
  - cbn [_get_or_init_metadata_rec].
    wp_with metadata_of_spec. intros md ? (-> & -> & h & e & -> & He).
    destruct (metadata_at st (PEnt h)) as [s0|] eqn:Hmd.
    { apply wp_ret, settled_refl. }
    unfold deref. wp_go.
    wp_use attach_spec. intros s st' (-> & h' & e' & [= <-] & He' & ->).
    apply metadata_attach_settled; [apply settled_refl|done].
  - cbn [_get_or_init_metadata_rec].
    wp_with metadata_of_spec. intros md ? (-> & -> & h & e & -> & He).
    destruct (metadata_at st (PEnt h)) as [s0|] eqn:Hmd.
    { apply wp_ret, settled_refl. }
    unfold deref at 1. wp_go.
    + wp_use attach_spec. intros s st' (-> & h' & e' & [= <-] & He' & ->).
      apply metadata_attach_settled; [apply settled_refl|done].
    + wp_with list_init_spec. intros r ? (p & Hp & -> & ->).
      wp_with get_object_at_spec. intros obj_parent ? (-> & _).
      wp_with list_init_spec. intros r' ? (p2 & Hp2 & -> & ->).
      apply wp_bind. wp_use IH. intros pm sc Hsc. apply wp_ret.
      wp_use attach_spec. intros s st' (-> & h' & e' & [= <-] & He' & ->).
      apply metadata_attach_settled; [|done].
      eapply settled_trans; [|exact Hsc].
      eapply settled_trans; apply settled_new_list.
Qed.

Lemma settles_get_or_init_metadata nix_obj obj_path :
  settles (_get_or_init_metadata nix_obj obj_path).
Proof.
  intros st. unfold _get_or_init_metadata. wp_go.
  apply settles_get_or_init_metadata_rec.
Qed.

Ltac settles_known ::=
  lazymatch goal with
  | |- settles (_get_or_init_metadata _ _) => apply settles_get_or_init_metadata
  end.

Lemma settles_copy_annotations (x : Neo.Base) nix_object object_path :
  settles (_copy_annotations x nix_object object_path).
Proof. unfold _copy_annotations. settles_tac. Qed.

Ltac settles_known ::=
  lazymatch goal with
  | |- settles (_get_or_init_metadata _ _) => apply settles_get_or_init_metadata
  | |- settles (_copy_annotations _ _ _) => apply settles_copy_annotations
  end.

(** *** The routines *)

Lemma settles_write_epoch (x : Neo.Epoch) parent_path :
  settles (write_epoch x parent_path).
Proof. unfold write_epoch. settles_by_steps. Qed.


Lemma settles_write_event (x : Neo.Event) parent_path :
  settles (write_event x parent_path).
Proof. unfold write_event. settles_by_steps. Qed.

Lemma settles_write_spiketrain (x : Neo.SpikeTrain) parent_path :
  settles (write_spiketrain x parent_path).
Proof. unfold write_spiketrain. settles_by_steps. Qed.

Lemma settles_write_unit (x : Neo.Unit) parent_path :
  settles (write_unit x parent_path).
Proof. unfold write_unit. settles_by_steps. Qed.

Lemma settles_write_analogsignal (x : Neo.AnalogSignal) parent_path :
  settles (write_analogsignal x parent_path).
Proof. unfold write_analogsignal. settles_by_steps. Qed.

Lemma settles_write_irregularlysampledsignal
    (x : Neo.IrregularlySampledSignal) parent_path :
  settles (write_irregularlysampledsignal x parent_path).
Proof. unfold write_irregularlysampledsignal. settles_by_steps. Qed.

Lemma settles_write_channel rcg nix_source nix_name object_path idx :
  settles (write_channel rcg nix_source nix_name object_path idx).
Proof. unfold write_channel. settles_by_steps. Qed.

Ltac settles_known ::=
  lazymatch goal with
  | |- settles (_get_or_init_metadata _ _) => apply settles_get_or_init_metadata
  | |- settles (_copy_annotations _ _ _) => apply settles_copy_annotations
  | |- settles (write_epoch _ _) => apply settles_write_epoch
  | |- settles (write_event _ _) => apply settles_write_event
  | |- settles (write_spiketrain _ _) => apply settles_write_spiketrain
  | |- settles (write_unit _ _) => apply settles_write_unit
  | |- settles (write_analogsignal _ _) => apply settles_write_analogsignal
  | |- settles (write_irregularlysampledsignal _ _) =>
      apply settles_write_irregularlysampledsignal
  | |- settles (write_channel _ _ _ _ _) => apply settles_write_channel
  end.

Lemma settles_write_recordingchannelgroup (x : Neo.RecordingChannelGroup)
    parent_path :
  settles (write_recordingchannelgroup x parent_path).
Proof. unfold write_recordingchannelgroup. settles_by_steps. Qed.


Lemma settles_write_segment (x : Neo.Segment) parent_path :
  settles (write_segment x parent_path).
Proof. unfold write_segment. settles_by_steps. Qed.

Ltac settles_known ::=
  lazymatch goal with
  | |- settles (_get_or_init_metadata _ _) => apply settles_get_or_init_metadata
  | |- settles (_copy_annotations _ _ _) => apply settles_copy_annotations
  | |- settles (write_epoch _ _) => apply settles_write_epoch
  | |- settles (write_event _ _) => apply settles_write_event
  | |- settles (write_spiketrain _ _) => apply settles_write_spiketrain
  | |- settles (write_unit _ _) => apply settles_write_unit
  | |- settles (write_analogsignal _ _) => apply settles_write_analogsignal
  | |- settles (write_irregularlysampledsignal _ _) =>
      apply settles_write_irregularlysampledsignal
  | |- settles (write_channel _ _ _ _ _) => apply settles_write_channel
  | |- settles (write_recordingchannelgroup _ _) =>
      apply settles_write_recordingchannelgroup
  | |- settles (write_segment _ _) => apply settles_write_segment
  end.

Lemma settles_write_block (x : Neo.Block) : settles (write_block x).
Proof. unfold write_block. settles_by_steps. Qed.

Lemma settles_write_all_blocks (l : list Neo.Block) : settles (write_all_blocks l).
Proof.
  unfold write_all_blocks. apply settles_map_m. intros x.
  apply settles_write_block.
Qed.

Lemma settles_convert (c : conversion) : settles (convert c).
Proof.
  destruct c as [x|[x|x|x|x|x|x|x|x] p]; simpl.
  - apply settles_bind; [apply settles_write_block|intros ?; apply settles_ret].
  - apply settles_bind; [apply settles_write_segment|intros ?; apply settles_ret].
  - apply settles_bind;
      [apply settles_write_recordingchannelgroup|intros ?; apply settles_ret].
  - apply settles_write_analogsignal.
  - apply settles_write_irregularlysampledsignal.
  - apply settles_bind; [apply settles_write_epoch|intros ?; apply settles_ret].
  - apply settles_bind; [apply settles_write_event|intros ?; apply settles_ret].
  - apply settles_bind; [apply settles_write_spiketrain|intros ?; apply settles_ret].
  - apply settles_bind; [apply settles_write_unit|intros ?; apply settles_ret].
Qed.

(** X7: when a conversion returns, every object that existed before the
    call is as it was, but for what was appended to its collections and
    for the metadata section it may have received if it had none: its
    definition, unit, time of creation, dimensions, extents and link type
    are unchanged, and a metadata section it had is still the one it has.
    The same holds of [write_all_blocks]. *)
Theorem existing_objects_are_kept (c : conversion) (neo_blocks : list Neo.Block)
    (st st' : State) (hs : list Nix.handle) :
  convert c st = (st', Ok hs) ∨ write_all_blocks neo_blocks st = (st', Ok hs) →
  settled st st'.
Proof.
  intros [Hrun|Hrun].
  - exact (wp_run _ _ _ _ _ (settles_convert c st) Hrun).
  - exact (wp_run _ _ _ _ _ (settles_write_all_blocks neo_blocks st) Hrun).
Qed.

(** ** What the metadata holds *)

Lemma wp_frame_settles {A} (m : M A) (Q : A → State → Prop) st :
  settles m → wp m (λ a st', settled st st' → Q a st') st → wp m Q st.
Proof.
  intros Hm. specialize (Hm st). unfold wp in *.
  destruct (m st) as [st' [a|e]]; auto.
Qed.

Lemma metadata_at_settled a b o s :
  settled a b → metadata_at a o = Some s → metadata_at b o = Some s.
Proof.
  intros H. destruct o as [|h|]; simpl; try done.
  destruct (entities a !! h) as [e|] eqn:He; [|done]. simpl.
  destruct (ev_entities _ _ _ _ H _ _ He) as (e' & -> & G). simpl.
  apply G.
Qed.

Lemma section_holds_settled a b s k v :
  settled a b → section_holds s k v a → section_holds s k v b.
Proof.
  intros H (sec & Hs & Hin).
  destruct (ev_sections _ _ _ _ H _ _ Hs) as (sec' & Hs' & G).
  exists sec'. split; [done|].
  eapply elem_of_prefix; [exact Hin|apply G].
Qed.

Lemma holds_settled a b o k v : settled a b → holds o k v a → holds o k v b.
Proof.
  intros H (s & Hmd & Hs). exists s.
  split; [by eapply metadata_at_settled|by eapply section_holds_settled].
Qed.

Lemma metadata_of_settled o s st st' :
  metadata_of o st = (st, Ok (Some s)) → settled st st' →
  metadata_of o st' = (st', Ok (Some s)).
Proof.
  intros Hrun HS. destruct o as [|h|]; try discriminate Hrun.
  revert Hrun. unfold metadata_of, the_entity, get_ent, gets.
  rewrite !bind_run. cbn.
  destruct (entities st !! h) as [e|] eqn:He; cbn; [|discriminate].
  destruct (ev_entities _ _ _ _ HS _ _ He) as (e' & He' & [[] ? ? ? ? ? ? Hm]).
  rewrite He'. cbn.
  replace (Nix.kind e') with (Nix.kind e) by done.
  destruct (has_metadata (Nix.kind e)); cbn; [|discriminate].
  intros [= E]. by rewrite (Hm _ E).
Qed.

(** X3: once [_get_or_init_metadata] has returned a section for an object,
    every later call for that object returns the same section and changes
    nothing, with whatever path and in whatever state the writer has
    reached since: no second section is created.  The later states are
    those that leave what existed settled, as every conversion does. *)
Theorem metadata_is_created_once (nix_obj : PyObj) (obj_path obj_path' : listref)
    (st st' st'' : State) (s : Nix.sec_handle) :
  _get_or_init_metadata nix_obj obj_path st = (st', Ok s) →
  settled st' st'' →
  _get_or_init_metadata nix_obj obj_path' st'' = (st'', Ok s).
Proof.
  intros Hrun HS.
  pose proof (wp_run _ _ _ _ _
                (get_or_init_metadata_attached nix_obj obj_path st) Hrun) as Hmd.
  apply (metadata_of_settled _ _ _ _ Hmd) in HS.
  unfold _get_or_init_metadata. rewrite bind_run. unfold gets.
  destruct (length _); cbn [_get_or_init_metadata_rec];
    by rewrite bind_run, HS.
Qed.

Lemma create_property_spec s k v st :
  wp (create_property s k v)
     (λ _ st', ∃ sec, sections st !! s = Some sec ∧
        st' = set_sections (alter (Nix.add_prop k v) s (sections st)) st) st.
Proof. unfold create_property, upd_sec. wp_go. eauto. Qed.

Lemma settles_create_property s k v : settles (create_property s k v).
Proof. settles_generic. Qed.

Lemma create_property_holds s k v st :
  wp (create_property s k v) (λ _ st', section_holds s k v st') st.
Proof.
  wp_use create_property_spec. intros [] st' (sec & Hs & ->).
  exists (Nix.add_prop k v sec). split; simpl.
  - by rewrite list_lookup_alter_eq, Hs.
  - set_solver.
Qed.

Lemma when_property_holds (c : bool) s k v st :
  wp (when c (create_property s k v))
     (λ _ st', c = true → section_holds s k v st') st.
Proof.
  unfold when. destruct c; [|by apply wp_ret].
  wp_use create_property_holds. auto.
Qed.

Lemma match_when_property_holds {A} (x : option A) (c : A → bool) s k
    (v : A → list Value) st :
  wp (match x with
      | Some q => when (c q) (create_property s k (v q))
      | None => ret tt
      end)
     (λ _ st', ∀ q, x = Some q → c q = true → section_holds s k (v q) st') st.
Proof.
  destruct x as [q|]; [|by apply wp_ret].
  wp_use when_property_holds. by intros [] st' H ? [= <-].
Qed.

Lemma add_annotations_holds l md st :
  wp (_add_annotations l md)
     (λ _ st', ∀ k v, (k, v) ∈ l → section_holds md k [v] st') st.
Proof.
  unfold _add_annotations. eapply wp_mono.
  - apply (wp_for_each (λ done s,
             ∀ k v, (k, v) ∈ done → section_holds md k [v] s) _ l []).
    + intros k v Hin. by apply elem_of_nil in Hin.
    + intros done [k v] s HI.
      eapply wp_frame_settles; [apply settles_create_property|].
      wp_use create_property_holds. intros [] s' Hnew Hs.
      intros k' v' Hin. apply elem_of_app in Hin as [Hin|Hin].
      * eapply section_holds_settled; [exact Hs|]. by apply HI.
      * by apply list_elem_of_singleton in Hin as [= -> ->].
  - intros [] st' HI. exact HI.
Qed.

Lemma settles_add_annotations l md : settles (_add_annotations l md).
Proof. unfold _add_annotations. settles_tac. Qed.

Lemma when_add_annotations_holds (l : list (string * Value)) md st :
  wp (when (bool_decide (l ≠ [])) (_add_annotations l md))
     (λ _ st', ∀ k v, (k, v) ∈ l → section_holds md k [v] st') st.
Proof.
  unfold when. case_bool_decide as Hne.
  - apply add_annotations_holds.
  - apply wp_ret. intros k v Hin. rewrite Hne in Hin.
    by apply elem_of_nil in Hin.
Qed.

Lemma store_spec o p k v st :
  wp (_get_or_init_metadata o p ≫= λ md, create_property md k v)
     (λ _ st', holds o k v st') st.
Proof.
  wp_with get_or_init_metadata_ensures. intros md s1 [Hmd _].
  eapply wp_frame_settles; [apply settles_create_property|].
  wp_use create_property_holds. intros [] st' Hs H.
  exists md. split; [by eapply metadata_at_settled|done].
Qed.

Lemma when_store_spec (c : bool) o p k v st :
  wp (when c (_get_or_init_metadata o p ≫= λ md, create_property md k v))
     (λ _ st', c = true → holds o k v st') st.
Proof.
  unfold when. destruct c; [|by apply wp_ret].
  wp_use store_spec. auto.
Qed.

Lemma match_store_spec {A} (x : option A) o p k (v : A → list Value) st :
  wp (match x with
      | Some dt => _get_or_init_metadata o p ≫= λ md, create_property md k (v dt)
      | None => ret tt
      end)
     (λ _ st', ∀ dt, x = Some dt → holds o k (v dt) st') st.
Proof.
  destruct x as [dt|]; [|by apply wp_ret].
  wp_use store_spec. by intros [] st' H ? [= <-].
Qed.

Lemma copy_annotations_spec (x : Neo.Base) o p st :
  wp (_copy_annotations x o p)
     (λ _ st', ∀ k v, (k, v) ∈ Neo.annotations x → holds o k [v] st') st.
Proof.
  unfold _copy_annotations, when. case_bool_decide as Hne.
  - wp_with get_or_init_metadata_ensures. intros md s1 [Hmd _].
    eapply wp_frame_settles; [apply settles_add_annotations|].
    wp_use add_annotations_holds. intros [] st' Hs H k v Hin.
    exists md. split; [by eapply metadata_at_settled|by apply Hs].
  - apply wp_ret. intros k v Hin. rewrite Hne in Hin.
    by apply elem_of_nil in Hin.
Qed.

(** The rest of the routine leaves what exists settled. *)
Ltac rest_settles := eapply wp_frame_settles; [solve [settles_tac]|].

(** Up to the next step that writes an attribute to the metadata. *)
Ltac described_step :=
  lazymatch goal with
  | |- wp (?m ≫= _) _ _ =>
      lazymatch m with
      | _copy_annotations _ _ _ =>
          wp_with copy_annotations_spec; intros [] ? ?; rest_settles
      | when _ (_get_or_init_metadata _ _ ≫= _) =>
          wp_with when_store_spec; intros [] ? ?; rest_settles
      | match _ with _ => _ end =>
          first [ wp_with @match_store_spec; intros [] ? ?; rest_settles
                | apply wp_skip; intros ? ? ]
      | _ => apply wp_skip; intros ? ?
      end
  end.

Ltac described_end :=
  apply wp_ret; intros; unfold described; simpl;
  repeat split; try done; eauto 6 using holds_settled.

Lemma write_segment_described (x : Neo.Segment) parent_path st :
  wp (write_segment x parent_path)
     (λ h st', described (Under (WriteSegment x) parent_path) h st') st.
Proof. unfold write_segment. repeat described_step. described_end. Qed.

Lemma write_block_described (x : Neo.Block) st :
  wp (write_block x) (λ h st', described (OfBlock x) h st') st.
Proof. unfold write_block. repeat described_step. described_end. Qed.

Lemma write_recordingchannelgroup_described (x : Neo.RecordingChannelGroup)
    parent_path st :
  wp (write_recordingchannelgroup x parent_path)
     (λ h st',
        described (Under (WriteRecordingChannelGroup x) parent_path) h st') st.
Proof.
  unfold write_recordingchannelgroup. repeat described_step. described_end.
Qed.

Lemma write_unit_described (x : Neo.Unit) parent_path st :
  wp (write_unit x parent_path)
     (λ h st', described (Under (WriteUnit x) parent_path) h st') st.
Proof. unfold write_unit. repeat described_step. described_end. Qed.

Lemma write_epoch_described (x : Neo.Epoch) parent_path st :
  wp (write_epoch x parent_path)
     (λ h st', described (Under (WriteEpoch x) parent_path) h st') st.
Proof. unfold write_epoch. repeat described_step. described_end. Qed.

Lemma write_event_described (x : Neo.Event) parent_path st :
  wp (write_event x parent_path)
     (λ h st', described (Under (WriteEvent x) parent_path) h st') st.
Proof. unfold write_event. repeat described_step. described_end. Qed.


(** *** Spike trains: the section is looked up once, then filled *)

Lemma write_spiketrain_described (x : Neo.SpikeTrain) parent_path st :
  wp (write_spiketrain x parent_path)
     (λ h st', described (Under (WriteSpikeTrain x) parent_path) h st' ∧
               bounds_stored x h st') st.
Proof.
  unfold write_spiketrain. wp_skip_to @_get_or_init_metadata.
  wp_with get_or_init_metadata_ensures. intros md s1 [Hmd _].
  lazymatch type of Hmd with
  | metadata_at _ (PEnt ?h) = _ => rename h into mt
  end.
  apply wp_bind. eapply wp_frame_settles; [apply settles_copy_annotations|].
  wp_use copy_annotations_spec. intros [] s2 Hann H12.
  apply (metadata_at_settled _ _ _ _ H12) in Hmd.
  rest_settles.
  apply wp_bind. eapply wp_frame_settles; [solve [settles_tac]|].
  wp_use when_property_holds. intros [] s3 Hfo H23.
  apply (metadata_at_settled _ _ _ _ H23) in Hmd.
  assert (truthy_str (Neo.file_origin x) = true →
          holds (PEnt mt) "file_origin"
            [VString (default "" (Neo.file_origin x))] s3) as Hfo'.
  { intros Ht. exists md. split; [done|by apply Hfo]. }
  clear Hfo. rest_settles.
  apply wp_bind. eapply wp_frame_settles; [solve [settles_tac]|]. cbv zeta.
  wp_use @match_when_property_holds. intros [] s4 Hstart H34.
  apply (metadata_at_settled _ _ _ _ H34) in Hmd.
  assert (∀ q, Neo.sptr_t_start x = Some q →
            Neo.truthy_quantity (Some q) = true →
            holds (PEnt mt) "t_start"
              [VNumber (Neo.magnitude
                 (rescale q (Neo.array_units (Neo.sptr_times x))))] s4)
    as Hstart'.
  { intros q Hq Ht. exists md. split; [done|by apply Hstart]. }
  clear Hstart. rest_settles.
  apply wp_bind. eapply wp_frame_settles; [solve [settles_tac]|].
  wp_use create_property_holds. intros [] s5 Hstop H45.
  apply (metadata_at_settled _ _ _ _ H45) in Hmd.
  assert (holds (PEnt mt) "t_stop"
            [VNumber (Neo.magnitude
               (rescale (Neo.sptr_t_stop x)
                  (Neo.array_units (Neo.sptr_times x))))] s5) as Hstop'.
  { exists md. split; [done|exact Hstop]. }
  clear Hstop. rest_settles.
  apply wp_skip. intros ? ?. apply wp_ret. intros.
  unfold described, bounds_stored. simpl.
  repeat split; try done; eauto 6 using holds_settled.
Qed.


(** *** Signals: one section, filled once, for all the arrays *)

Lemma wp_map_m_each {A B} (body : A → M B) (P : B → State → Prop) :
  (∀ x, settles (body x)) →
  (∀ b s s', settled s s' → P b s → P b s') →
  (∀ x st, wp (body x) P st) →
  ∀ xs st, wp (map_m body xs) (λ bs st', ∀ b, b ∈ bs → P b st') st.
Proof.
  intros Hs Hst Hb. induction xs as [|x xs IH]; intros st.
  - apply wp_ret. intros b Hin. by apply elem_of_nil in Hin.
  - cbn [map_m]. wp_with Hb. intros b s1 Hb1.
    apply wp_bind. eapply wp_frame_settles; [by apply settles_map_m|].
    wp_use IH. intros bs s2 Hbs H12. apply wp_ret.
    intros b' Hin. apply elem_of_cons in Hin as [->|Hin].
    + by eapply Hst.
    + by apply Hbs.
Qed.

(** The array made by one turn of the loop ends with the section [seg]. *)
Ltac array_gets_section :=
  let HR := fresh "HR" in let Hc := fresh "Hc" in
  let s0 := fresh "s0" in let He := fresh "He" in
  intros [? ?] ?; cbv beta iota;
  wp_with create_data_array_spec; intros ? s0 Hc;
  start_grows s0 HR;
  repeat lazymatch goal with
  | |- wp (?m ≫= _) _ _ =>
      lazymatch m with
      | upd_ent _ (Nix.set_metadata _) => fail
      | _ => wp_keep ent_grows (λ _ : pyid, True) grows_ptac HR
      end
  end;
  apply wp_upd_ent_bind; apply wp_ret;
  destruct Hc as (_ & _ & He);
  destruct (ev_entities _ _ _ _ HR _ _ He) as (? & He' & _);
  simpl; rewrite list_lookup_alter_eq, He'; reflexivity.

Ltac signal_described :=
  let seg := fresh "seg" in
  let Hfo := fresh "Hfo" in let Hann := fresh "Hann" in
  let Hdas := fresh "Hdas" in
  wp_skip_to @create_section; apply wp_skip; intros seg ?;
  wp_with when_property_holds; intros [] ? Hfo; rest_settles;
  wp_with when_add_annotations_holds; intros [] ? Hann; rest_settles;
  cbv zeta; apply wp_bind; eapply wp_mono;
  [ apply (wp_map_m_each _ (λ da s, metadata_at s (PEnt da) = Some seg));
    [ intros [? ?]; cbv beta iota; solve [settles_tac]
    | intros ? ? ? ? ?; by eapply metadata_at_settled
    | array_gets_section ]
  | ];
  cbv beta; intros ? ? Hdas; rest_settles;
  apply wp_skip; intros ? ?; apply wp_ret; intros;
  unfold described; simpl; repeat split; try done;
  intros; exists seg;
  (split; [ eauto using metadata_at_settled
          | eauto 6 using section_holds_settled ]).

Lemma write_analogsignal_described (x : Neo.AnalogSignal) parent_path st :
  wp (write_analogsignal x parent_path)
     (λ hs st', ∀ h, h ∈ hs →
        described (Under (WriteAnalogSignal x) parent_path) h st') st.
Proof. unfold write_analogsignal. signal_described. Qed.

Lemma write_irregularlysampledsignal_described
    (x : Neo.IrregularlySampledSignal) parent_path st :
  wp (write_irregularlysampledsignal x parent_path)
     (λ hs st', ∀ h, h ∈ hs →
        described (Under (WriteIrregularlySampledSignal x) parent_path) h st')
     st.
Proof. unfold write_irregularlysampledsignal. signal_described. Qed.


(** X8: whenever a conversion returns, the metadata of every object it
    returns holds the file of origin of the entity, when it has one, under
    [file_origin], every annotation of the entity under its own key, and,
    for a Block or a Segment with a date of file, its timestamp under
    [file_datetime].  For a signal this is true of every DataArray. *)
Theorem attributes_reach_the_metadata (c : conversion) (st st' : State)
    (hs : list Nix.handle) (h : Nix.handle) :
  convert c st = (st', Ok hs) → h ∈ hs → described c h st'.
Proof.
  intros Hrun Hin. revert h Hin.
  apply (wp_run (convert c) (λ hs st', ∀ h, h ∈ hs → described c h st')
           st st' hs); [|done].
  assert (∀ (Q : Nix.handle → State → Prop) (m : M Nix.handle) s,
            wp m Q s →
            wp (h ← m; ret [h]) (λ hs st', ∀ h, h ∈ hs → Q h st') s) as Hone.
  { intros Q m s Hm. apply wp_bind. eapply wp_mono; [exact Hm|].
    intros h s' HQ. apply wp_ret.
    by intros ? ->%list_elem_of_singleton. }
  destruct c as [x|[x|x|x|x|x|x|x|x] p]; cbn [convert].
  - apply Hone, write_block_described.
  - apply Hone, write_segment_described.
  - apply Hone, write_recordingchannelgroup_described.
  - apply write_analogsignal_described.
  - apply write_irregularlysampledsignal_described.
  - apply Hone, write_epoch_described.
  - apply Hone, write_event_described.
  - apply Hone. wp_use write_spiketrain_described. by intros ? ? [? _].
  - apply Hone, write_unit_described.
Qed.

(** X9: when [write_spiketrain] returns, the metadata of its MultiTag holds
    the end of the train under [t_stop], and its start under [t_start]
    whenever the start is given and is not zero, both as magnitudes in the
    units of the spike times. *)
Theorem spiketrain_bounds_are_stored (sptr : Neo.SpikeTrain)
    (parent_path : listref) (st st' : State) (h : Nix.handle) :
  write_spiketrain sptr parent_path st = (st', Ok h) →
  bounds_stored sptr h st'.
Proof.
  apply (wp_run (write_spiketrain sptr parent_path)
           (λ h st', bounds_stored sptr h st')).
  wp_use write_spiketrain_described. by intros ? ? [_ ?].
Qed.


(** ** The objects a routine makes *)

Lemma wp_and {A} (m : M A) (Q1 Q2 : A → State → Prop) st :
  wp m Q1 st → wp m Q2 st → wp m (λ a s, Q1 a s ∧ Q2 a s) st.
Proof. unfold wp. by destruct (m st) as [st' [a|e]]. Qed.

Lemma stands_settled e0 h a b : settled a b → stands e0 h a → stands e0 h b.
Proof.
  intros H (e & He & K).
  destruct (ev_entities _ _ _ _ H _ _ He) as (e' & He' & K').
  exists e'. split; [done|]. by eapply kept_trans.
Qed.

Lemma stands_created e0 st h st' : created e0 st h st' → stands e0 h st'.
Proof. intros (_ & _ & He). exists e0. split; [done|apply kept_refl]. Qed.

Lemma stands_lt e0 h st : stands e0 h st → h < length (entities st).
Proof. intros (e & He & _). by eapply lookup_lt_Some. Qed.

Lemma stands_update e0 h st f :
  (∀ e, kept e0 e → kept (f e0) (f e)) →
  stands e0 h st →
  stands (f e0) h (set_entities (alter f h (entities st)) st).
Proof.
  intros Hf (e & He & K). exists (f e). split; [|by apply Hf].
  simpl. by rewrite list_lookup_alter_eq, He.
Qed.

Lemma stands_other e0 h h' st f :
  h' ≠ h → stands e0 h st →
  stands e0 h (set_entities (alter f h' (entities st)) st).
Proof.
  intros Hne (e & He & K). exists e. split; [|done].
  simpl. by rewrite list_lookup_alter_ne.
Qed.

Lemma append_dimension_stands e0 h d st :
  stands e0 h st →
  wp (append_dimension h d)
     (λ i st', i = length (Nix.dimensions e0) ∧
        st' = set_entities
                (alter (λ e, Nix.set_dimensions (Nix.dimensions e ++ [d]) e) h
                   (entities st)) st) st.
Proof.
  intros (e & He & K). unfold append_dimension, get_ent, upd_ent. wp_go.
  split; [|done]. f_equal. simplify_eq. apply K.
Qed.

(** The setters act on an entity as on the one it stands for. *)
Ltac kept_setter :=
  intros [[] ? ? ? ? ? ? ?]; constructor; [constructor|..]; simpl;
  first [ congruence | assumption | done ].

Lemma kept_set_definition v e0 e :
  kept e0 e → kept (Nix.set_definition v e0) (Nix.set_definition v e).
Proof. kept_setter. Qed.

Lemma kept_set_unit v e0 e :
  kept e0 e → kept (Nix.set_unit v e0) (Nix.set_unit v e).
Proof. kept_setter. Qed.

Lemma kept_set_created_at v e0 e :
  kept e0 e → kept (Nix.set_created_at v e0) (Nix.set_created_at v e).
Proof. kept_setter. Qed.

Lemma kept_set_extents v e0 e :
  kept e0 e → kept (Nix.set_extents v e0) (Nix.set_extents v e).
Proof. kept_setter. Qed.

Lemma kept_set_metadata v e0 e :
  kept e0 e → kept (Nix.set_metadata v e0) (Nix.set_metadata v e).
Proof. kept_setter. Qed.

Lemma kept_append_dimension d e0 e :
  kept e0 e →
  kept (Nix.set_dimensions (Nix.dimensions e0 ++ [d]) e0)
       (Nix.set_dimensions (Nix.dimensions e ++ [d]) e).
Proof. kept_setter. Qed.

Lemma kept_alter_dimension (g : Nix.Dimension → Nix.Dimension) (i : nat) e0 e :
  kept e0 e →
  kept (Nix.set_dimensions (alter g i (Nix.dimensions e0)) e0)
       (Nix.set_dimensions (alter g i (Nix.dimensions e)) e).
Proof. kept_setter. Qed.

Ltac kept_mono :=
  intros ?;
  first [ apply kept_set_definition | apply kept_set_unit
        | apply kept_set_created_at | apply kept_set_extents
        | apply kept_set_metadata | apply kept_append_dimension
        | apply kept_alter_dimension ].

(** Carry what is known of the objects over a step that settles. *)
Ltac stands_settle HS :=
  repeat match goal with
  | H : stands _ _ ?s |- _ =>
      lazymatch type of HS with
      | settled s _ => apply (stands_settled _ _ _ _ HS) in H
      end
  end.

(** ... and over the update [f] of the object [h] in the state [s]. *)
Ltac stands_alter s h f :=
  repeat match goal with
  | H : stands _ ?h' s |- _ =>
      first [ constr_eq h' h;
              apply (stands_update _ _ _ f ltac:(kept_mono)) in H;
              lazymatch type of H with
              | stands ?T ?k ?s' =>
                  let T' := eval cbn in T in change (stands T' k s') in H
              end
            | apply (stands_other _ h' h _ f ltac:(lia)) in H ]
  end.

Ltac stand_create spec :=
  let Hc := fresh "Hc" in let HS := fresh "HS" in
  apply wp_bind; eapply wp_frame_settles; [settles_generic|];
  wp_use spec; intros ? ? Hc HS;
  lazymatch type of HS with
  | settled ?s _ =>
      repeat match goal with
      | H : stands _ ?h' s |- _ =>
          lazymatch goal with
          | _ : h' < length (entities s) |- _ => fail
          | _ => pose proof (stands_lt _ _ _ H)
          end
      end
  end;
  stands_settle HS;
  pose proof (proj1 Hc);
  pose proof (stands_created _ _ _ _ Hc);
  clear Hc HS.

Ltac stand_step :=
  lazymatch goal with
  | |- wp (ret _) _ _ => apply wp_ret; cbv beta
  | |- wp (let _ := _ in _) _ _ => cbv zeta
  | |- wp (?m ≫= _) _ ?s =>
      let hd := head_of m in
      lazymatch hd with
      | @create_data_array => stand_create create_data_array_spec
      | @create_multi_tag => stand_create create_multi_tag_spec
      | @create_source => stand_create create_source_spec
      | @create_group => stand_create create_group_spec
      | @create_block => stand_create create_block_spec
      | _ =>
          lazymatch m with
          | upd_ent ?h ?f => apply (wp_upd_ent_bind h f); stands_alter s h f
          | upd_dimension ?h ?i ?g =>
              let f := constr:(λ e, Nix.set_dimensions
                                      (alter g i (Nix.dimensions e)) e) in
              apply (wp_upd_ent_bind h f); stands_alter s h f
          | append_dimension ?h ?d =>
              lazymatch goal with
              | H : stands _ h s |- _ =>
                  apply wp_bind;
                  wp_use (append_dimension_stands _ h d _ H);
                  intros ? ? [-> ->];
                  stands_alter s h
                    (λ e, Nix.set_dimensions (Nix.dimensions e ++ [d]) e)
              end
          | _ =>
              first
                [ let HS := fresh "HS" in
                  eapply (wp_settle _ _ _ _ _ (settled_refl _));
                  [ solve [settles_tac] | intros ? ? HS ];
                  stands_settle HS; clear HS
                | lazymatch m with
                  | match ?x with _ => _ end => apply wp_bind; destruct x
                  | when ?c _ => apply wp_bind; unfold when at 1; destruct c
                  | _ ≫= _ => apply wp_bind
                  end ]
          end
      end
  | |- wp (upd_ent ?h ?f) _ ?s =>
      apply (wp_upd_ent h f); cbv beta; stands_alter s h f
  | |- wp (match ?x with _ => _ end) _ _ => destruct x
  end.

(** What is known of the object, read off the entity it stands for. *)
Ltac stand_end :=
  lazymatch goal with
  | |- ∃ e, entities ?s !! ?h = Some e ∧ _ =>
      lazymatch goal with
      | H : stands _ h s |- _ =>
          let e := fresh "e" in let He := fresh "He" in
          destruct H as (e & He & [[] ? ? ? ? ? ? ?]);
          exists e; split; [exact He|];
          repeat split; (etrans; [eassumption|reflexivity])
      end
  end.

(** Skip what comes before the first object is made, then follow the
    objects to the end. *)
Ltac stand_go :=
  repeat lazymatch goal with
  | |- wp (?m ≫= _) _ _ =>
      let hd := head_of m in
      lazymatch hd with
      | @create_data_array => fail
      | @create_multi_tag => fail
      | @create_source => fail
      | @create_group => fail
      | @create_block => fail
      | _ => apply wp_skip; intros ? ?
      end
  | |- wp (let _ := _ in _) _ _ => cbv zeta
  end;
  repeat stand_step.

Ltac shaped_tac :=
  unfold shaped;
  cbn [sink_kind sink_type rec_datetime_of base_of entity_of];
  stand_go; stand_end.

Lemma write_segment_shaped (x : Neo.Segment) parent_path st :
  wp (write_segment x parent_path)
     (λ h st', shaped (Under (WriteSegment x) parent_path) h st') st.
Proof. unfold write_segment. shaped_tac. Qed.


Lemma write_block_shaped (x : Neo.Block) st :
  wp (write_block x) (λ h st', shaped (OfBlock x) h st') st.
Proof. unfold write_block. shaped_tac. Qed.

Lemma write_recordingchannelgroup_shaped (x : Neo.RecordingChannelGroup)
    parent_path st :
  wp (write_recordingchannelgroup x parent_path)
     (λ h st', shaped (Under (WriteRecordingChannelGroup x) parent_path) h st')
     st.
Proof. unfold write_recordingchannelgroup. shaped_tac. Qed.

Lemma write_unit_shaped (x : Neo.Unit) parent_path st :
  wp (write_unit x parent_path)
     (λ h st', shaped (Under (WriteUnit x) parent_path) h st') st.
Proof. unfold write_unit. shaped_tac. Qed.

Lemma write_epoch_shaped (x : Neo.Epoch) parent_path st :
  wp (write_epoch x parent_path)
     (λ h st', shaped (Under (WriteEpoch x) parent_path) h st') st.
Proof. unfold write_epoch. shaped_tac. Qed.

Lemma write_event_shaped (x : Neo.Event) parent_path st :
  wp (write_event x parent_path)
     (λ h st', shaped (Under (WriteEvent x) parent_path) h st') st.
Proof. unfold write_event. shaped_tac. Qed.

Lemma write_spiketrain_shaped (x : Neo.SpikeTrain) parent_path st :
  wp (write_spiketrain x parent_path)
     (λ h st', shaped (Under (WriteSpikeTrain x) parent_path) h st') st.
Proof. unfold write_spiketrain. shaped_tac. Qed.


(** ** The blocks of the file, one by one *)

Lemma block_written_settled blk k h s s' :
  settled s s' → block_written blk k h s → block_written blk k h s'.
Proof.
  intros HS (e & He & H).
  destruct (ev_entities _ _ _ _ HS _ _ He) as (e' & He' & [[] ? ? ? ? ? ? ?]).
  exists e'. split; [done|]. intuition congruence.
Qed.

Lemma write_block_written (x : Neo.Block) st :
  wp (write_block x)
     (λ h st', blocks st' = blocks st ++ [h] ∧
        block_written x (length (blocks st)) h st') st.
Proof.
  eapply wp_mono.
  { apply wp_and; [apply write_block_blocks|].
    apply wp_and; [apply write_block_named|apply write_block_shaped]. }
  cbv beta. intros h st' (Hb & (nm & Hnm & e & He & Hname) & e' & He' & Hsh).
  split; [exact Hb|]. simplify_eq. exists e. split; [done|].
  destruct Hsh as (Hk & Hty & Hd & _). do 3 (split; [done|]).
  unfold sink_name in Hnm. cbn [explicit_name] in Hnm.
  by destruct (truthy_str (Neo.name x)).
Qed.

Lemma write_all_blocks_written (neo_blocks : list Neo.Block) : ∀ st,
  wp (write_all_blocks neo_blocks)
     (λ hs st', length hs = length neo_blocks ∧
        blocks st' = blocks st ++ hs ∧
        ∀ i h blk, hs !! i = Some h → neo_blocks !! i = Some blk →
          block_written blk (length (blocks st) + i) h st') st.
Proof.
  unfold write_all_blocks.
  induction neo_blocks as [|x l IH]; intros st; cbn [map_m].
  - apply wp_ret. split; [done|]. split; [by rewrite app_nil_r|].
    by intros i h blk.
  - wp_with write_block_written. intros h s [Hs Hw].
    apply wp_bind. eapply wp_frame_settles;
      [apply settles_map_m; intros ?; apply settles_write_block|].
    wp_use IH. intros hs s' (Hl & Hs' & Hall) HS. apply wp_ret.
    split; [simpl; lia|]. split; [rewrite Hs', Hs; by rewrite <- app_assoc|].
    intros [|i] h' blk Hh Hblk; simpl in Hh, Hblk.
    + simplify_eq. rewrite Nat.add_0_r. by eapply block_written_settled.
    + specialize (Hall i h' blk Hh Hblk).
      rewrite Hs, length_app in Hall. simpl in Hall.
      by replace (length (blocks st) + S i)
        with (length (blocks st) + 1 + i) by lia.
Qed.

(** X5: when [write_all_blocks] returns, it returns one NIX block for each
    Neo block; these are the blocks added at the end of the file's list of
    blocks, and nothing else was added to that list or taken from it; and
    the block at each position is the one written for the Neo block at
    that position: its definition is the description of that block, and
    its name is the name of that block or, when it has none, [neo.Block]
    followed by the number of blocks that came before it in the file. *)
Theorem blocks_are_appended_in_order (neo_blocks : list Neo.Block)
    (st st' : State) (hs : list Nix.handle) :
  write_all_blocks neo_blocks st = (st', Ok hs) →
  length hs = length neo_blocks ∧
  blocks st' = blocks st ++ hs ∧
  ∀ i h blk, hs !! i = Some h → neo_blocks !! i = Some blk →
    block_written blk (length (blocks st) + i) h st'.
Proof.
  intros Hrun.
  exact (wp_run _ _ _ _ _ (write_all_blocks_written neo_blocks st) Hrun).
Qed.


(** *** The arrays of a signal *)

Lemma wp_map_m_indexed {A B} (body : nat * A → M B)
    (P : nat → A → B → State → Prop) :
  (∀ x, settles (body x)) →
  (∀ i x b s s', settled s s' → P i x b s → P i x b s') →
  (∀ i x st, wp (body (i, x)) (P i x) st) →
  ∀ xs k st,
    wp (map_m body (enumerate_from k xs))
       (λ bs st', ∀ i b, bs !! i = Some b →
          ∃ x, xs !! i = Some x ∧ P (k + i) x b st') st.
Proof.
  intros Hs Hst Hb. induction xs as [|x xs IH]; intros k st.
  - apply wp_ret. by intros i b.
  - change (enumerate_from k (x :: xs))
      with ((k, x) :: enumerate_from (S k) xs).
    cbn [map_m]. wp_with Hb. intros b s1 Hb1.
    apply wp_bind. eapply wp_frame_settles; [by apply settles_map_m|].
    wp_use IH. intros bs s2 Hbs H12. apply wp_ret.
    intros [|i] b' Hi; simpl in Hi.
    + injection Hi as <-. exists x. split; [done|].
      rewrite Nat.add_0_r. by eapply Hst.
    + destruct (Hbs i b' Hi) as (x' & Hx' & HP). exists x'. split; [done|].
      by replace (k + S i) with (S k + i) by lia.
Qed.

Lemma column_written_settled sig col da s s' :
  settled s s' → column_written sig col da s → column_written sig col da s'.
Proof.
  intros HS (e & He & H).
  destruct (ev_entities _ _ _ _ HS _ _ He) as (e' & He' & [[] ? ? ? ? ? ? ?]).
  exists e'. split; [done|]. intuition congruence.
Qed.

Ltac signal_arrays sig :=
  let Hdas := fresh "Hdas" in
  wp_skip_to @map_m; cbv zeta; apply wp_bind; eapply wp_mono;
  [ apply (wp_map_m_indexed _ (λ _ col da s, column_written sig col da s));
    [ intros [? ?]; cbv beta iota; solve [settles_tac]
    | intros ? ? ? ? ?; apply column_written_settled
    | intros ? ? ?; cbv beta iota; unfold column_written;
      cbn [signal_type signal_base signal_units time_dimension];
      stand_go; stand_end ]
  | ];
  cbv beta; intros ? ? Hdas; rest_settles;
  apply wp_skip; intros ? ?; apply wp_ret; intros HS idx da Hi;
  destruct (Hdas _ _ Hi) as (col & Hcol & HP);
  exists col; split; [exact Hcol|];
  exact (column_written_settled _ _ _ _ _ HS HP).

Lemma write_analogsignal_arrays (x : Neo.AnalogSignal) parent_path st :
  wp (write_analogsignal x parent_path)
     (λ das st', ∀ idx da, das !! idx = Some da →
        array_written (Analog x) idx da st') st.
Proof. unfold write_analogsignal. signal_arrays (Analog x). Qed.

Lemma write_irregularlysampledsignal_arrays
    (x : Neo.IrregularlySampledSignal) parent_path st :
  wp (write_irregularlysampledsignal x parent_path)
     (λ das st', ∀ idx da, das !! idx = Some da →
        array_written (Irregular x) idx da st') st.
Proof. unfold write_irregularlysampledsignal. signal_arrays (Irregular x). Qed.


(** X10: whenever a conversion returns, every object it returns has the
    kind and the type of the conversion ([neo.segment] for a Segment, and
    so on), its definition is the description of the entity, and its time
    of creation is the timestamp of the date of recording of a Block or a
    Segment that has one, and is not written otherwise. *)
Theorem sink_objects_are_shaped (c : conversion) (st st' : State)
    (hs : list Nix.handle) (h : Nix.handle) :
  convert c st = (st', Ok hs) → h ∈ hs → shaped c h st'.
Proof.
  intros Hrun Hin. revert h Hin.
  apply (wp_run (convert c) (λ hs st', ∀ h, h ∈ hs → shaped c h st')
           st st' hs); [|done].
  assert (∀ (Q : Nix.handle → State → Prop) (m : M Nix.handle) s,
            wp m Q s →
            wp (h ← m; ret [h]) (λ hs st', ∀ h, h ∈ hs → Q h st') s) as Hone.
  { intros Q m s Hm. apply wp_bind. eapply wp_mono; [exact Hm|].
    intros h s' HQ. apply wp_ret.
    by intros ? ->%list_elem_of_singleton. }
  assert (∀ sig (Q : Nix.handle → State → Prop) (m : M (list Nix.handle)) s,
            (∀ col da st', column_written sig col da st' → Q da st') →
            wp m (λ das st', ∀ idx da, das !! idx = Some da →
                    array_written sig idx da st') s →
            wp m (λ hs st', ∀ h, h ∈ hs → Q h st') s) as Hall.
  { intros sig Q m s HQ Hm. eapply wp_mono; [exact Hm|].
    intros das s' Hdas h [idx Hidx]%list_elem_of_lookup.
    destruct (Hdas _ _ Hidx) as (col & _ & Hcol). by eapply HQ. }
  destruct c as [x|[x|x|x|x|x|x|x|x] p]; cbn [convert].
  - apply Hone, write_block_shaped.
  - apply Hone, write_segment_shaped.
  - apply Hone, write_recordingchannelgroup_shaped.
  - apply (Hall (Analog x)); [|apply write_analogsignal_arrays].
    intros col da s (e & He & ? & ? & ? & ? & _). by exists e.
  - apply (Hall (Irregular x)); [|apply write_irregularlysampledsignal_arrays].
    intros col da s (e & He & ? & ? & ? & ? & _). by exists e.
  - apply Hone, write_epoch_shaped.
  - apply Hone, write_event_shaped.
  - apply Hone, write_spiketrain_shaped.
  - apply Hone, write_unit_shaped.
Qed.

(** X11: when the writer of a signal returns, the DataArray at position
    [idx] of its result holds the column [idx] of the signal, in the units
    of the signal, and has two dimensions: the dimension of time, labelled
    [time] and in the units of time (sampled from the start of the signal
    by its sampling period for an AnalogSignal, the times themselves for
    an IrregularlySampledSignal), then an empty set dimension. *)
Theorem signal_arrays_hold_the_columns (sig : signal) (parent_path : listref)
    (st st' : State) (das : list Nix.handle) (idx : nat) (da : Nix.handle) :
  write_signal sig parent_path st = (st', Ok das) →
  das !! idx = Some da →
  array_written sig idx da st'.
Proof.
  intros Hrun. revert idx da.
  apply (wp_run (write_signal sig parent_path)
           (λ das st', ∀ idx da, das !! idx = Some da →
              array_written sig idx da st') st st' das); [|done].
  destruct sig as [x|x]; cbn [write_signal].
  - apply write_analogsignal_arrays.
  - apply write_irregularlysampledsignal_arrays.
Qed.


(** *** The arrays of a MultiTag *)

Ltac anchored_end :=
  unfold anchored;
  lazymatch goal with
  | |- ∃ e tda, entities ?s !! ?h = Some e ∧ _ =>
      lazymatch goal with
      | H : stands _ h s |- _ =>
          let e := fresh "e" in let He := fresh "He" in
          destruct H as (e & He & [[] ? ? ? ? ? ? ?]);
          exists e; eexists; split; [exact He|];
          split; [etrans; [eassumption|reflexivity]|];
          split; [etrans; [eassumption|reflexivity]|];
          unfold quantity_array; stand_end
      end
  end.

Lemma write_epoch_written (x : Neo.Epoch) parent_path st :
  wp (write_epoch x parent_path) (epoch_written x) st.
Proof.
  unfold write_epoch. stand_go. unfold epoch_written.
  eexists. split; [anchored_end|]. unfold quantity_array. stand_end.
Qed.

Lemma write_event_written (x : Neo.Event) parent_path st :
  wp (write_event x parent_path) (event_written x) st.
Proof. unfold write_event. stand_go. unfold event_written. anchored_end. Qed.

Lemma write_spiketrain_spikes (x : Neo.SpikeTrain) parent_path st :
  wp (write_spiketrain x parent_path) (spikes_written x) st.
Proof.
  unfold write_spiketrain. stand_go; unfold spikes_written; anchored_end.
Qed.

(** X12: when [write_epoch] returns, the positions of its MultiTag are a
    DataArray of type [neo.epoch.times] that holds the times of the epoch
    in their units, with one set dimension whose labels are those of the
    epoch; its extents are a DataArray of type [neo.epoch.durations] that
    holds the durations in their units. *)
Theorem epoch_times_and_durations_are_stored (ep : Neo.Epoch)
    (parent_path : listref) (st st' : State) (h : Nix.handle) :
  write_epoch ep parent_path st = (st', Ok h) → epoch_written ep h st'.
Proof. apply wp_run, write_epoch_written. Qed.

(** X13: when [write_event] returns, the positions of its MultiTag are a
    DataArray of type [neo.event.times] that holds the times of the event
    in their units, with one set dimension whose labels are those of the
    event; the MultiTag has no extents. *)
Theorem event_times_are_stored (ev : Neo.Event) (parent_path : listref)
    (st st' : State) (h : Nix.handle) :
  write_event ev parent_path st = (st', Ok h) → event_written ev h st'.
Proof. apply wp_run, write_event_written. Qed.

(** X14: when [write_spiketrain] returns, the positions of its MultiTag
    are a DataArray that holds the spike times in their units; it has no
    dimension, and the MultiTag has no extents. *)
Theorem spike_times_are_stored (sptr : Neo.SpikeTrain) (parent_path : listref)
    (st st' : State) (h : Nix.handle) :
  write_spiketrain sptr parent_path st = (st', Ok h) →
  spikes_written sptr h st'.
Proof. apply wp_run, write_spiketrain_spikes. Qed.


(** *** The channels of a group *)

Lemma wp_for_each_indexed {A} (body : nat * A → M unit)
    (P : nat → A → State → Prop) :
  (∀ x, settles (body x)) →
  (∀ i x s s', settled s s' → P i x s → P i x s') →
  (∀ i x st, wp (body (i, x)) (λ _, P i x) st) →
  ∀ xs k st,
    wp (for_each (enumerate_from k xs) body)
       (λ _ st', ∀ i x, xs !! i = Some x → P (k + i) x st') st.
Proof.
  intros Hs Hst Hb. induction xs as [|x xs IH]; intros k st.
  - apply wp_ret. by intros i x.
  - change (enumerate_from k (x :: xs))
      with ((k, x) :: enumerate_from (S k) xs).
    cbn [for_each]. wp_with Hb. intros [] s1 Hb1.
    eapply wp_frame_settles; [by apply settles_for_each|].
    wp_use IH. intros [] s2 Hbs H12.
    intros [|i] x' Hi; simpl in Hi.
    + injection Hi as <-. rewrite Nat.add_0_r. by eapply Hst.
    + replace (k + S i) with (S k + i) by lia. by apply Hbs.
Qed.

Lemma child_source_settled h ch s s' :
  settled s s' → child_source h ch s → child_source h ch s'.
Proof.
  intros HS (e & He & Hin).
  destruct (ev_entities _ _ _ _ HS _ _ He) as (e' & He' & [[] ? ? ? ? ? ? ?]).
  exists e'. split; [done|]. by eapply elem_of_prefix.
Qed.

Lemma channel_source_written_settled rcg nm idx ch s s' :
  settled s s' → channel_source_written rcg nm idx ch s →
  channel_source_written rcg nm idx ch s'.
Proof.
  intros HS ((e & He & H) & Hfo & Hco).
  destruct (ev_entities _ _ _ _ HS _ _ He) as (e' & He' & [[] ? ? ? ? ? ? ?]).
  split; [|split].
  - exists e'. split; [done|]. intuition congruence.
  - intros Ht. eapply holds_settled; [exact HS|]. by apply Hfo.
  - intros cs cc Hcs Hcc. destruct (Hco cs cc Hcs Hcc).
    split; by eapply holds_settled.
Qed.

Lemma create_source_child p nm ty st :
  wp (create_source (PEnt p) nm ty)
     (λ h st', child_source p h st') st.
Proof.
  unfold create_source. wp_unfold. wp_go.
  match goal with H : entities st !! p = Some ?pe |- _ =>
    exists (Nix.set_sources (Nix.sources pe ++ [length (entities st)]) pe)
  end.
  split; [|simpl; set_solver].
  simpl. rewrite list_lookup_alter_eq, lookup_app_l by (by eapply lookup_lt_Some).
  by simplify_option_eq.
Qed.

Lemma channel_name_spec (rcg : Neo.RecordingChannelGroup) nm idx st :
  wp (if bool_decide (length (Neo.channel_names rcg) ≠ 0) then
        match Neo.channel_names rcg !! idx with
        | Some n => ret n
        | None => raise (IndexError "index out of bounds")
        end
      else ret (nm +:+ "." +:+ pretty idx))
     (λ n st', st' = st ∧ Some n = channel_name rcg nm idx) st.
Proof.
  unfold channel_name. case_bool_decide.
  - destruct (Neo.channel_names rcg !! idx); [by apply wp_ret|apply wp_raise].
  - by apply wp_ret.
Qed.

Lemma store_two_spec o p k1 v1 k2 v2 st :
  wp (md ← _get_or_init_metadata o p;
      create_property md k1 v1;; create_property md k2 v2)
     (λ _ st', holds o k1 v1 st' ∧ holds o k2 v2 st') st.
Proof.
  wp_with get_or_init_metadata_ensures. intros md s1 [Hmd _].
  apply wp_bind. eapply wp_frame_settles; [apply settles_create_property|].
  wp_use create_property_holds. intros [] s2 H1 H12.
  eapply wp_frame_settles; [apply settles_create_property|].
  wp_use create_property_holds. intros [] s3 H2 H23.
  split; exists md; split;
    eauto using metadata_at_settled, section_holds_settled.
Qed.

Lemma write_channel_spec rcg src nm path idx st :
  wp (write_channel rcg src nm path idx)
     (λ _ st', ∃ ch, child_source src ch st' ∧
        channel_source_written rcg nm idx ch st') st.
Proof.
  unfold write_channel.
  wp_with channel_name_spec. intros n ? [-> Hn]. cbv zeta.
  apply wp_bind. eapply wp_frame_settles; [settles_generic|].
  eapply wp_mono.
  { apply (wp_and (create_source (PEnt src) n "neo.recordingchannel")).
    - apply create_source_spec.
    - apply create_source_child. }
  cbv beta. intros ch s1 [Hc Hchild] _.
  apply stands_created in Hc.
  apply (wp_upd_ent_bind ch). stands_alter s1 ch (Nix.set_definition (Neo.description rcg)).
  assert (child_source src ch
            (set_entities
               (alter (Nix.set_definition (Neo.description rcg)) ch
                  (entities s1)) s1)) as Hchild'.
  { destruct Hchild as (e & He & Hin).
    destruct (decide (ch = src)) as [->|Hne].
    - exists (Nix.set_definition (Neo.description rcg) e).
      split; [|done]. simpl. by rewrite list_lookup_alter_eq, He.
    - exists e. split; [|done]. simpl. by rewrite list_lookup_alter_ne. }
  clear Hchild. rest_settles.
  apply wp_skip. intros chan_obj_path s2.
  wp_with when_store_spec. intros [] s3 Hfo. rest_settles.
  eapply wp_mono.
  { apply (wp_and _ (λ _ st', ∀ cs cc,
             Neo.coordinates rcg = Some cs → cs !! idx = Some cc →
             holds (PEnt ch) "coordinates"
               ((λ c, VNumber (Neo.magnitude c)) <$> cc) st' ∧
             holds (PEnt ch) "coordinates.units"
               ((λ c, VString (Neo.units c)) <$> cc) st')
             (λ _ _, True)); [|apply wp_any].
    destruct (Neo.coordinates rcg) as [cs|]; [|by apply wp_ret].
    destruct (cs !! idx) as [cc|] eqn:Hcc; [|apply wp_raise].
    cbv zeta. wp_use store_two_spec.
    intros [] s4 H ? cc' [= <-] Hcc'. by simplify_eq. }
  cbv beta. intros [] s4 [Hco _] H34 H14.
  exists ch. split; [by eapply child_source_settled|].
  split; [|split].
  - apply (stands_settled _ _ _ _ H14) in Hc.
    destruct Hc as (e & He & [[] ? ? ? ? ? ? ?]).
    exists e. split; [exact He|].
    repeat split; try (etrans; [eassumption|reflexivity]).
    rewrite <- Hn. f_equal. etrans; [eassumption|reflexivity].
  - intros Ht. eapply holds_settled; [exact H34|]. by apply Hfo.
  - exact Hco.
Qed.


Lemma write_recordingchannelgroup_channels (x : Neo.RecordingChannelGroup)
    parent_path st :
  wp (write_recordingchannelgroup x parent_path)
     (group_channels_written x) st.
Proof.
  unfold write_recordingchannelgroup.
  wp_skip_to @create_source.
  repeat lazymatch goal with
  | |- wp (for_each (enumerate_from _ _) _ ≫= _) _ _ => fail
  | |- _ => stand_step
  end.
  all: lazymatch goal with
       | H : stands _ ?h ?s |- wp (for_each _ (λ '(idx, _),
               write_channel _ _ ?nm ?path idx) ≫= _) _ ?s =>
           apply wp_bind; eapply wp_frame_settles; [solve [settles_tac]|];
           eapply wp_mono;
           [ apply (wp_for_each_indexed _
                      (λ idx (_ : Z) s', ∃ ch, child_source h ch s' ∧
                         channel_source_written x nm idx ch s'));
             [ intros [? ?]; cbv beta iota; apply settles_write_channel
             | intros ? ? ? ? HS (ch & ? & ?); exists ch;
               split; [by eapply child_source_settled
                      |by eapply channel_source_written_settled]
             | intros ? ? ?; cbv beta iota; apply write_channel_spec ]
           | ];
           cbv beta; intros [] ? Hch HS;
           apply (stands_settled _ _ _ _ HS) in H; clear HS;
           rest_settles;
           repeat (apply wp_skip; intros ? ?); apply wp_ret; intros HS;
           apply (stands_settled _ _ _ _ HS) in H;
           destruct H as (e & He & [[] ? ? ? ? ? ? ?]);
           exists e; split; [exact He|];
           intros idx [c Hc]%lookup_lt_is_Some_2;
           destruct (Hch _ _ Hc) as (ch & Hchild & Hw);
           apply (child_source_settled _ _ _ _ HS) in Hchild;
           apply (channel_source_written_settled _ _ _ _ _ _ HS) in Hw;
           destruct Hchild as (e' & He' & Hin);
           exists ch; simplify_eq; split; [exact Hin|];
           lazymatch goal with
           | Hname : Nix.name e = _ |- _ => by rewrite Hname
           end
       end.
Qed.

(** X15: when [write_recordingchannelgroup] returns, every channel index
    of the group has a Source of type [neo.recordingchannel] among the
    sources of the Source of the group; it is named by the name the group
    lists at that position or, when the group lists no names, by the name
    of the group followed by the position; its definition is the
    description of the group; its metadata holds the file of origin of
    the group, when it has one, and, when the group has coordinates, those
    of the channel and their units. *)
Theorem channels_become_child_sources (rcg : Neo.RecordingChannelGroup)
    (parent_path : listref) (st st' : State) (h : Nix.handle) :
  write_recordingchannelgroup rcg parent_path st = (st', Ok h) →
  group_channels_written rcg h st'.
Proof. apply wp_run, write_recordingchannelgroup_channels. Qed.


(** *** The waveforms of a spike train *)

Lemma has_feature_grows h f s s' :
  grows s s' → has_feature h f s → has_feature h f s'.
Proof.
  intros HS (e & He & Hin).
  destruct (ev_entities _ _ _ _ HS _ _ He) as (e' & He' & []).
  exists e'. split; [done|]. by eapply elem_of_prefix.
Qed.

Lemma create_feature_spec mtag da lt st :
  wp (create_feature mtag da lt)
     (λ f st', created (new_feature da lt) st f st' ∧ has_feature mtag f st')
     st.
Proof.
  unfold create_feature. wp_unfold. wp_go.
  match goal with H : entities st !! mtag = Some ?pe |- _ =>
    assert (mtag < length (entities st)) by (by eapply lookup_lt_Some)
  end.
  split; [split; [done|split]|]; simpl.
  - rewrite length_alter, length_app. simpl. lia.
  - rewrite list_lookup_alter_ne by lia. by apply list_lookup_middle.
  - eexists. split.
    + simpl. rewrite list_lookup_alter_eq, lookup_app_l by done.
      by simplify_option_eq.
    + simpl. set_solver.
Qed.

Lemma left_sweep_spec (x : option Neo.Quantity) (v : Neo.Quantity → list Value)
    wda md st :
  metadata_at st (PEnt wda) = Some md →
  wp (match x with
      | Some q =>
          when (Neo.truthy_quantity (Some q))
            (md ← metadata_of (PEnt wda);
             match md with
             | Some md => create_property md "left_sweep" (v q)
             | None => raise (AttributeError "create_property")
             end)
      | None => ret tt
      end)
     (λ _ st', ∀ q, x = Some q → Neo.truthy_quantity (Some q) = true →
        holds (PEnt wda) "left_sweep" (v q) st') st.
Proof.
  intros Hmd. destruct x as [q|]; [|by apply wp_ret].
  unfold when. destruct (Neo.truthy_quantity (Some q)) eqn:Ht;
    [|apply wp_ret; intros ? [= <-] ?; congruence].
  wp_with metadata_of_spec. intros ? ? (-> & -> & _). rewrite Hmd.
  eapply wp_frame_settles; [apply settles_create_property|].
  wp_use create_property_holds. intros [] s' Hs HS q' [= <-] _.
  exists md. split; [by eapply metadata_at_settled|done].
Qed.

(** Follow the objects up to the feature, or to the sweep. *)
Ltac stand_to_waveforms :=
  repeat lazymatch goal with
  | |- wp (match Neo.sptr_waveforms _ with _ => _ end ≫= _) _ _ => fail
  | |- wp (create_feature _ _ _ ≫= _) _ _ => fail
  | |- wp (match Neo.sptr_left_sweep _ with _ => _ end) _ _ => fail
  | |- _ => stand_step
  end.

Lemma write_spiketrain_waveforms (x : Neo.SpikeTrain) parent_path st :
  wp (write_spiketrain x parent_path) (waveforms_written x) st.
Proof.
  unfold write_spiketrain. wp_skip_to @create_data_array.
  stand_to_waveforms.
  all: apply wp_bind; destruct (Neo.sptr_waveforms x) as [wf|] eqn:Hwf;
    [|apply wp_ret; apply wp_ret; intros ? ?; congruence].
  all: stand_to_waveforms.
  all: lazymatch goal with
       | |- wp (create_feature ?mt ?da ?lt ≫= _) _ ?s =>
           let Hc := fresh "Hc" in let Hf := fresh "Hfeat" in
           let HS := fresh "HS" in
           apply wp_bind; eapply wp_frame_settles; [settles_generic|];
           wp_use create_feature_spec; intros ? ? [Hc Hf] HS;
           repeat match goal with
           | H : stands _ ?h' s |- _ =>
               lazymatch goal with
               | _ : h' < length (entities s) |- _ => fail
               | _ => pose proof (stands_lt _ _ _ H)
               end
           end;
           stands_settle HS;
           pose proof (proj1 Hc);
           pose proof (stands_created _ _ _ _ Hc);
           clear Hc HS;
           eapply (wp_frame grows); [by_grows|]
       end.
  all: stand_to_waveforms.
  all: lazymatch goal with
       | Hw : stands (Nix.set_metadata (Some ?md) _) ?wda ?s
         |- wp (match Neo.sptr_left_sweep _ with _ => _ end) _ ?s =>
           assert (metadata_at s (PEnt wda) = Some md) as Hmd
             by (destruct Hw as (e & He & [_ _ _ _ _ _ _ Hm]);
                 cbn [metadata_at]; rewrite He; by apply Hm)
       end.
  all: eapply wp_frame_settles; [solve [settles_tac]|].
  all: cbv zeta.
  all: eapply wp_mono; [eapply @left_sweep_spec; exact Hmd|].
  all: cbv beta; intros [] ? Hsweep HS Hg; apply wp_ret.
  all: intros wf' Hwf'; assert (wf' = wf) as -> by congruence.
  all: stands_settle HS.
  all: lazymatch goal with
       | Hfe : stands (new_feature ?wda _) ?f ?s,
         Hwe : stands _ ?wda ?s,
         Hfeat : has_feature _ ?f _
         |- _ =>
           destruct Hfe as (fe & Hfe & [[] ? ? ? ? ? ? ?]);
           destruct Hwe as (we & Hwe & [[] ? ? ? ? ? ? ?]);
           exists f, fe, wda, we;
           split; [exact (has_feature_grows _ _ _ _ Hg Hfeat)|];
           split; [exact Hfe|];
           split; [etrans; [eassumption|reflexivity]|];
           split; [etrans; [eassumption|reflexivity]|];
           split; [eapply elem_of_prefix; [|eassumption]; simpl; set_solver|];
           split; [exact Hwe|];
           repeat (split; [etrans; [eassumption|reflexivity]|]);
           exact Hsweep
       end.
Qed.

(** X16: when [write_spiketrain] returns for a train with waveforms, its
    MultiTag has an indexed feature that links a DataArray of type
    [neo.waveforms]; the array holds the waveforms in their units, with a
    set dimension for the spikes, one for the channels and a dimension of
    time sampled by the sampling period; its metadata holds the left
    sweep, when it is given and not zero. *)
Theorem waveforms_become_a_feature (sptr : Neo.SpikeTrain)
    (parent_path : listref) (st st' : State) (h : Nix.handle) :
  write_spiketrain sptr parent_path st = (st', Ok h) →
  waveforms_written sptr h st'.
Proof. apply wp_run, write_spiketrain_waveforms. Qed.


(** ** Where the objects are attached *)

Lemma member_grows proj o h s s' :
  is_collection proj → grows s s' → member proj o h s → member proj o h s'.
Proof.
  intros Hc HS (p & e & -> & He & Hin).
  destruct (ev_entities _ _ _ _ HS _ _ He) as (e' & He' & []).
  exists p, e'. split; [done|]. split; [done|].
  destruct Hc; by eapply elem_of_prefix.
Qed.

Lemma settled_grows s s' : settled s s' → grows s s'.
Proof.
  intros [E S B Mp L]. constructor; try done.
  intros h e He. destruct (E h e He) as (e' & He' & []). eauto.
Qed.

Ltac member_here :=
  lazymatch goal with
  | H : entities ?st !! ?p = Some ?pe |- member _ (PEnt ?p) _ _ =>
      eexists p, _; split; [reflexivity|]; split;
      [ simpl; first
          [ rewrite list_lookup_alter_eq, lookup_app_l
              by (by eapply lookup_lt_Some)
          | rewrite list_lookup_alter_eq ];
        rewrite H; reflexivity
      | simpl; set_solver ]
  end.

Lemma create_group_member parent nm ty st :
  wp (create_group parent nm ty) (λ h st', member Nix.groups parent h st') st.
Proof.
  unfold create_group. wp_unfold. unfold collection, the_entity, get_ent.
  wp_go. simplify_eq. member_here.
Qed.

Lemma create_source_member parent nm ty st :
  wp (create_source parent nm ty) (λ h st', member Nix.sources parent h st') st.
Proof. unfold create_source. wp_unfold. wp_go. member_here. Qed.

Lemma data_arrays_append_member o da st :
  wp (data_arrays_append o da) (λ _ st', member Nix.data_arrays o da st') st.
Proof.
  unfold data_arrays_append. wp_unfold. unfold collection, the_entity, get_ent.
  wp_go. simplify_eq. member_here.
Qed.

Lemma multi_tags_append_member o mt st :
  wp (multi_tags_append o mt) (λ _ st', member Nix.multi_tags o mt st') st.
Proof.
  unfold multi_tags_append. wp_unfold. unfold collection, the_entity, get_ent.
  wp_go. simplify_eq. member_here.
Qed.

Lemma sources_append_member o src st :
  wp (sources_append o src) (λ _ st', member Nix.sources o src st') st.
Proof.
  unfold sources_append. wp_unfold. unfold collection, the_entity, get_ent.
  wp_go. simplify_eq. member_here.
Qed.


Lemma isinstance_spec o k st :
  wp (isinstance o k)
     (λ b st', st' = st ∧
        match o with
        | PEnt p => ∃ e, entities st !! p = Some e ∧
                      b = bool_decide (Nix.kind e = k)
        | _ => b = false
        end) st.
Proof.
  unfold isinstance. destruct o as [|p|]; [by apply wp_ret| |by apply wp_ret].
  unfold get_ent. wp_go. eauto.
Qed.

(** The rest of the routine only adds to the file. *)
Ltac attach_tail :=
  let Hg := fresh "Hg" in
  eapply (wp_frame grows); [by_grows|];
  repeat lazymatch goal with
  | |- wp (_ ≫= _) _ _ => apply wp_skip; intros ? ?
  | |- wp (let _ := _ in _) _ _ => cbv zeta
  end;
  apply wp_ret; intros Hg; cbn [attached];
  eapply member_grows; [constructor|exact Hg|eassumption].

Ltac attach_start r :=
  let parent := fresh "parent" in let Hrun := fresh "Hrun" in
  wp_with get_object_at_run; intros parent ? [-> Hrun];
  eapply (wp_mono _ (λ h st', attached r parent h st'));
  [|intros ? ? ?; exists parent; split; [exact Hrun|assumption]].

Ltac attach_at f spec :=
  wp_skip_to f; wp_with spec; intros ? ? ?; attach_tail.

Lemma write_segment_attached (x : Neo.Segment) parent_path st :
  wp (write_segment x parent_path)
     (λ h st', ∃ parent, _get_object_at parent_path st = (st, Ok parent) ∧
        attached (WriteSegment x) parent h st') st.
Proof.
  unfold write_segment. attach_start (WriteSegment x).
  attach_at @create_group create_group_member.
Qed.

Lemma write_recordingchannelgroup_attached (x : Neo.RecordingChannelGroup)
    parent_path st :
  wp (write_recordingchannelgroup x parent_path)
     (λ h st', ∃ parent, _get_object_at parent_path st = (st, Ok parent) ∧
        attached (WriteRecordingChannelGroup x) parent h st') st.
Proof.
  unfold write_recordingchannelgroup.
  attach_start (WriteRecordingChannelGroup x).
  attach_at @create_source create_source_member.
Qed.

Lemma write_unit_attached (x : Neo.Unit) parent_path st :
  wp (write_unit x parent_path)
     (λ h st', ∃ parent, _get_object_at parent_path st = (st, Ok parent) ∧
        attached (WriteUnit x) parent h st') st.
Proof.
  unfold write_unit. attach_start (WriteUnit x).
  attach_at @create_source create_source_member.
Qed.

Lemma write_epoch_attached (x : Neo.Epoch) parent_path st :
  wp (write_epoch x parent_path)
     (λ h st', ∃ parent, _get_object_at parent_path st = (st, Ok parent) ∧
        attached (WriteEpoch x) parent h st') st.
Proof.
  unfold write_epoch. attach_start (WriteEpoch x).
  attach_at @multi_tags_append multi_tags_append_member.
Qed.

Lemma write_event_attached (x : Neo.Event) parent_path st :
  wp (write_event x parent_path)
     (λ h st', ∃ parent, _get_object_at parent_path st = (st, Ok parent) ∧
        attached (WriteEvent x) parent h st') st.
Proof.
  unfold write_event. attach_start (WriteEvent x).
  attach_at @multi_tags_append multi_tags_append_member.
Qed.

Ltac signal_attached :=
  let parent := fresh "parent" in let Hrun := fresh "Hrun" in
  let Hdas := fresh "Hdas" in let Hg := fresh "Hg" in
  wp_with get_object_at_run; intros parent ? [-> Hrun];
  eapply (wp_mono _ (λ das st', ∀ da, da ∈ das →
            member Nix.data_arrays parent da st'));
    [|intros ? ? H; exists parent; split; [exact Hrun|exact H]];
  wp_skip_to @map_m; cbv zeta; apply wp_bind; eapply wp_mono;
  [ apply (wp_map_m_each _ (λ da s, member Nix.data_arrays parent da s));
    [ intros [? ?]; cbv beta iota; solve [settles_tac]
    | intros ? ? ? HS ?; eapply member_grows;
        [constructor|exact (settled_grows _ _ HS)|eassumption]
    | intros [? ?] ?; cbv beta iota;
      wp_skip_to @data_arrays_append;
      wp_with data_arrays_append_member; intros ? ? ?;
      eapply (wp_frame grows); [by_grows|];
      apply wp_skip; intros ? ?; apply wp_ret; intros Hg;
      eapply member_grows; [constructor|exact Hg|eassumption] ]
  | ];
  cbv beta; intros ? ? Hdas;
  eapply (wp_frame grows); [by_grows|];
  apply wp_skip; intros ? ?; apply wp_ret; intros Hg da Hda;
  eapply member_grows; [constructor|exact Hg|by apply Hdas].

Lemma write_analogsignal_attached (x : Neo.AnalogSignal) parent_path st :
  wp (write_analogsignal x parent_path)
     (λ hs st', ∃ parent, _get_object_at parent_path st = (st, Ok parent) ∧
        ∀ h, h ∈ hs → attached (WriteAnalogSignal x) parent h st') st.
Proof. unfold write_analogsignal. signal_attached. Qed.

Lemma write_irregularlysampledsignal_attached
    (x : Neo.IrregularlySampledSignal) parent_path st :
  wp (write_irregularlysampledsignal x parent_path)
     (λ hs st', ∃ parent, _get_object_at parent_path st = (st, Ok parent) ∧
        ∀ h, h ∈ hs →
          attached (WriteIrregularlySampledSignal x) parent h st') st.
Proof. unfold write_irregularlysampledsignal. signal_attached. Qed.

Lemma write_spiketrain_attached (x : Neo.SpikeTrain) parent_path st :
  wp (write_spiketrain x parent_path)
     (λ h st', ∃ parent, _get_object_at parent_path st = (st, Ok parent) ∧
        attached (WriteSpikeTrain x) parent h st') st.
Proof.
  unfold write_spiketrain. attach_start (WriteSpikeTrain x).
  wp_skip_to @isinstance.
  lazymatch goal with |- wp _ _ ?s => generalize s; intros s0 end.
  eapply (wp_frame grows); [by_grows|].
  wp_with isinstance_spec. intros b ? [-> Hb].
  apply wp_bind. destruct parent as [|p|].
  - subst b. wp_with isinstance_spec. intros b ? [-> ->]. apply wp_ret.
    repeat lazymatch goal with
    | |- wp (_ ≫= _) _ _ => apply wp_skip; intros ? ?
    | |- wp (let _ := _ in _) _ _ => cbv zeta
    end.
    apply wp_ret. intros _ ? ? [=].
  - destruct Hb as (e & He & ->). case_bool_decide as Hk.
    + wp_use multi_tags_append_member. intros [] s2 Hm.
      eapply (wp_frame grows); [by_grows|].
      repeat lazymatch goal with
      | |- wp (_ ≫= _) _ _ => apply wp_skip; intros ? ?
      | |- wp (let _ := _ in _) _ _ => cbv zeta
      end.
      apply wp_ret. intros Hg2 Hg0 p' pe [= <-] Hpe.
      destruct (ev_entities _ _ _ _ Hg0 _ _ He) as (pe' & Hpe' & []).
      simplify_eq. split; [|intros; congruence]. intros _.
      destruct (member_grows _ _ _ _ _ multi_tags_collection Hg2 Hm)
        as (? & ? & [= <-] & ? & ?).
      by simplify_eq.
    + wp_with isinstance_spec. intros b ? (-> & e' & He' & ->).
      simplify_eq. case_bool_decide as Hk'.
      * cbn [as_entity]. apply wp_bind, wp_ret.
        wp_use sources_append_member. intros [] s2 Hm.
        eapply (wp_frame grows); [by_grows|].
        repeat lazymatch goal with
        | |- wp (_ ≫= _) _ _ => apply wp_skip; intros ? ?
        | |- wp (let _ := _ in _) _ _ => cbv zeta
        end.
        apply wp_ret. intros Hg2 Hg0 p' pe [= <-] Hpe.
        destruct (ev_entities _ _ _ _ Hg0 _ _ He) as (pe' & Hpe' & []).
        simplify_eq. split; [intros; congruence|]. intros _.
        exact (member_grows _ _ _ _ _ sources_collection Hg2 Hm).
      * apply wp_ret.
        repeat lazymatch goal with
        | |- wp (_ ≫= _) _ _ => apply wp_skip; intros ? ?
        | |- wp (let _ := _ in _) _ _ => cbv zeta
        end.
        apply wp_ret. intros Hg0 p' pe [= <-] Hpe.
        destruct (ev_entities _ _ _ _ Hg0 _ _ He) as (pe' & Hpe' & []).
        simplify_eq. split; intros; congruence.
  - subst b. wp_with isinstance_spec. intros b ? [-> ->]. apply wp_ret.
    repeat lazymatch goal with
    | |- wp (_ ≫= _) _ _ => apply wp_skip; intros ? ?
    | |- wp (let _ := _ in _) _ _ => cbv zeta
    end.
    apply wp_ret. intros _ ? ? [=].
Qed.

(** X17: when a routine returns, every object it returns is attached to
    the object at the parent path: the Group of a Segment is among the
    groups of its Block; the Source of a RecordingChannelGroup or of a
    Unit is among the sources of its parent; the DataArrays of a signal
    are among the arrays of the Group, and the MultiTag of an Epoch or of
    an Event among its tags.  The MultiTag of a spike train is among the
    tags of the parent when the parent is a Group; when the parent is a
    Source, the Source is among the sources of the tag. *)
Theorem results_are_attached_to_the_parent (r : routine)
    (parent_path : listref) (st st' : State) (hs : list Nix.handle) :
  convert (Under r parent_path) st = (st', Ok hs) →
  ∃ parent, _get_object_at parent_path st = (st, Ok parent) ∧
    ∀ h, h ∈ hs → attached r parent h st'.
Proof.
  apply (wp_run (convert (Under r parent_path))
           (λ hs st', ∃ parent,
              _get_object_at parent_path st = (st, Ok parent) ∧
              ∀ h, h ∈ hs → attached r parent h st')).
  assert (∀ (Q : PyObj → Nix.handle → State → Prop) (m : M Nix.handle) s,
            wp m (λ h st', ∃ parent,
                    _get_object_at parent_path st = (st, Ok parent) ∧
                    Q parent h st') s →
            wp (h ← m; ret [h])
               (λ hs st', ∃ parent,
                  _get_object_at parent_path st = (st, Ok parent) ∧
                  ∀ h, h ∈ hs → Q parent h st') s) as Hone.
  { intros Q m s Hm. apply wp_bind. eapply wp_mono; [exact Hm|].
    intros h s' (parent & Hp & HQ). apply wp_ret. exists parent.
    split; [done|]. by intros ? ->%list_elem_of_singleton. }
  destruct r as [x|x|x|x|x|x|x|x]; cbn [convert].
  - apply (Hone (attached (WriteSegment x))), write_segment_attached.
  - apply (Hone (attached (WriteRecordingChannelGroup x))),
      write_recordingchannelgroup_attached.
  - apply write_analogsignal_attached.
  - apply write_irregularlysampledsignal_attached.
  - apply (Hone (attached (WriteEpoch x))), write_epoch_attached.
  - apply (Hone (attached (WriteEvent x))), write_event_attached.
  - apply (Hone (attached (WriteSpikeTrain x))), write_spiketrain_attached.
  - apply (Hone (attached (WriteUnit x))), write_unit_attached.
Qed.

End Proofs.

(** * Sample runs

    The theorems above, at the sample trees and with [sample_libs]. *)

(** An unmapped spike train: [sample_unit] is written under the channel
    group of [sample_state], where its spike train was never written. *)
Lemma unmapped_reference_raises_witness :
  write_unit sample_unit rcg_path (sample_state (libs := sample_libs)) =
    (final (write_unit (unit_without_spiketrains sample_unit) rcg_path)
       (sample_state (libs := sample_libs)),
     Raise (KeyError unmapped_message)).
Proof.
  apply (unmapped_reference_raises sample_unit sample_spiketrain rcg_path
           (sample_state (libs := sample_libs)) _ 5).
  - simpl. left.
  - vm_compute. reflexivity.
  - simpl. lia.
  - vm_compute. reflexivity.
Defined.


(** The three channels of [sample_analogsignal]. *)
Lemma signal_channels_share_one_section_witness :
  signal_written (Analog sample_analogsignal) segment_path
    (sample_state (libs := sample_libs)) [5; 6; 7]
    (signal_state (libs := sample_libs)).
Proof.
  apply (signal_channels_share_one_section (libs := sample_libs)).
  vm_compute. reflexivity.
Defined.

(** The name of the unnamed [sample_spiketrain]. *)
Lemma sink_names_follow_the_routines_witness :
  ∃ nm,
    sink_name named_after (Under (WriteSpikeTrain sample_spiketrain) segment_path)
      (sample_state (libs := sample_libs)) nm ∧
    result_named (Under (WriteSpikeTrain sample_spiketrain) segment_path) [6]
      (spiked_state (libs := sample_libs)) nm.
Proof.
  apply (sink_names_follow_the_routines (libs := sample_libs)).
  vm_compute. reflexivity.
Defined.

(** With the rule worded as in the specification, the spike train of
    [sample_state] would be named ["S.SpikeTrain0"], after the group of its
    segment; the writer names it ["B.SpikeTrain0"], after the block. *)
Lemma spiketrain_is_not_named_after_its_group :
  ¬ ∀ c st st' hs,
      convert (libs := sample_libs) c st = (st', Ok hs) →
      ∃ nm, sink_name spec_named_after c st nm ∧ result_named c hs st' nm.
Proof.
  intros H.
  destruct (H (Under (WriteSpikeTrain sample_spiketrain) segment_path)
              (sample_state (libs := sample_libs))
              (spiked_state (libs := sample_libs)) [6])
    as (nm & Hname & Hres).
  { vm_compute. reflexivity. }
  unfold sink_name in Hname. simpl in Hname.
  destruct Hname as (p & h & pe & Hp & Hwalk & Hpe & ->).
  vm_compute in Hp. injection Hp as <-.
  vm_compute in Hwalk. injection Hwalk as <-.
  vm_compute in Hpe. injection Hpe as <-.
  destruct Hres as (h' & [= <-] & e & He & Hnm).
  vm_compute in He. injection He as <-.
  vm_compute in Hnm. discriminate Hnm.
Qed.

(** [sample_unit] written once its spike train is in the segment. *)
Lemma unit_spiketrains_refer_to_sources_witness :
  ∃ mt e rcg_source,
    neo_nix_map (spiked_state (libs := sample_libs))
      !! Neo.obj_id sample_spiketrain = Some (MObj mt) ∧
    _get_object_at rcg_path (spiked_state (libs := sample_libs)) =
      (spiked_state (libs := sample_libs), Ok (PEnt rcg_source)) ∧
    entities (final (write_unit sample_unit rcg_path)
                (spiked_state (libs := sample_libs))) !! mt = Some e ∧
    rcg_source ∈ Nix.sources e ∧ 7 ∈ Nix.sources e.
Proof.
  apply (unit_spiketrains_refer_to_sources sample_unit sample_spiketrain).
  - vm_compute. reflexivity.
  - simpl. left.
  - simpl. lia.
Defined.


(** [sample_block] written twice, the second time with every object at
    another address. *)
Lemma synthesized_names_are_deterministic_witness :
  Nix.name <$> entities (final (write_all_blocks (libs := sample_libs)
                                  (rename_block S <$> [sample_block])) init_state) =
  Nix.name <$> entities (final (write_all_blocks (libs := sample_libs)
                                  [sample_block]) init_state).
Proof.
  apply (synthesized_names_are_deterministic (libs := sample_libs) S [sample_block]).
  intros x y H. lia.
Defined.

(** The path of the block, after a spike train was written into the
    segment. *)
Lemma paths_never_mutated_witness :
  py_lists (final (call (libs := sample_libs) (WriteSpikeTrain sample_spiketrain)
                     segment_path)
              (sample_state (libs := sample_libs))) !! block_path =
    Some [("block", "B")].
Proof.
  apply (paths_never_mutated (libs := sample_libs)).
  vm_compute. reflexivity.
Defined.

(** The times of [sample_spiketrain]. *)
Lemma spiketrain_times_are_epoch_times_witness :
  ∃ e tda te,
    entities (spiked_state (libs := sample_libs)) !! 6 = Some e ∧
    Nix.positions e = Some tda ∧
    entities (spiked_state (libs := sample_libs)) !! tda = Some te ∧
    Nix.type te = "neo.epoch.times".
Proof.
  assert (H : write_spiketrain (libs := sample_libs) sample_spiketrain
                segment_path (sample_state (libs := sample_libs)) =
              (spiked_state (libs := sample_libs), Ok 6))
    by (vm_compute; reflexivity).
  destruct (spiketrain_times_are_epoch_times (libs := sample_libs)
              sample_spiketrain segment_path _ _ 6 H)
    as (e & tda & te & He & _ & Hpos & Hte & _ & _ & Hty & _).
  exists e, tda, te.
  split; [exact He|]. split; [exact Hpos|]. split; [exact Hte|]. exact Hty.
Defined.

(** The table after [sample_spiketrain] was written. *)
Lemma leaf_conversion_is_recorded_witness :
  ∃ v, recorded (WriteSpikeTrain sample_spiketrain) [6] v ∧
    neo_nix_map (spiked_state (libs := sample_libs)) =
      <[Neo.obj_id (entity_of (WriteSpikeTrain sample_spiketrain)) := v]>
        (neo_nix_map (sample_state (libs := sample_libs))) ∧
    _get_mapped_object (entity_of (WriteSpikeTrain sample_spiketrain))
      (spiked_state (libs := sample_libs)) =
      (spiked_state (libs := sample_libs), Ok v).
Proof.
  apply (leaf_conversion_is_recorded (libs := sample_libs)
           (WriteSpikeTrain sample_spiketrain) segment_path).
  - reflexivity.
  - vm_compute. reflexivity.
Defined.

(** The three arrays of [sample_analogsignal] under [sample_signal_rcg]. *)
Lemma channel_group_signals_refer_to_source_witness :
  ∃ v,
    neo_nix_map (final (write_recordingchannelgroup sample_signal_rcg block_path)
                   (signal_state (libs := sample_libs)))
      !! Neo.obj_id sample_analogsignal = Some v ∧
    linked 8 (final (write_recordingchannelgroup sample_signal_rcg block_path)
                (signal_state (libs := sample_libs))) v.
Proof.
  assert (H : write_recordingchannelgroup sample_signal_rcg block_path
                (signal_state (libs := sample_libs)) =
              (final (write_recordingchannelgroup sample_signal_rcg block_path)
                 (signal_state (libs := sample_libs)), Ok 8))
    by (vm_compute; reflexivity).
  apply (proj1 (channel_group_signals_refer_to_source _ _ _ _ _ H)).
  simpl. left.
Defined.

(** What [sample_state] held is kept when the spike train is written. *)
Lemma existing_objects_are_kept_witness :
  settled (sample_state (libs := sample_libs))
    (spiked_state (libs := sample_libs)).
Proof.
  apply (existing_objects_are_kept (libs := sample_libs)
           (Under (WriteSpikeTrain sample_spiketrain) segment_path) [] _ _ [6]).
  left. vm_compute. reflexivity.
Defined.

(** The file of origin and the annotation of [sample_annotated_event]. *)
Lemma attributes_reach_the_metadata_witness :
  described (libs := sample_libs)
    (Under (WriteEvent sample_annotated_event) segment_path) 6
    (final (write_event sample_annotated_event segment_path)
       (sample_state (libs := sample_libs))).
Proof.
  apply (attributes_reach_the_metadata (libs := sample_libs) _
           (sample_state (libs := sample_libs)) _ [6]).
  - vm_compute. reflexivity.
  - left.
Defined.

(** The end of [sample_spiketrain] is stored. *)
Lemma spiketrain_bounds_are_stored_witness :
  bounds_stored (libs := sample_libs) sample_spiketrain 6
    (spiked_state (libs := sample_libs)).
Proof.
  apply (spiketrain_bounds_are_stored (libs := sample_libs) sample_spiketrain
           segment_path (sample_state (libs := sample_libs))).
  vm_compute. reflexivity.
Defined.

(** The section of the segment's group is found again after an event was
    written into the segment, and with another path. *)
Lemma metadata_is_created_once_witness :
  _get_or_init_metadata (PEnt 1) block_path
    (final (write_event sample_annotated_event segment_path)
       (final (_get_or_init_metadata (PEnt 1) segment_path)
          (sample_state (libs := sample_libs)))) =
  (final (write_event sample_annotated_event segment_path)
     (final (_get_or_init_metadata (PEnt 1) segment_path)
        (sample_state (libs := sample_libs))), Ok 1).
Proof.
  apply (metadata_is_created_once (PEnt 1) segment_path block_path
           (sample_state (libs := sample_libs))
           (final (_get_or_init_metadata (PEnt 1) segment_path)
              (sample_state (libs := sample_libs)))).
  - vm_compute. reflexivity.
  - apply (wp_run (write_event sample_annotated_event segment_path)
             (λ _ st', settled _ st') _ _ 6
             (settles_write_event sample_annotated_event segment_path _)).
    vm_compute. reflexivity.
Defined.

(** [sample_block] and a block without a name are the first two blocks of
    the file; the second one is called [neo.Block1]. *)
Lemma blocks_are_appended_in_order_witness :
  length [0; 5] = length [sample_block; sample_unnamed_block] ∧
  blocks (final (write_all_blocks (libs := sample_libs)
                   [sample_block; sample_unnamed_block]) init_state) =
    blocks init_state ++ [0; 5] ∧
  ∀ i h blk, [0; 5] !! i = Some h →
    [sample_block; sample_unnamed_block] !! i = Some blk →
    block_written blk (length (blocks init_state) + i) h
      (final (write_all_blocks (libs := sample_libs)
                [sample_block; sample_unnamed_block]) init_state).
Proof.
  apply (blocks_are_appended_in_order (libs := sample_libs)).
  vm_compute. reflexivity.
Defined.

(** The MultiTag of [sample_annotated_event]. *)
Lemma sink_objects_are_shaped_witness :
  shaped (libs := sample_libs)
    (Under (WriteEvent sample_annotated_event) segment_path) 6
    (final (write_event sample_annotated_event segment_path)
       (sample_state (libs := sample_libs))).
Proof.
  apply (sink_objects_are_shaped (libs := sample_libs) _
           (sample_state (libs := sample_libs)) _ [6]).
  - vm_compute. reflexivity.
  - left.
Defined.

(** The second of the three arrays of [sample_analogsignal]. *)
Lemma signal_arrays_hold_the_columns_witness :
  array_written (libs := sample_libs) (Analog sample_analogsignal) 1 6
    (signal_state (libs := sample_libs)).
Proof.
  apply (signal_arrays_hold_the_columns (libs := sample_libs)
           (Analog sample_analogsignal) segment_path
           (sample_state (libs := sample_libs)) _ [5; 6; 7]).
  - vm_compute. reflexivity.
  - reflexivity.
Defined.

(** The times and the durations of [sample_epoch]. *)
Lemma epoch_times_and_durations_are_stored_witness :
  epoch_written sample_epoch 10
    (final (write_epoch sample_epoch segment_path)
       (signal_state (libs := sample_libs))).
Proof.
  apply (epoch_times_and_durations_are_stored sample_epoch segment_path
           (signal_state (libs := sample_libs))).
  vm_compute. reflexivity.
Defined.

(** The times of [sample_annotated_event]. *)
Lemma event_times_are_stored_witness :
  event_written sample_annotated_event 6
    (final (write_event sample_annotated_event segment_path)
       (sample_state (libs := sample_libs))).
Proof.
  apply (event_times_are_stored sample_annotated_event segment_path
           (sample_state (libs := sample_libs))).
  vm_compute. reflexivity.
Defined.

(** The times of [sample_spiketrain]. *)
Lemma spike_times_are_stored_witness :
  spikes_written sample_spiketrain 6 (spiked_state (libs := sample_libs)).
Proof.
  apply (spike_times_are_stored (libs := sample_libs) sample_spiketrain
           segment_path (sample_state (libs := sample_libs))).
  vm_compute. reflexivity.
Defined.

(** The two channels of [sample_located_rcg]. *)
Lemma channels_become_child_sources_witness :
  group_channels_written sample_located_rcg 5
    (final (write_recordingchannelgroup sample_located_rcg block_path)
       (sample_state (libs := sample_libs))).
Proof.
  apply (channels_become_child_sources sample_located_rcg block_path
           (sample_state (libs := sample_libs))).
  vm_compute. reflexivity.
Defined.

(** The waveforms of [sample_waveform_spiketrain]. *)
Lemma waveforms_become_a_feature_witness :
  waveforms_written (libs := sample_libs) sample_waveform_spiketrain 6
    (final (write_spiketrain (libs := sample_libs) sample_waveform_spiketrain
              segment_path)
       (sample_state (libs := sample_libs))).
Proof.
  apply (waveforms_become_a_feature (libs := sample_libs)
           sample_waveform_spiketrain segment_path
           (sample_state (libs := sample_libs))).
  vm_compute. reflexivity.
Defined.

(** The MultiTag of [sample_spiketrain] is among the tags of the group of
    the segment. *)
Lemma results_are_attached_to_the_parent_witness :
  ∃ parent,
    _get_object_at segment_path (sample_state (libs := sample_libs)) =
      (sample_state (libs := sample_libs), Ok parent) ∧
    ∀ h, h ∈ [6] →
      attached (WriteSpikeTrain sample_spiketrain) parent h
        (spiked_state (libs := sample_libs)).
Proof.
  apply (results_are_attached_to_the_parent (libs := sample_libs)
           (WriteSpikeTrain sample_spiketrain) segment_path).
  vm_compute. reflexivity.
Defined.
